(** * CAR / CAA document pipeline: acquisition, normalisation, combination

    A shallow embedding of the Node scripts of the repository
    (download, convert, combine) and the properties of their pure
    parts and of their control flow.

    JavaScript strings are sequences of UTF-16 code units; they are
    modelled as [list N].  Buffers are [list byte]. *)

From Stdlib Require Import NArith ZArith List Bool Lia.
From Stdlib Require String Ascii.
Import String.StringSyntax.
Delimit Scope string_scope with string.
From Stdlib Require Import Permutation Sorted.
From Stdlib Require Import Strings.Byte.
From Stdlib Require DecimalN.
Import ListNotations.

Set Implicit Arguments.

(* ================================================================== *)
(** ** JavaScript strings *)
(* ================================================================== *)

Module JS.

Abbreviation char := N (only parsing).
Abbreviation jsstring := (list N) (only parsing).

(** ASCII literals of the scripts. *)
Definition lit (s : String.string) : jsstring :=
  map Ascii.N_of_ascii (String.list_ascii_of_string s).
Arguments lit s%_string.

Definition LF : char := 10%N.
Definition CR : char := 13%N.

Definition char_eqb (a b : char) : bool := N.eqb a b.

Fixpoint str_eqb (a b : jsstring) : bool :=
  match a, b with
  | [], [] => true
  | x :: a', y :: b' => char_eqb x y && str_eqb a' b'
  | _, _ => false
  end.

(** The class [\s] of a JavaScript regular expression, which is also
    what [trim] and [trimEnd] strip: WhiteSpace and LineTerminator of
    ECMAScript (TAB, LF, VT, FF, CR, SP, NBSP, the Zs category, LS, PS,
    ZWNBSP). *)
Definition is_space (c : char) : bool :=
  ((9 <=? c) && (c <=? 13) || (c =? 32) || (c =? 160) || (c =? 5760)
   || (8192 <=? c) && (c <=? 8202) || (c =? 8232) || (c =? 8233)
   || (c =? 8239) || (c =? 8287) || (c =? 12288) || (c =? 65279))%N.

(** [s.replace(/\s+$/, '')] and [s.trimEnd()]: the longest suffix of
    white space is removed. *)
Fixpoint trimEnd (s : jsstring) : jsstring :=
  match s with
  | [] => []
  | c :: r =>
      match trimEnd r with
      | [] => if is_space c then [] else [c]
      | r' => c :: r'
      end
  end.

Fixpoint trimStart (s : jsstring) : jsstring :=
  match s with
  | [] => []
  | c :: r => if is_space c then trimStart r else s
  end.

Definition trim (s : jsstring) : jsstring := trimEnd (trimStart s).

(** [a.join(sep)] *)
Fixpoint join (sep : jsstring) (l : list jsstring) : jsstring :=
  match l with
  | [] => []
  | [x] => x
  | x :: r => x ++ sep ++ join sep r
  end.

Definition cons_head (c : char) (ls : list jsstring) : list jsstring :=
  match ls with
  | l :: r => (c :: l) :: r
  | [] => [[c]]
  end.

(** [s.split(/\r?\n/)]: the separators are the occurrences of LF, each
    together with a CR standing immediately before it.  The result has
    always at least one element. *)
Fixpoint splitLines (s : jsstring) : list jsstring :=
  match s with
  | [] => [[]]
  | c :: rest =>
      if char_eqb c LF then [] :: splitLines rest
      else
        match rest with
        | c2 :: rest' =>
            if char_eqb c CR && char_eqb c2 LF then [] :: splitLines rest'
            else cons_head c (splitLines rest)
        | [] => cons_head c (splitLines rest)
        end
  end.

(** [s.split(c)] for a one-character separator string. *)
Fixpoint splitOn (sep : char) (s : jsstring) : list jsstring :=
  match s with
  | [] => [[]]
  | c :: rest =>
      if char_eqb c sep then [] :: splitOn sep rest
      else cons_head c (splitOn sep rest)
  end.

(** [String(n)] for a non-negative integer. *)
Fixpoint uint_chars (u : Decimal.uint) : jsstring :=
  match u with
  | Decimal.Nil => []
  | Decimal.D0 r => 48%N :: uint_chars r
  | Decimal.D1 r => 49%N :: uint_chars r
  | Decimal.D2 r => 50%N :: uint_chars r
  | Decimal.D3 r => 51%N :: uint_chars r
  | Decimal.D4 r => 52%N :: uint_chars r
  | Decimal.D5 r => 53%N :: uint_chars r
  | Decimal.D6 r => 54%N :: uint_chars r
  | Decimal.D7 r => 55%N :: uint_chars r
  | Decimal.D8 r => 56%N :: uint_chars r
  | Decimal.D9 r => 57%N :: uint_chars r
  end.

(** [String(n)] for a number [n] that is a natural number below 2^53,
    as the part numbers of the manifest are: its decimal digits.  (A
    larger number is rounded when the manifest is read, and printed
    with an exponent from 1e21 on.) *)
Definition String_of_N (n : N) : jsstring := uint_chars (N.to_uint n).

(** [s.padStart(n, c)] for a one-character filler. *)
Definition padStart (n : nat) (c : char) (s : jsstring) : jsstring :=
  repeat c (n - length s) ++ s.

End JS.
Import JS.

(* ================================================================== *)
(** ** Markdown normaliser (convert scripts) *)
(* ================================================================== *)

Module Normalizer.

(** The loop of [normalizeTextToMarkdown]: [blankCount] is the number of
    blank lines seen since the last non-blank one; the result is what
    the loop pushes to [compact]. *)
Fixpoint compactLines (blankCount : nat) (lines : list jsstring)
  : list jsstring :=
  match lines with
  | [] => []
  | line :: rest =>
      let trimmed := trimEnd line in
      match trimmed with
      | [] =>
          let blankCount := S blankCount in
          if blankCount <=? 2 then [] :: compactLines blankCount rest
          else compactLines blankCount rest
      | _ => trimmed :: compactLines 0 rest
      end
  end.

Definition normalizeTextToMarkdown (text : jsstring) : jsstring :=
  let lines := splitLines text in
  join [LF] (compactLines 0 lines).

End Normalizer.
Import Normalizer.


(* ================================================================== *)
(** ** Values, results and the host environment *)
(* ================================================================== *)

(** What a call leaves behind: a value, or the exception it threw (the
    rejection of its promise). *)
Inductive error :=
| NetworkError          (* the 'error' event of the request *)
| TooManyRedirects      (* new Error('Too many redirects') *)
| UnexpectedResponse    (* new Error(`Unexpected response ...`) *)
| ReadError.            (* readFileSync on something that is no readable file *)

Inductive outcome (A : Type) :=
| Returned (a : A)
| Threw (e : error).
Arguments Returned {A} a.
Arguments Threw {A} e.

(** The values [YAML.parse] produces.  Numbers are integers here: the
    scripts read page counts and part numbers. *)
#[warnings="-register-all"]
Inductive jsval :=
| JUndefined
| JNull
| JBool (b : bool)
| JNum (n : Z)
| JStr (s : jsstring)
| JArr (l : list jsval)
| JObj (fields : list (jsstring * jsval)).

(** ToBoolean *)
Definition truthy (v : jsval) : bool :=
  match v with
  | JUndefined | JNull => false
  | JBool b => b
  | JNum n => negb (n =? 0)%Z
  | JStr s => negb (str_eqb s [])
  | JArr _ | JObj _ => true
  end.

Definition is_undefined (v : jsval) : bool :=
  match v with JUndefined => true | _ => false end.

Fixpoint lookup (k : jsstring) (fields : list (jsstring * jsval)) : jsval :=
  match fields with
  | [] => JUndefined
  | (k', v) :: r => if str_eqb k k' then v else lookup k r
  end.

(** [v.k] for the keys the scripts read ([source_url], [pages],
    [generated_at]), none of which is a built-in property of a string or
    an array. *)
Definition get (v : jsval) (k : jsstring) : jsval :=
  match v with
  | JObj fields => lookup k fields
  | _ => JUndefined
  end.

(** The [yaml] package.  [YAML_parse] is [None] where [YAML.parse]
    throws. *)
Class Yaml := {
  YAML_parse : jsstring -> option jsval;
  YAML_stringify : jsval -> jsstring
}.

(** [node:path], the WHATWG [URL] and the place of the scripts. *)
Class Node := {
  projectRoot : jsstring;
  path_isAbsolute : jsstring -> bool;
  path_join : list jsstring -> jsstring;
  path_resolve : list jsstring -> jsstring;
  path_dirname : jsstring -> jsstring;
  (** [new URL(location, base).toString()] *)
  URL_resolve : jsstring -> jsstring -> jsstring
}.

(** An entry of the manifest [car.yaml]. *)
Record entry := {
  part : N;
  name : jsstring;
  url : jsstring;
  pdf : option jsstring;
  md : option jsstring
}.

Definition zeroPadPart (part : N) : jsstring :=
  padStart 3 48%N (String_of_N part).

(** What is at a path: a file with its text, or something that exists
    and cannot be read as a file.  [None] is a path that does not
    exist. *)
Inductive fsnode :=
| File (text : jsstring)
| Unreadable.

Definition filesystem := jsstring -> option fsnode.

(* ================================================================== *)
(** ** Corpus combiner (combine_md.js) *)
(* ================================================================== *)

Module Combine.

Definition is_delimiter (line : jsstring) : bool :=
  str_eqb (trim line) (lit "---").

(** [while (i < lines.length && lines[i].trim() !== '---') i += 1],
    on the lines from index [i] on. *)
Fixpoint scan (i : nat) (from_i : list jsstring) : nat :=
  match from_i with
  | [] => i
  | l :: r => if is_delimiter l then i else scan (S i) r
  end.

(** [a.slice(from, to)] *)
Definition slice {A} (from to : nat) (a : list A) : list A :=
  firstn (to - from) (skipn from a).

Definition emptyObject : jsval := JObj [].

Definition extractFrontMatterAndBody `{Yaml} (mdText : jsstring)
  : jsval * jsstring :=
  let lines := splitLines mdText in
  if negb (is_delimiter (hd [] lines)) then (emptyObject, mdText)
  else
    let i := scan 1 (skipn 1 lines) in
    if List.length lines <=? i then (emptyObject, mdText)
    else
      let yamlText := join [LF] (slice 1 i lines) in
      let body := join [LF] (skipn (i + 1) lines) in
      let meta :=
        match YAML_parse yamlText with
        | Some v => if truthy v then v else emptyObject
        | None => emptyObject
        end in
      (meta, body).

(** [text.replace(/\n{3,}/g, '\n\n')]: [pending] line feeds have been
    read and not yet written. *)
Definition flush (pending : nat) : jsstring :=
  if 3 <=? pending then [LF; LF] else repeat LF pending.

Fixpoint collapse (pending : nat) (text : jsstring) : jsstring :=
  match text with
  | [] => flush pending
  | c :: r =>
      if char_eqb c LF then collapse (S pending) r
      else flush pending ++ c :: collapse 0 r
  end.

Definition normalizeSpacing (text : jsstring) : jsstring := collapse 0 text.

(** [(a, b) => (a.part || 0) - (b.part || 0)] *)
Definition comparator (a b : entry) : Z :=
  (Z.of_N (part a) - Z.of_N (part b))%Z.

(** [Array.prototype.sort] is stable; with a consistent comparator its
    result is the one of any stable sort. *)
Fixpoint insert (x : entry) (l : list entry) : list entry :=
  match l with
  | [] => [x]
  | y :: r => if (comparator x y <=? 0)%Z then x :: l else y :: insert x r
  end.

Definition sort (l : list entry) : list entry := fold_right insert [] l.

Section Main.
Context `{Yaml} `{Node}.

Definition mdRel (e : entry) : jsstring :=
  match md e with
  | Some m =>
      if negb (str_eqb m []) then
        if path_isAbsolute m then m else path_join [lit "md"; lit "car"; m]
      else path_join [lit "md"; lit "car";
                      lit "Part_" ++ zeroPadPart (part e) ++ lit ".md"]
  | None => path_join [lit "md"; lit "car";
                       lit "Part_" ++ zeroPadPart (part e) ++ lit ".md"]
  end.

Definition mdAbs (e : entry) : jsstring :=
  path_resolve [projectRoot; mdRel e].

Definition missMessage (e : entry) : jsstring :=
  lit "[MISS] skipping Part " ++ zeroPadPart (part e)
  ++ lit " (not found: " ++ mdAbs e ++ lit ")".

(** The object [metaBlock] after its undefined fields are deleted. *)
Definition metaBlock (e : entry) (meta : jsval) : list (jsstring * jsval) :=
  filter (fun kv => negb (is_undefined (snd kv)))
    [ (lit "part", JStr (zeroPadPart (part e)));
      (lit "name", JStr (name e));
      (lit "source_url",
        if truthy (get meta (lit "source_url"))
        then get meta (lit "source_url") else JStr (url e));
      (lit "pages", get meta (lit "pages"));
      (lit "generated_at", get meta (lit "generated_at")) ].

Definition header (e : entry) (meta : jsval) : jsstring :=
  [LF; LF] ++ lit "<!-- BEGIN Part_" ++ zeroPadPart (part e) ++ lit ": "
  ++ name e ++ lit " -->" ++ [LF]
  ++ lit "```yaml" ++ [LF] ++ YAML_stringify (JObj (metaBlock e meta))
  ++ lit "```" ++ [LF].

Definition footer (e : entry) : jsstring :=
  [LF] ++ lit "<!-- END Part_" ++ zeroPadPart (part e) ++ lit " -->" ++ [LF].

(** What one iteration pushes to [parts] for an artifact with text
    [raw]. *)
Definition renderPart (e : entry) (raw : jsstring) : jsstring :=
  let '(meta, body) := extractFrontMatterAndBody raw in
  header e meta ++ trimEnd body ++ footer e.

(** The variables of the loop of [main], and the warnings written to
    the console. *)
Record progress := {
  warnings : list jsstring;
  parts : list jsstring;
  count : nat
}.

Fixpoint loop (fs : filesystem) (sorted : list entry) (st : progress)
  : outcome progress :=
  match sorted with
  | [] => Returned st
  | e :: rest =>
      match fs (mdAbs e) with
      | None =>
          loop fs rest
            {| warnings := warnings st ++ [missMessage e];
               parts := parts st; count := count st |}
      | Some (File raw) =>
          loop fs rest
            {| warnings := warnings st;
               parts := parts st ++ [renderPart e raw];
               count := S (count st) |}
      | Some Unreadable => Threw ReadError
      end
  end.

(** The run of [main] on the parsed manifest: what was logged, what was
    pushed, and the text written to the output path. *)
Record corpus := {
  warned : list jsstring;
  documents : list jsstring;
  combinedCount : nat;
  combined : jsstring
}.

Definition main (fs : filesystem) (entries : list entry) : outcome corpus :=
  let sorted := sort entries in
  match loop fs sorted {| warnings := []; parts := []; count := 0 |} with
  | Threw e => Threw e
  | Returned st =>
      Returned
        {| warned := warnings st;
           documents := parts st;
           combinedCount := count st;
           combined := normalizeSpacing (join [LF] (parts st)) ++ [LF] |}
  end.

End Main.
End Combine.

(* ================================================================== *)
(** ** HTTP with redirects and cookies (both download scripts) *)
(* ================================================================== *)

Module Http.

Definition headers := list (jsstring * jsstring).

(** What a server answers: the fields of the response the scripts
    read. *)
Record response := {
  statusCode : N;
  content_type : option jsstring;
  set_cookie : option (list jsstring);
  location : option jsstring;
  body : list byte
}.

Inductive reply :=
| ConnectionError
| Reply (res : response).

(** The world outside: the answer to the [n]-th request of the run, for
    its URL and its headers. *)
Definition network := nat -> jsstring -> headers -> reply.

Inductive event :=
| EvRequest (url : jsstring) (hs : headers)
| EvSleep (ms : N)
| EvMkdir (path : jsstring)
| EvWriteFile (path : jsstring) (data : list byte)
| EvRename (from to : jsstring)
| EvWriteReport (path : jsstring).

(** The cookie jar is a [Map]: insertion order is kept, and a key that
    is set again keeps its place. *)
Definition jar := list (jsstring * jsstring).

Fixpoint jar_set (k v : jsstring) (j : jar) : jar :=
  match j with
  | [] => [(k, v)]
  | (k', v') :: r =>
      if str_eqb k k' then (k, v) :: r else (k', v') :: jar_set k v r
  end.

Record state := {
  requests : nat;
  cookieJar : jar;
  log : list event
}.

Definition M (A : Type) := state -> state * outcome A.

Definition ret {A} (a : A) : M A := fun s => (s, Returned a).

Definition bind {A B} (m : M A) (k : A -> M B) : M B :=
  fun s =>
    match m s with
    | (s', Returned a) => k a s'
    | (s', Threw e) => (s', Threw e)
    end.

Definition throw {A} (e : error) : M A := fun s => (s, Threw e).

(** [try { await m } catch {}] *)
Definition try_ignore {A} (m : M A) : M unit :=
  fun s => (fst (m s), Returned tt).

(** The state once an effect is written to the log. *)
Definition logged (e : event) (s : state) : state :=
  {| requests := requests s; cookieJar := cookieJar s; log := log s ++ [e] |}.

Definition emit (e : event) : M unit := fun s => (logged e s, Returned tt).

(** [const cookieJar = new Map()] *)
Definition emptied (s : state) : state :=
  {| requests := requests s; cookieJar := []; log := log s |}.

Definition newCookieJar : M unit := fun s => (emptied s, Returned tt).

Definition sleep (ms : N) : M unit := emit (EvSleep ms).

Declare Scope js_scope.
Delimit Scope js_scope with js.
Notation "x <- m ;; k" := (bind m (fun x => k))
  (at level 61, m at next level, right associativity) : js_scope.
Notation "m ;; k" := (bind m (fun _ => k))
  (at level 61, right associativity) : js_scope.
Local Open Scope js_scope.

Definition cookieHeader (j : jar) : jsstring :=
  join (lit "; ") (map (fun kv => fst kv ++ lit "=" ++ snd kv) j).

(** One element of [set-cookie]. *)
Definition storeCookie (j : jar) (cookieStr : jsstring) : jar :=
  let kv := hd [] (splitOn 59%N cookieStr) in
  match splitOn 61%N kv with
  | k :: v :: _ =>
      if negb (str_eqb k []) && negb (str_eqb v [])
      then jar_set (trim k) (trim v) j else j
  | _ => j
  end.

Definition storeCookies (res : response) (j : jar) : jar :=
  match set_cookie res with
  | Some l => fold_left storeCookie l j
  | None => j
  end.

Definition redirectTarget (res : response) : option jsstring :=
  if ((300 <=? statusCode res) && (statusCode res <? 400))%N then
    match location res with
    | Some l => if negb (str_eqb l []) then Some l else None
    | None => None
    end
  else None.

Section Fetch.
Context `{Node}.
Variable net : network.
(** The headers of the script: User-Agent, Accept, Referer. *)
Variable base : headers.

Fixpoint fetchWithRedirects (url : jsstring) (maxRedirects : nat)
  (s : state) {struct maxRedirects} : state * outcome response :=
  let cookie := cookieHeader (cookieJar s) in
  let hs := if negb (str_eqb cookie [])
            then base ++ [(lit "Cookie", cookie)] else base in
  let sent := {| requests := S (requests s); cookieJar := cookieJar s;
                 log := log s ++ [EvRequest url hs] |} in
  match net (requests s) url hs with
  | ConnectionError => (sent, Threw NetworkError)
  | Reply res =>
      let s' := {| requests := requests sent;
                   cookieJar := storeCookies res (cookieJar sent);
                   log := log sent |} in
      match redirectTarget res with
      | Some l =>
          match maxRedirects with
          | 0 => (s', Threw TooManyRedirects)
          | S n => fetchWithRedirects (URL_resolve l url) n s'
          end
      | None => (s', Returned res)
      end
  end.

End Fetch.

(** [(res.headers['content-type'] || '').split(';')[0].trim()] *)
Definition mimeOf (res : response) : jsstring :=
  trim (hd [] (splitOn 59%N
                 (match content_type res with Some c => c | None => [] end))).

Definition UA : jsstring :=
  lit "Mozilla/5.0 (Macintosh; Intel Mac OS X 14_5) AppleWebKit/537.36 (KHTML, like Gecko) Chrome/126 Safari/537.36".

End Http.
Import Http.
Local Open Scope js_scope.

(* ================================================================== *)
(** ** Manifest downloader (download of the CAR parts) *)
(* ================================================================== *)

Module DownloadCAR.

Definition REFERER : jsstring :=
  lit "https://www.aviation.govt.nz/rules/rule-part/".

Definition baseHeaders : headers :=
  [ (lit "User-Agent", UA); (lit "Referer", REFERER);
    (lit "Accept", lit "application/pdf,*/*") ].

Record result := {
  ok : bool;
  r_part : jsstring;
  size : nat;
  mime : jsstring;
  outPath : jsstring
}.

Section Script.
Context `{Node}.
Variable net : network.

Definition fetchWithRedirects := Http.fetchWithRedirects net baseHeaders.

Definition warmSession : M unit :=
  try_ignore (fetchWithRedirects REFERER 5).

Definition computeDefaultPdfPath (p : jsstring) : jsstring :=
  path_join [lit "download"; lit "car";
             lit "Part_" ++ p ++ lit "_Consolidation.pdf"].

Definition relOut (e : entry) : jsstring :=
  match pdf e with
  | Some p =>
      if negb (str_eqb p []) && negb (str_eqb (trim p) []) then p
      else computeDefaultPdfPath (zeroPadPart (part e))
  | None => computeDefaultPdfPath (zeroPadPart (part e))
  end.

(** [mime !== 'application/pdf' || res.body.length < 10240] *)
Definition rejected (res : response) : bool :=
  negb (str_eqb (mimeOf res) (lit "application/pdf"))
  || (N.of_nat (List.length (body res)) <? 10240)%N.

(** [mkdirSync], [writeFileSync] and [renameSync] are the effects they
    have when they succeed; their failures are left out. *)
Definition downloadPdf (e : entry) : M result :=
  let part := zeroPadPart (part e) in
  let outPath := path_resolve [projectRoot; relOut e] in
  let tmpPath := outPath ++ lit ".tmp" in
  emit (EvMkdir (path_dirname outPath)) ;;
  let tryOnce := fetchWithRedirects (url e) 8 in
  res <- tryOnce ;;
  res <- (if rejected res then sleep 400 ;; tryOnce else ret res) ;;
  let mime2 := mimeOf res in
  if rejected res then
    ret {| ok := false; r_part := part; size := List.length (body res);
           mime := mime2; outPath := outPath |}
  else
    emit (EvWriteFile tmpPath (body res)) ;;
    emit (EvRename tmpPath outPath) ;;
    ret {| ok := true; r_part := part; size := List.length (body res);
           mime := mime2; outPath := outPath |}.

(** The loop of [main]: [results] grows by one record per entry. *)
Fixpoint each (entries : list entry) (results : list (entry * result))
  : M (list (entry * result)) :=
  match entries with
  | [] => ret results
  | e :: rest =>
      r <- downloadPdf e ;;
      each rest (results ++ [(e, r)])
  end.

Record summary := {
  results : list (entry * result);
  okCount : nat;
  failCount : nat
}.

Definition main (entries : list entry) : M summary :=
  newCookieJar ;;
  warmSession ;;
  results <- each entries [] ;;
  let ok := List.length (filter (fun r => ok (snd r)) results) in
  let fail := List.length results - ok in
  let reportPath :=
    path_resolve [projectRoot; lit "download"; lit "car"; lit "report.json"] in
  emit (EvMkdir (path_dirname reportPath)) ;;
  emit (EvWriteReport reportPath) ;;
  ret {| results := results; okCount := ok; failCount := fail |}.

End Script.
End DownloadCAR.

(* ================================================================== *)
(** ** Single-document downloader (download of the Act) *)
(* ================================================================== *)

Module DownloadCAA.

Definition REFERER : jsstring :=
  lit "https://www.legislation.govt.nz/act/public/2023/0010/latest/whole.html".

Definition ACCEPT : jsstring :=
  lit "application/pdf,application/octet-stream;q=0.9,*/*;q=0.8".

Definition baseHeaders : headers :=
  [ (lit "User-Agent", UA); (lit "Accept", ACCEPT);
    (lit "Referer", REFERER) ].

(** [buffer.subarray(0, 5).toString('utf8') === '%PDF-']: the five
    characters are ASCII, so the first five bytes are theirs. *)
Definition looksLikePdf (buffer : list byte) : bool :=
  if List.length buffer <? 5 then false
  else
    match map Byte.to_N (firstn 5 buffer) with
    | [a; b; c; d; e] =>
        ((a =? 37) && (b =? 80) && (c =? 68) && (d =? 70) && (e =? 45))%N
    | _ => false
    end.

Record result := {
  outPath : jsstring;
  bytes : nat;
  mime : jsstring
}.

Section Script.
Context `{Node}.
Variable net : network.

Definition fetchWithRedirects := Http.fetchWithRedirects net baseHeaders.

(** The test before the second attempt. *)
Definition retried (res : response) : bool :=
  (negb (str_eqb (mimeOf res) (lit "application/pdf"))
   || (N.of_nat (List.length (body res)) <? 10240)%N)
  && negb (looksLikePdf (body res)).

(** As in the manifest downloader, the failures of [mkdirSync],
    [writeFileSync] and [renameSync] are left out. *)
Definition downloadPdf (url outPath : jsstring) : M result :=
  emit (EvMkdir (path_dirname outPath)) ;;
  let tmpPath := outPath ++ lit ".tmp" in
  newCookieJar ;;
  res <- fetchWithRedirects url 8 ;;
  res <- (if retried res
          then sleep 400 ;; fetchWithRedirects url 8
          else ret res) ;;
  let mime := mimeOf res in
  if negb (looksLikePdf (body res)) then throw UnexpectedResponse
  else
    emit (EvWriteFile tmpPath (body res)) ;;
    emit (EvRename tmpPath outPath) ;;
    ret {| outPath := outPath; bytes := List.length (body res);
           mime := if negb (str_eqb mime []) then mime
                   else lit "application/pdf" |}.

End Script.
End DownloadCAA.

(* ================================================================== *)
(** ** Sample host: a small stand-in for [yaml], [node:path] and [URL]

    Used to run the scripts on concrete inputs.  The [yaml] stand-in
    knows flat blocks of [key: value] lines only. *)
(* ================================================================== *)

Module Sample.

Definition is_digit (c : char) : bool := ((48 <=? c) && (c <=? 57))%N.

Definition digits_value (s : jsstring) : Z :=
  fold_left (fun acc c => (10 * acc + (Z.of_N c - 48))%Z) s 0%Z.

Definition scalar (s : jsstring) : jsval :=
  match s with
  | [] => JNull
  | _ => if forallb is_digit s then JNum (digits_value s) else JStr s
  end.

(** Cuts [key: value] at the first colon that a space or the end of the
    line follows. *)
Fixpoint cut (line : jsstring) : option (jsstring * jsstring) :=
  match line with
  | [] => None
  | c :: r =>
      let continue :=
        match cut r with
        | Some (k, v) => Some (c :: k, v)
        | None => None
        end in
      if char_eqb c 58%N then
        match r with
        | [] => Some ([], [])
        | c2 :: v => if char_eqb c2 32%N then Some ([], trim v) else continue
        end
      else continue
  end.

Fixpoint parseLines (ls : list jsstring) : option (list (jsstring * jsval)) :=
  match ls with
  | [] => Some []
  | l :: r =>
      match l with
      | [] => parseLines r
      | _ =>
          match cut l, parseLines r with
          | Some (k, v), Some fs => Some ((k, scalar v) :: fs)
          | _, _ => None
          end
      end
  end.

Definition parse (text : jsstring) : option jsval :=
  match trim text with
  | [] => Some JNull
  | _ =>
      match parseLines (splitOn LF text) with
      | Some fs => Some (JObj fs)
      | None => None
      end
  end.

Definition scalarText (v : jsval) : jsstring :=
  match v with
  | JStr s =>
      if forallb is_digit s then [34%N] ++ s ++ [34%N] else s
  | JNum n =>
      if (n <? 0)%Z then lit "-" ++ String_of_N (Z.abs_N n)
      else String_of_N (Z.abs_N n)
  | JNull => lit "null"
  | JBool true => lit "true"
  | JBool false => lit "false"
  | _ => []
  end.

Definition stringify (v : jsval) : jsstring :=
  match v with
  | JObj fs =>
      concat (map (fun kv => fst kv ++ lit ": " ++ scalarText (snd kv) ++ [LF])
                fs)
  | _ => scalarText v ++ [LF]
  end.

Definition yaml : Yaml :=
  {| YAML_parse := parse; YAML_stringify := stringify |}.

Definition isAbsolute (p : jsstring) : bool :=
  match p with
  | c :: _ => char_eqb c 47%N
  | [] => false
  end.

Definition resolve (segments : list jsstring) : jsstring :=
  fold_left (fun acc p => if isAbsolute p then p else acc ++ lit "/" ++ p)
    segments [].

Definition dirname (p : jsstring) : jsstring :=
  join (lit "/") (removelast (splitOn 47%N p)).

Definition node : Node :=
  {| projectRoot := lit "/repo/scripts";
     path_isAbsolute := isAbsolute;
     path_join := join (lit "/");
     path_resolve := resolve;
     path_dirname := dirname;
     URL_resolve := fun location _ => location |}.

(** A manifest in the order 087, 012, 100. *)
Definition e087 : entry :=
  {| part := 87; name := lit "Air Traffic"; pdf := None; md := None;
     url := lit "https://www.aviation.govt.nz/Part_087.pdf" |}.
Definition e012 : entry :=
  {| part := 12; name := lit "Accidents"; pdf := None; md := None;
     url := lit "https://www.aviation.govt.nz/Part_012.pdf" |}.
Definition e100 : entry :=
  {| part := 100; name := lit "Safety Management"; pdf := None; md := None;
     url := lit "https://www.aviation.govt.nz/Part_100.pdf" |}.

Definition manifest : list entry := [e087; e012; e100].

(** The artifact of Part 100, as the converter writes it. *)
Definition artifact100 : jsstring :=
  join [LF]
    [ lit "---";
      lit "title: CAR Part 100 - Safety Management";
      lit "source_url: https://example.org/Part_100_Consolidation.pdf";
      lit "pages: 5";
      lit "generated_at: 2025-08-09T00:32:43.019Z";
      lit "---";
      lit "# Safety Management";
      lit "";
      lit "Rule 1";
      lit "" ].

(** An artifact with no source URL in its front matter. *)
Definition artifact012 : jsstring :=
  join [LF] [ lit "---"; lit "pages: 2"; lit "---"; lit "Rule 12" ].

(** Parts 012 and 100 have their artifact, Part 087 has none. *)
Definition disk : filesystem :=
  fun p =>
    if str_eqb p (lit "/repo/scripts/md/car/Part_100.md")
    then Some (File artifact100)
    else if str_eqb p (lit "/repo/scripts/md/car/Part_012.md")
    then Some (File artifact012)
    else None.

(** An artifact that has no front matter. *)
Definition artifact087 : jsstring := join [LF] [ lit "Rule 87"; lit "" ].

(** All three parts have their artifact. *)
Definition shelf : filesystem :=
  fun p =>
    if str_eqb p (lit "/repo/scripts/md/car/Part_087.md")
    then Some (File artifact087)
    else disk p.

(** Servers.  [served res] answers every request with [res]. *)
Definition served (res : response) : network := fun _ _ _ => Reply res.

Definition pdfType : option jsstring := Some (lit "application/pdf").
Definition htmlType : option jsstring :=
  Some (lit "text/html; charset=utf-8").

(** Declared as PDF, 10240 bytes long, and no PDF: it starts with
    zero bytes. *)
Definition unsigned : response :=
  {| statusCode := 200; content_type := pdfType; set_cookie := None;
     location := None; body := repeat x00 (N.to_nat 10240) |}.

(** Eight bytes with the PDF signature, declared as HTML. *)
Definition tiny : response :=
  {| statusCode := 200; content_type := htmlType; set_cookie := None;
     location := None;
     body := [x25; x50; x44; x46; x2d; x31; x2e; x34] |}.

(** An HTML page of three bytes. *)
Definition page : response :=
  {| statusCode := 200; content_type := htmlType;
     set_cookie := Some [lit "sid=abc; Path=/"];
     location := None; body := [x3c; x70; x3e] |}.

(** The connection fails at the second request of the run, the first
    one after the session is warmed. *)
Definition down : network :=
  fun n _ _ => if Nat.eqb n 1 then ConnectionError else Reply page.

Definition start : state :=
  {| requests := 0; cookieJar := []; log := [] |}.

(** The artifact of Part 087 exists and cannot be read. *)
Definition locked : filesystem :=
  fun p =>
    if str_eqb p (lit "/repo/scripts/md/car/Part_087.md")
    then Some Unreadable
    else disk p.

End Sample.

(* ================================================================== *)
(** ** Vocabulary of the statements *)
(* ================================================================== *)

Unset Implicit Arguments.

Definition noLF (l : jsstring) : bool :=
  forallb (fun c => negb (char_eqb c LF)) l.

(** A line the normaliser writes: no line feed in it, no white space at
    its end. *)
Definition clean (l : jsstring) : Prop := noLF l = true /\ trimEnd l = l.

(** A blank line: empty, or white space only. *)
Definition blank (l : jsstring) : Prop := trimEnd l = [].

(** No three blank lines in a row. *)
Definition no_blank_triple (ls : list jsstring) : Prop :=
  forall pre a b c post,
    ls = pre ++ a :: b :: c :: post -> ~ (blank a /\ blank b /\ blank c).

(** No line ends in a white-space character. *)
Definition no_trailing_space (ls : list jsstring) : Prop :=
  forall l l' c, In l ls -> l = l' ++ [c] -> is_space c = false.

(** After [k] blank lines, no run of blank lines goes beyond two. *)
Fixpoint runs_bounded (k : nat) (ls : list jsstring) : bool :=
  match ls with
  | [] => true
  | l :: r =>
      match trimEnd l with
      | [] => (S k <=? 2) && runs_bounded (S k) r
      | _ => runs_bounded 0 r
      end
  end.

(** No line feed of the text has a carriage return before it. *)
Fixpoint noCRLF (t : jsstring) : bool :=
  match t with
  | [] => true
  | c :: r =>
      negb (char_eqb c CR
            && match r with c2 :: _ => char_eqb c2 LF | [] => false end)
      && noCRLF r
  end.

(** The entries of a manifest that the combiner finds, skips, or
    cannot read. *)
Section Artifacts.
Context `{Yaml} `{Node}.

Definition missing (fs : filesystem) (e : entry) : bool :=
  match fs (Combine.mdAbs e) with None => true | _ => false end.

Definition present (fs : filesystem) (e : entry) : bool :=
  match fs (Combine.mdAbs e) with Some (File _) => true | _ => false end.

Definition rendered (fs : filesystem) (e : entry) : list jsstring :=
  match fs (Combine.mdAbs e) with
  | Some (File raw) => [Combine.renderPart e raw]
  | _ => []
  end.

(** A document of the corpus without the two line feeds before it and
    the one after it: from its BEGIN marker to its END marker. *)
Definition block (e : entry) (raw : jsstring) : jsstring :=
  let '(meta, body) := Combine.extractFrontMatterAndBody raw in
  lit "<!-- BEGIN Part_" ++ zeroPadPart (part e) ++ lit ": "
  ++ name e ++ lit " -->" ++ [LF]
  ++ lit "```yaml" ++ [LF]
  ++ YAML_stringify (JObj (Combine.metaBlock e meta))
  ++ lit "```" ++ [LF]
  ++ trimEnd body
  ++ [LF] ++ lit "<!-- END Part_" ++ zeroPadPart (part e) ++ lit " -->".

Definition blocks (fs : filesystem) (e : entry) : list jsstring :=
  match fs (Combine.mdAbs e) with
  | Some (File raw) => [block e raw]
  | _ => []
  end.

Definition readable (fs : filesystem) (e : entry) : Prop :=
  fs (Combine.mdAbs e) <> Some Unreadable.

(** The entries the corpus lists, in its order. *)
Definition listed (fs : filesystem) (entries : list entry) : list entry :=
  filter (present fs) (Combine.sort entries).

End Artifacts.

Definition by_part (a b : entry) : Prop := (part a <= part b)%N.

(** The markers around a document: the start of its BEGIN line, and its
    END line with the line feed before it. *)
Definition beginMarker (e : entry) : jsstring :=
  lit "<!-- BEGIN Part_" ++ zeroPadPart (part e) ++ lit ": ".

Definition endMarker (e : entry) : jsstring :=
  [LF] ++ lit "<!-- END Part_" ++ zeroPadPart (part e) ++ lit " -->".

(** The document of an entry as it stands in the text that is written:
    two line feeds, then its block as [normalizeSpacing] leaves it;
    nothing for an entry without a readable artifact. *)
Definition inCorpus `{Yaml} `{Node} (fs : filesystem) (e : entry)
  : list jsstring :=
  map (fun b => [LF; LF] ++ Combine.normalizeSpacing b) (blocks fs e).

(** The text of a corpus of these documents. *)
Definition corpusText (docs : list jsstring) : jsstring :=
  concat docs ++ match docs with [] => [LF] | _ => [LF; LF] end.

(** The BEGIN lines of a text. *)
Definition beginLines (text : jsstring) : list jsstring :=
  filter (fun l => str_eqb (firstn 16 l) (lit "<!-- BEGIN Part_"))
    (splitOn LF text).

(** A document as it is pushed: two line feeds, the block, a line
    feed. *)
Definition wrap (b : jsstring) : jsstring := [LF; LF] ++ b ++ [LF].

(** A text that goes from [<] to [>]. *)
Definition bracketed (b : jsstring) : Prop :=
  exists m, b = 60%N :: m ++ [62%N].

Definition no_newline_triple (s : jsstring) : Prop :=
  forall pre post, s <> pre ++ [LF; LF; LF] ++ post.

(** The number of line feeds at the end of a text. *)
Fixpoint leading_newlines (s : jsstring) : nat :=
  match s with
  | c :: r => if char_eqb c LF then S (leading_newlines r) else 0
  | [] => 0
  end.

Definition trailing_newlines (s : jsstring) : nat :=
  leading_newlines (rev s).

(** After [k] line feeds, no run of line feeds reaches three. *)
Fixpoint newlines_bounded (k : nat) (s : jsstring) : bool :=
  match s with
  | [] => true
  | c :: r =>
      if char_eqb c LF then (S k <=? 2) && newlines_bounded (S k) r
      else newlines_bounded 0 r
  end.

(** How the manifest downloader ends once it has its last response. *)
Definition settle `{Node} (e : entry) (res : response) (s : state)
  : state * outcome DownloadCAR.result :=
  let outPath := path_resolve [projectRoot; DownloadCAR.relOut e] in
  let tmpPath := outPath ++ lit ".tmp" in
  if DownloadCAR.rejected res then
    (s, Returned {| DownloadCAR.ok := false;
                    DownloadCAR.r_part := zeroPadPart (part e);
                    DownloadCAR.size := List.length (body res);
                    DownloadCAR.mime := mimeOf res;
                    DownloadCAR.outPath := outPath |})
  else
    (logged (EvRename tmpPath outPath) (logged (EvWriteFile tmpPath (body res)) s),
     Returned {| DownloadCAR.ok := true;
                 DownloadCAR.r_part := zeroPadPart (part e);
                 DownloadCAR.size := List.length (body res);
                 DownloadCAR.mime := mimeOf res;
                 DownloadCAR.outPath := outPath |}).

(** How the single-document downloader ends once it has its last
    response. *)
Definition settleCAA (outPath : jsstring) (res : response) (s : state)
  : state * outcome DownloadCAA.result :=
  let tmpPath := outPath ++ lit ".tmp" in
  if DownloadCAA.looksLikePdf (body res) then
    (logged (EvRename tmpPath outPath) (logged (EvWriteFile tmpPath (body res)) s),
     Returned {| DownloadCAA.outPath := outPath;
                 DownloadCAA.bytes := List.length (body res);
                 DownloadCAA.mime :=
                   if negb (str_eqb (mimeOf res) []) then mimeOf res
                   else lit "application/pdf" |})
  else (s, Threw UnexpectedResponse).

(** The three conditions of the specification on a response. *)
Definition declaredPdf (res : response) : Prop :=
  mimeOf res = lit "application/pdf".
Definition largeEnough (res : response) : Prop :=
  (10240 <= N.of_nat (List.length (body res)))%N.
Definition signedPdf (res : response) : Prop :=
  DownloadCAA.looksLikePdf (body res) = true.

(** A network on which every request is answered, and never by a
    redirection. *)
Definition answering (net : network) : Prop :=
  forall n u hs, exists res, net n u hs = Reply res /\ redirectTarget res = None.

(** What a log tells: the URLs requested, the waits, the reports
    written. *)
Definition requested (l : list event) : list jsstring :=
  flat_map (fun ev => match ev with EvRequest u _ => [u] | _ => [] end) l.

Definition waits (l : list event) : list N :=
  flat_map (fun ev => match ev with EvSleep ms => [ms] | _ => [] end) l.

Definition reports (l : list event) : list jsstring :=
  flat_map (fun ev => match ev with EvWriteReport p => [p] | _ => [] end) l.

(** A run of the manifest downloader that is decided by the response
    [res]: it returns a result that reports the size and the type of
    [res], and the result is [ok] exactly when [res] is declared as PDF
    and large enough. *)
Definition decidedBy (run : state * outcome DownloadCAR.result)
  (res : response) : Prop :=
  exists s' r,
    run = (s', Returned r)
    /\ DownloadCAR.size r = List.length (body res)
    /\ DownloadCAR.mime r = mimeOf res
    /\ (DownloadCAR.ok r = true <-> declaredPdf res /\ largeEnough res).

(** A run of the single-document downloader that is decided by the
    response [res], received in the state [s1]: it returns, reporting
    the size of [res], exactly when [res] has the PDF signature, and
    throws 'Unexpected response' otherwise. *)
Definition decidedByCAA (run : state * outcome DownloadCAA.result)
  (res : response) (s1 : state) : Prop :=
  ((exists s' r, run = (s', Returned r)
                 /\ DownloadCAA.bytes r = List.length (body res))
   <-> signedPdf res)
  /\ (~ signedPdf res -> run = (s1, Threw UnexpectedResponse)).

(* ================================================================== *)
(** ** Converter (convert script of the CAR parts) *)
(* ================================================================== *)

(** [pdfjs-dist]: the pages of a document in their order, each page the
    [str] fields of its text items.  [None] where loading throws. *)
Class Pdfjs := {
  PDF_pages : list byte -> option (list (list jsval))
}.

(** What is at the path of a PDF. *)
Inductive binnode :=
| BinFile (data : list byte)
| BinUnreadable.

Module Convert.

Definition buildFrontMatter (part name url : jsstring) (pages : N)
  (date : jsstring) : jsstring :=
  let title := lit "CAR Part " ++ part ++ lit " - " ++ name in
  join [LF]
    [ lit "---";
      lit "title: " ++ title;
      lit "source_url: " ++ url;
      lit "pages: " ++ String_of_N pages;
      lit "generated_at: " ++ date;
      lit "---";
      [] ].

(** [typeof it.str === 'string' ? it.str : ''] *)
Definition itemText (str : jsval) : jsstring :=
  match str with JStr s => s | _ => [] end.

(** [strings.join(' ') + '\n\n'] *)
Definition pageText (items : list jsval) : jsstring :=
  join (lit " ") (map itemText items) ++ [LF; LF].

(** The loop over the pages 1 to [numPages]: [text += ...]. *)
Fixpoint pagesText (pages : list (list jsval)) (text : jsstring) : jsstring :=
  match pages with
  | [] => text
  | p :: r => pagesText r (text ++ pageText p)
  end.

(** [Buffer.byteLength(s, 'utf8')]: a surrogate pair takes four bytes,
    a lone surrogate the three of U+FFFD. *)
Fixpoint byteLength (s : jsstring) : nat :=
  match s with
  | [] => 0
  | c :: r =>
      if (c <? 128)%N then 1 + byteLength r
      else if (c <? 2048)%N then 2 + byteLength r
      else if ((55296 <=? c) && (c <=? 56319))%N then
        match r with
        | d :: r' =>
            if ((56320 <=? d) && (d <=? 57343))%N then 4 + byteLength r'
            else 3 + byteLength r
        | [] => 3
        end
      else 3 + byteLength r
  end.

Record converted := {
  outFile : jsstring;
  pages : nat;
  bytes : nat;
  (** the text written to [outFile] *)
  written : jsstring
}.

(** The text of the artifact: [`${fm}# ${meta.name}\n\n${markdownBody}\n`]. *)
Definition artifact (fm name markdownBody : jsstring) : jsstring :=
  fm ++ lit "# " ++ name ++ [LF; LF] ++ markdownBody ++ [LF].

(** [None] where [convertOne] throws: the file cannot be read, or the
    document cannot be loaded.  [date] is [new Date().toISOString()].
    The text is written to [outFile]; a failure of [writeFileSync] is
    left out. *)
Definition convertOne `{Pdfjs} (pdf : binnode) (meta : entry)
  (outFile date : jsstring) : option converted :=
  match pdf with
  | BinUnreadable => None
  | BinFile data =>
      match PDF_pages data with
      | None => None
      | Some pdfPages =>
          let pages := List.length pdfPages in
          let text := pagesText pdfPages [] in
          let markdownBody := normalizeTextToMarkdown text in
          let fm := buildFrontMatter (zeroPadPart (part meta)) (name meta)
                      (url meta) (N.of_nat pages) date in
          let md := artifact fm (name meta) markdownBody in
          Some {| outFile := outFile; pages := pages;
                  bytes := byteLength md; written := md |}
      end
  end.

(** A [Map] with string keys: a key that is set again keeps its
    place. *)
Fixpoint mapSet {V} (k : jsstring) (v : V) (m : list (jsstring * V))
  : list (jsstring * V) :=
  match m with
  | [] => [(k, v)]
  | (k', v') :: r =>
      if str_eqb k k' then (k, v) :: r else (k', v') :: mapSet k v r
  end.

(** [new Map(pairs)] *)
Definition mapOf {V} (pairs : list (jsstring * V)) : list (jsstring * V) :=
  fold_left (fun m kv => mapSet (fst kv) (snd kv) m) pairs [].

(** [s.toLowerCase().endsWith('.pdf')]: the test reads the last four
    code units, and only the ASCII letters lowercase to [p], [d], [f]. *)
Definition endsWithPdf (s : jsstring) : bool :=
  match rev s with
  | f :: d :: p :: dot :: _ =>
      ((dot =? 46) && ((p =? 112) || (p =? 80))
       && ((d =? 100) || (d =? 68)) && ((f =? 102) || (f =? 70)))%N
  | _ => false
  end.

(** [if (relMd.toLowerCase().endsWith('.pdf'))
       relMd = relMd.slice(0, -4) + '.md'] *)
Definition mdExtension (relMd : jsstring) : jsstring :=
  if endsWithPdf relMd
  then firstn (List.length relMd - 4) relMd ++ lit ".md"
  else relMd.

Inductive result :=
| Missing (part pdfPath : jsstring)
| Failed (part : jsstring)
| Converted (part : jsstring) (r : converted).

Definition ok (r : result) : bool :=
  match r with Converted _ _ => true | _ => false end.

Definition nonBlank (o : option jsstring) : option jsstring :=
  match o with
  | Some p =>
      if negb (str_eqb p []) && negb (str_eqb (trim p) []) then Some p
      else None
  | None => None
  end.

Section Script.
Context `{Pdfjs} `{Node}.

Definition relPdf (part : jsstring) (meta : entry) : jsstring :=
  match nonBlank (pdf meta) with
  | Some p => p
  | None => path_join [lit "download"; lit "car";
                       lit "Part_" ++ part ++ lit "_Consolidation.pdf"]
  end.

Definition relMd (part : jsstring) (meta : entry) : jsstring :=
  mdExtension
    match nonBlank (md meta) with
    | Some p => p
    | None => path_join [lit "md"; lit "car"; lit "Part_" ++ part ++ lit ".md"]
    end.

(** One turn of the loop of [main]; [date] is the time of the
    conversion. *)
Definition step (fs : jsstring -> option binnode) (date : jsstring)
  (part : jsstring) (meta : entry) : result :=
  let pdfPath := path_resolve [projectRoot; relPdf part meta] in
  match fs pdfPath with
  | None => Missing part pdfPath
  | Some node =>
      let outFile := path_resolve [projectRoot; relMd part meta] in
      match convertOne node meta outFile date with
      | Some r => Converted part r
      | None => Failed part
      end
  end.

Fixpoint each (fs : jsstring -> option binnode) (clock : nat -> jsstring)
  (i : nat) (byPart : list (jsstring * entry)) (results : list result)
  : list result :=
  match byPart with
  | [] => results
  | (part, meta) :: rest =>
      each fs clock (S i) rest (results ++ [step fs (clock i) part meta])
  end.

Record summary := {
  results : list result;
  okCount : nat;
  failCount : nat
}.

(** The run of [main] on the parsed manifest; [clock i] is the time at
    the turn [i] of the loop. *)
Definition main (fs : jsstring -> option binnode) (clock : nat -> jsstring)
  (entries : list entry) : summary :=
  let byPart := mapOf (map (fun e => (zeroPadPart (part e), e)) entries) in
  let results := each fs clock 0 byPart [] in
  let ok := List.length (filter ok results) in
  {| results := results; okCount := ok;
     failCount := List.length results - ok |}.

End Script.
End Convert.

(** A stand-in for [pdfjs]: a payload with the PDF signature is a
    document of three pages, any other payload does not load. *)
Module SamplePdf.

Definition threePages : list (list jsval) :=
  [ [JStr (lit "Rule"); JStr (lit "1")];
    [JStr (lit "Rule"); JNull; JStr (lit "2")];
    [JStr (lit "Rule 3")] ].

Definition pdfjs : Pdfjs :=
  {| PDF_pages := fun data =>
       if DownloadCAA.looksLikePdf data then Some threePages else None |}.

(** Part 012 has a PDF, Part 087 a file that is no PDF, Part 100 none. *)
Definition pdfs : jsstring -> option binnode :=
  fun p =>
    if str_eqb p (lit "/repo/scripts/download/car/Part_012_Consolidation.pdf")
    then Some (BinFile (body Sample.tiny))
    else if str_eqb p (lit "/repo/scripts/download/car/Part_087_Consolidation.pdf")
    then Some (BinFile (body Sample.page))
    else None.

Definition clock (i : nat) : jsstring := lit "2025-08-09T00:32:43.019Z".

(** A server that answers every request with a redirection. *)
Definition moved : response :=
  {| statusCode := 302; content_type := None;
     set_cookie := Some [lit "hop=1"];
     location := Some (lit "https://www.aviation.govt.nz/next");
     body := [] |}.

(** A server that sets a cookie with its first answer only, and a
    session that holds a cookie already. *)
Definition greeting : response :=
  {| statusCode := 200; content_type := Sample.htmlType;
     set_cookie := Some [lit "token=t1; Path=/"];
     location := None; body := [x3c; x70; x3e] |}.

Definition silent : response :=
  {| statusCode := 200; content_type := Sample.htmlType;
     set_cookie := None; location := None; body := [x3c; x70; x3e] |}.

Definition portal : network :=
  fun n _ _ => if Nat.eqb n 0 then Reply greeting else Reply silent.

Definition session : state :=
  {| requests := 0; cookieJar := [(lit "sid", lit "abc")]; log := [] |}.

End SamplePdf.

(* ================================================================== *)
(** ** Converter of the Act (download and convert script) *)
(* ================================================================== *)

Module ConvertCAA.

Definition buildFrontMatter (title url : jsstring) (pages : N)
  (date : jsstring) : jsstring :=
  join [LF]
    [ lit "---";
      lit "title: " ++ title;
      lit "source_url: " ++ url;
      lit "pages: " ++ String_of_N pages;
      lit "generated_at: " ++ date;
      lit "---";
      [] ].

Record converted := {
  outPath : jsstring;
  pages : nat;
  bytes : nat;
  (** the text written to [outPath] *)
  written : jsstring
}.

(** [None] where [convertPdfToMarkdown] throws. *)
Definition convertPdfToMarkdown `{Pdfjs} (pdf : binnode)
  (outPath title url date : jsstring) : option converted :=
  match pdf with
  | BinUnreadable => None
  | BinFile data =>
      match PDF_pages data with
      | None => None
      | Some pdfPages =>
          let pages := List.length pdfPages in
          let text := Convert.pagesText pdfPages [] in
          let markdownBody := normalizeTextToMarkdown text in
          let fm := buildFrontMatter title url (N.of_nat pages) date in
          let md := Convert.artifact fm title markdownBody in
          Some {| outPath := outPath; pages := pages;
                  bytes := Convert.byteLength md; written := md |}
      end
  end.

End ConvertCAA.

(* ================================================================== *)
(** ** Manifest update (update script of the manifest) *)
(* ================================================================== *)

(** The items of the manifest are read as entries: [part], [name] and
    [url] are the keys kept by [...rest], and [pdf] and [md] are strings
    where they are set. *)
Module UpdateYaml.
Section Script.
Context `{Node}.

Definition update (item : entry) : entry :=
  let code := zeroPadPart (part item) in
  let pdf' :=
    match Convert.nonBlank (pdf item) with
    | Some p => p
    | None => path_join [lit "download"; lit "car";
                         lit "Part_" ++ code ++ lit "_Consolidation.pdf"]
    end in
  let md' :=
    Convert.mdExtension
      match Convert.nonBlank (md item) with
      | Some p => p
      | None => path_join [lit "md"; lit "car";
                           lit "Part_" ++ code ++ lit ".md"]
      end in
  {| part := part item; name := name item; url := url item;
     pdf := Some pdf'; md := Some md' |}.

Definition updated (items : list entry) : list entry := map update items.

End Script.
End UpdateYaml.

(** The names of the cookies of a jar. *)
Definition keys (j : jar) : list jsstring := map fst j.

(** The headers of a request made with the jar [j]: the headers of the
    script, and a [Cookie] header when the jar is not empty. *)
Definition headersWith (base : headers) (j : jar) : headers :=
  if negb (str_eqb (cookieHeader j) [])
  then base ++ [(lit "Cookie", cookieHeader j)] else base.

(** A request is made with a jar that holds the names of [j0] at
    least. *)
Definition carries (base : headers) (j0 : jar) (ev : event) : Prop :=
  match ev with
  | EvRequest _ hs =>
      exists j, incl (keys j0) (keys j) /\ hs = headersWith base j
  | _ => True
  end.

(** From the state [s] to the state [s']: no cookie name is lost, and
    the log has grown by effects whose requests carry the names of the
    jar of [s] at least. *)
Definition sharing (base : headers) (s s' : state) : Prop :=
  incl (keys (cookieJar s)) (keys (cookieJar s'))
  /\ exists new,
       log s' = log s ++ new /\ Forall (carries base (cookieJar s)) new.

(** The [Cookie] headers of the requests of a log, the empty text for a
    request without one. *)
Definition cookiesSent (l : list event) : list jsstring :=
  flat_map (fun ev =>
              match ev with
              | EvRequest _ hs =>
                  [match find (fun kv => str_eqb (fst kv) (lit "Cookie")) hs
                   with Some kv => snd kv | None => [] end]
              | _ => []
              end) l.

(** The effects on files of a log: what was written and renamed. *)
Definition fileEvents (l : list event) : list event :=
  filter (fun ev => match ev with
                    | EvWriteFile _ _ | EvRename _ _ => true
                    | _ => false
                    end) l.

(** A network that answers every request with a redirection. *)
Definition redirecting (net : network) : Prop :=
  forall n u hs, exists res l,
    net n u hs = Reply res /\ redirectTarget res = Some l.

(** The text before the first [sep] of a text. *)
Definition before (sep : char) (s : jsstring) : jsstring :=
  hd [] (splitOn sep s).

(** No line feed and no carriage return. *)
Definition plain (s : jsstring) : bool :=
  forallb (fun c => negb (char_eqb c LF) && negb (char_eqb c CR)) s.

(** Reading a decimal text back. *)
Fixpoint chars_uint (s : jsstring) : Decimal.uint :=
  match s with
  | [] => Decimal.Nil
  | c :: r =>
      let u := chars_uint r in
      if (c =? 48)%N then Decimal.D0 u else if (c =? 49)%N then Decimal.D1 u
      else if (c =? 50)%N then Decimal.D2 u else if (c =? 51)%N then Decimal.D3 u
      else if (c =? 52)%N then Decimal.D4 u else if (c =? 53)%N then Decimal.D5 u
      else if (c =? 54)%N then Decimal.D6 u else if (c =? 55)%N then Decimal.D7 u
      else if (c =? 56)%N then Decimal.D8 u else Decimal.D9 u
  end.

Definition parsePart (s : jsstring) : N := N.of_uint (chars_uint s).

(** [Number.isSafeInteger]: the numbers that [String] prints digit by
    digit. *)
Definition safeInteger (n : N) : Prop := (n <= 9007199254740991)%N.

Definition is_digit (c : char) : bool := ((48 <=? c) && (c <=? 57))%N.

(** The effects a download writes to the log besides its requests. *)
Definition quiet (ev : event) : Prop :=
  match ev with
  | EvMkdir _ | EvSleep _ | EvWriteFile _ _ | EvRename _ _ => True
  | _ => False
  end.

(** The part a result of the converter is about. *)
Definition resultPart (r : Convert.result) : jsstring :=
  match r with
  | Convert.Missing p _ | Convert.Failed p | Convert.Converted p _ => p
  end.

(** An entry whose PDF is where the converter looks for it, and
    loads. *)
Definition loads `{Pdfjs} `{Node} (fs : jsstring -> option binnode)
  (e : entry) : bool :=
  match fs (path_resolve
              [projectRoot; Convert.relPdf (zeroPadPart (part e)) e]) with
  | Some (BinFile data) =>
      match PDF_pages data with Some _ => true | None => false end
  | _ => false
  end.

(** The text of a page: [strings.join(' ')]. *)
Definition pageLine (items : list jsval) : jsstring :=
  join (lit " ") (map Convert.itemText items).

(** The metadata that the combiner reads in the text of a front-matter
    block. *)
Definition metadata `{Yaml} (yamlText : jsstring) : jsval :=
  match YAML_parse yamlText with
  | Some v => if truthy v then v else Combine.emptyObject
  | None => Combine.emptyObject
  end.

(** The characters of a list of lines, one more for each line. *)
Fixpoint weight (ls : list jsstring) : nat :=
  match ls with
  | [] => 0
  | l :: r => S (List.length l) + weight r
  end.

(** A line that is not blank. *)
Definition nonblankb (l : jsstring) : bool := negb (str_eqb (trimEnd l) []).

(* ================================================================== *)
(** * Properties *)
(* ================================================================== *)

(** ** Strings *)

Lemma str_eqb_eq (a b : jsstring) : str_eqb a b = true <-> a = b.
Proof.
  revert b; induction a as [|x a IH]; intros [|y b]; simpl; split;
    try congruence; try reflexivity.
  - intros E. apply andb_true_iff in E as [E1 E2].
    apply N.eqb_eq in E1. apply IH in E2. congruence.
  - intros E. injection E as -> ->. apply andb_true_iff. split.
    + apply N.eqb_refl.
    + now apply IH.
Qed.

Lemma str_eqb_refl (a : jsstring) : str_eqb a a = true.
Proof. now apply str_eqb_eq. Qed.

Lemma str_eqb_neq (a b : jsstring) : str_eqb a b = false <-> a <> b.
Proof.
  split.
  - intros E ->. rewrite str_eqb_refl in E. discriminate.
  - intros E. destruct (str_eqb a b) eqn:D; [|reflexivity].
    apply str_eqb_eq in D. contradiction.
Qed.

Lemma trimEnd_app_last (s : jsstring) (c : char) :
  trimEnd (s ++ [c]) = if is_space c then trimEnd s else s ++ [c].
Proof.
  induction s as [|x t IH]; simpl.
  - reflexivity.
  - rewrite IH. destruct (is_space c); [reflexivity|].
    destruct t; reflexivity.
Qed.

Lemma trimEnd_length (s : jsstring) : List.length (trimEnd s) <= List.length s.
Proof.
  induction s as [|c r IH]; simpl; [lia|].
  destruct (trimEnd r); simpl in *; [destruct (is_space c); simpl; lia | lia].
Qed.

Lemma trimEnd_idem (s : jsstring) : trimEnd (trimEnd s) = trimEnd s.
Proof.
  induction s as [|c r IH]; simpl; [reflexivity|].
  destruct (trimEnd r) as [|x t] eqn:E.
  - destruct (is_space c) eqn:S; simpl; [reflexivity | now rewrite S].
  - change (trimEnd (c :: x :: t)) with
      (match trimEnd (x :: t) with
       | [] => if is_space c then [] else [c]
       | r' => c :: r'
       end).
    now rewrite IH.
Qed.

Lemma trimEnd_tail (c : char) (r : jsstring) :
  trimEnd (c :: r) = c :: r -> trimEnd r = r.
Proof.
  simpl. destruct (trimEnd r) as [|x t] eqn:E.
  - destruct (is_space c); intros E'; [discriminate|].
    now injection E' as <-.
  - intros E'. now injection E' as <-.
Qed.

(** A fixed point of [trimEnd] does not end in white space. *)
Lemma trimEnd_fixed_last (s s' : jsstring) (c : char) :
  trimEnd s = s -> s = s' ++ [c] -> is_space c = false.
Proof.
  intros E ->. rewrite trimEnd_app_last in E.
  destruct (is_space c); [|reflexivity].
  pose proof (trimEnd_length s') as L. rewrite E in L.
  rewrite length_app in L. simpl in L. lia.
Qed.

Lemma trimEnd_prefix (s : jsstring) : exists t, s = trimEnd s ++ t.
Proof.
  induction s as [|c r [t IH]]; simpl.
  - now exists [].
  - destruct (trimEnd r) as [|x u].
    + destruct (is_space c).
      * now exists (c :: r).
      * exists r. reflexivity.
    + exists t. simpl in *. now rewrite <- IH.
Qed.

(** ** Lines *)

Lemma splitLines_cons (c : char) (rest : jsstring) :
  splitLines (c :: rest) =
  if char_eqb c LF then [] :: splitLines rest
  else if char_eqb c CR
          && match rest with c2 :: _ => char_eqb c2 LF | [] => false end
       then splitLines rest
       else cons_head c (splitLines rest).
Proof.
  simpl. destruct (char_eqb c LF); [reflexivity|].
  destruct rest as [|c2 rest']; [now rewrite andb_false_r|].
  destruct (char_eqb c CR && char_eqb c2 LF) eqn:E; [|reflexivity].
  apply andb_true_iff in E as [_ E]. simpl. now rewrite E.
Qed.

Lemma splitLines_nonempty (s : jsstring) : splitLines s <> [].
Proof.
  induction s as [|c r IH]; [discriminate|].
  rewrite splitLines_cons.
  destruct (char_eqb c LF); [discriminate|].
  destruct (_ && _); [assumption|].
  destruct (splitLines r); discriminate.
Qed.

Lemma splitLines_noLF (s : jsstring) :
  Forall (fun l => noLF l = true) (splitLines s).
Proof.
  induction s as [|c r IH]; [repeat constructor|].
  rewrite splitLines_cons.
  destruct (char_eqb c LF) eqn:E; [constructor; [reflexivity | assumption]|].
  destruct (_ && _); [assumption|].
  destruct (splitLines r) as [|l ls]; simpl.
  - constructor; [|constructor]. simpl. now rewrite E.
  - inversion IH; subst. constructor; [|assumption].
    simpl. now rewrite E.
Qed.

Lemma splitLines_single (l : jsstring) :
  noLF l = true -> splitLines l = [l].
Proof.
  induction l as [|c r IH]; [reflexivity|].
  intros N. simpl in N. apply andb_true_iff in N as [N1 N2].
  rewrite splitLines_cons. apply negb_true_iff in N1. rewrite N1.
  destruct r as [|c2 r'].
  - now rewrite andb_false_r.
  - assert (char_eqb c2 LF = false) as ->.
    { simpl in N2. apply andb_true_iff in N2 as [N2 _].
      now apply negb_true_iff in N2. }
    rewrite andb_false_r, (IH N2). reflexivity.
Qed.

Lemma splitLines_app_LF (l s : jsstring) :
  clean l -> splitLines (l ++ LF :: s) = l :: splitLines s.
Proof.
  induction l as [|c r IH]; intros [N T].
  - reflexivity.
  - simpl in N. apply andb_true_iff in N as [N1 N2].
    apply negb_true_iff in N1.
    change ((c :: r) ++ LF :: s) with (c :: (r ++ LF :: s)).
    rewrite splitLines_cons, N1.
    assert (char_eqb c CR
            && match r ++ LF :: s with
               | c2 :: _ => char_eqb c2 LF
               | [] => false
               end = false) as ->.
    { destruct r as [|c2 r']; simpl.
      - rewrite andb_true_r.
        assert (is_space c = false) as Sp
            by (apply (trimEnd_fixed_last [c] [] c T eq_refl)).
        destruct (char_eqb c CR) eqn:E; [|reflexivity].
        apply N.eqb_eq in E. subst c. discriminate.
      - simpl in N2. apply andb_true_iff in N2 as [N2 _].
        apply negb_true_iff in N2. rewrite N2. apply andb_false_r. }
    rewrite IH; [reflexivity|].
    split; [assumption | now apply trimEnd_tail with c].
Qed.

(** Joining clean lines and splitting again gives the lines back. *)
Lemma splitLines_join (ls : list jsstring) :
  ls <> [] -> Forall clean ls -> splitLines (join [LF] ls) = ls.
Proof.
  induction ls as [|x r IH]; [congruence|].
  intros _ F. inversion F as [|? ? Cx Fr]; subst.
  destruct r as [|y r'].
  - simpl. apply splitLines_single, Cx.
  - change (join [LF] (x :: y :: r')) with (x ++ LF :: join [LF] (y :: r')).
    rewrite (splitLines_app_LF _ _ Cx), IH; [reflexivity | discriminate | assumption].
Qed.

Lemma noLF_trimEnd (l : jsstring) : noLF l = true -> noLF (trimEnd l) = true.
Proof.
  intros N. destruct (trimEnd_prefix l) as [t E].
  unfold noLF in *. rewrite E, forallb_app in N.
  now apply andb_true_iff in N as [N _].
Qed.

(** ** The normaliser *)

Lemma compactLines_cons (k : nat) (l : jsstring) (r : list jsstring) :
  compactLines k (l :: r) =
  match trimEnd l with
  | [] => if S k <=? 2 then [] :: compactLines (S k) r
          else compactLines (S k) r
  | u => u :: compactLines 0 r
  end.
Proof.
  change (compactLines k (l :: r)) with
    (match trimEnd l with
     | [] => if S k <=? 2 then [] :: compactLines (S k) r
             else compactLines (S k) r
     | _ => trimEnd l :: compactLines 0 r
     end).
  destruct (trimEnd l); reflexivity.
Qed.

Lemma compactLines_clean (k : nat) (ls : list jsstring) :
  Forall (fun l => noLF l = true) ls -> Forall clean (compactLines k ls).
Proof.
  revert k; induction ls as [|l r IH]; intros k F; [constructor|].
  rewrite compactLines_cons.
  inversion F as [|? ? Nl Fr]; subst.
  destruct (trimEnd l) as [|x t] eqn:E.
  - destruct (S k <=? 2).
    + constructor; [now split | now apply IH].
    + now apply IH.
  - constructor; [|now apply IH].
    rewrite <- E. split; [now apply noLF_trimEnd | apply trimEnd_idem].
Qed.

Lemma compactLines_nonempty (ls : list jsstring) :
  ls <> [] -> compactLines 0 ls <> [].
Proof.
  destruct ls as [|l r]; [congruence|]. intros _. simpl.
  destruct (trimEnd l); discriminate.
Qed.

Lemma compactLines_saturated (k k' : nat) (ls : list jsstring) :
  2 <= k -> 2 <= k' -> compactLines k ls = compactLines k' ls.
Proof.
  revert k k'; induction ls as [|l r IH]; intros k k' K K';
    [reflexivity|].
  rewrite !compactLines_cons.
  destruct (trimEnd l); [|reflexivity].
  destruct (Nat.leb_spec (S k) 2); [lia|].
  destruct (Nat.leb_spec (S k') 2); [lia|].
  apply IH; lia.
Qed.

Lemma compactLines_idem (k : nat) (ls : list jsstring) :
  compactLines k (compactLines k ls) = compactLines k ls.
Proof.
  revert k; induction ls as [|l r IH]; intros k; [reflexivity|].
  rewrite compactLines_cons.
  destruct (trimEnd l) as [|x t] eqn:E.
  - destruct (Nat.leb_spec (S k) 2) as [L|L].
    + rewrite compactLines_cons. simpl trimEnd.
      destruct (Nat.leb_spec (S k) 2); [|lia]. now rewrite IH.
    + rewrite (compactLines_saturated k (S k)) by lia.
      apply IH.
  - rewrite compactLines_cons, <- E, trimEnd_idem, E, IH. reflexivity.
Qed.

(** The lines of a normalised text are the lines the loop collected. *)
Lemma normalize_lines (t : jsstring) :
  splitLines (normalizeTextToMarkdown t) = compactLines 0 (splitLines t).
Proof.
  unfold normalizeTextToMarkdown. apply splitLines_join.
  - apply compactLines_nonempty, splitLines_nonempty.
  - apply compactLines_clean, splitLines_noLF.
Qed.

(** C4: the markdown normaliser is idempotent: normalising its own
    output returns that output unchanged. *)
Theorem normalize_idempotent (t : jsstring) :
  normalizeTextToMarkdown (normalizeTextToMarkdown t)
  = normalizeTextToMarkdown t.
Proof.
  unfold normalizeTextToMarkdown at 1.
  rewrite normalize_lines, compactLines_idem. reflexivity.
Qed.

(** *** Runs of blank lines *)

Lemma runs_bounded_cons (k : nat) (l : jsstring) (r : list jsstring) :
  runs_bounded k (l :: r) =
  match trimEnd l with
  | [] => (S k <=? 2) && runs_bounded (S k) r
  | _ => runs_bounded 0 r
  end.
Proof. reflexivity. Qed.

Lemma runs_bounded_mono (k k' : nat) (ls : list jsstring) :
  k <= k' -> runs_bounded k' ls = true -> runs_bounded k ls = true.
Proof.
  revert k k'; induction ls as [|l r IH]; intros k k' K; [reflexivity|].
  rewrite !runs_bounded_cons. destruct (trimEnd l); [|trivial].
  intros B. apply andb_true_iff in B as [B1 B2].
  apply Nat.leb_le in B1. apply andb_true_iff. split.
  - apply Nat.leb_le. lia.
  - apply IH with (S k'); [lia | assumption].
Qed.

Lemma compactLines_bounded (k : nat) (ls : list jsstring) :
  runs_bounded k (compactLines k ls) = true.
Proof.
  revert k; induction ls as [|l r IH]; intros k; [reflexivity|].
  rewrite compactLines_cons. destruct (trimEnd l) as [|x t] eqn:E.
  - destruct (S k <=? 2) eqn:L.
    + rewrite runs_bounded_cons. simpl trimEnd. now rewrite L, IH.
    + apply runs_bounded_mono with (S k); [lia | apply IH].
  - rewrite runs_bounded_cons, <- E, trimEnd_idem, E. apply IH.
Qed.

Lemma runs_bounded_no_triple (k : nat) (ls : list jsstring) :
  runs_bounded k ls = true -> no_blank_triple ls.
Proof.
  intros B pre a b c post ->. revert k B.
  induction pre as [|p pre IH]; intros k B [Ba [Bb Bc]].
  - change ([] ++ a :: b :: c :: post) with (a :: b :: c :: post) in B.
    rewrite !runs_bounded_cons in B.
    unfold blank in *. rewrite Ba, Bb, Bc in B.
    repeat (apply andb_true_iff in B as [? B]).
    repeat match goal with H : (_ <=? _) = true |- _ =>
      apply Nat.leb_le in H end.
    lia.
  - change ((p :: pre) ++ a :: b :: c :: post)
      with (p :: (pre ++ a :: b :: c :: post)) in B.
    rewrite runs_bounded_cons in B. destruct (trimEnd p).
    + apply andb_true_iff in B as [_ B]. now apply (IH (S k)).
    + now apply (IH 0).
Qed.

Lemma no_triple_bounded (bs ls : list jsstring) :
  Forall blank bs -> List.length bs <= 2 -> no_blank_triple (bs ++ ls) ->
  runs_bounded (List.length bs) ls = true.
Proof.
  revert bs; induction ls as [|l r IH]; intros bs Fb Lb NT; [reflexivity|].
  rewrite runs_bounded_cons. destruct (trimEnd l) as [|x t] eqn:E.
  - assert (List.length bs <= 1) as L1.
    { destruct bs as [|b1 [|b2 [|b3 bs']]]; simpl in *; try lia.
      exfalso. apply (NT [] b1 b2 l r eq_refl).
      inversion Fb as [|? ? F1 Fb']; subst.
      inversion Fb' as [|? ? F2 _]; subst. now repeat split. }
    apply andb_true_iff. split; [apply Nat.leb_le; lia|].
    replace (S (List.length bs)) with (List.length (bs ++ [l]))
      by (rewrite length_app; simpl; lia).
    apply IH.
    + apply Forall_app. split; [assumption | now repeat constructor].
    + rewrite length_app; simpl; lia.
    + replace ((bs ++ [l]) ++ r) with (bs ++ l :: r); [assumption|].
      now rewrite <- app_assoc.
  - apply (IH []); [constructor | simpl; lia |].
    intros pre a b c post Eq. apply (NT (bs ++ l :: pre) a b c post).
    simpl in Eq. rewrite Eq, <- app_assoc. reflexivity.
Qed.

Lemma compactLines_fixed (k : nat) (ls : list jsstring) :
  Forall (fun l => trimEnd l = l) ls -> runs_bounded k ls = true ->
  compactLines k ls = ls.
Proof.
  revert k; induction ls as [|l r IH]; intros k F B; [reflexivity|].
  inversion F as [|? ? Tl Fr]; subst.
  rewrite compactLines_cons. rewrite runs_bounded_cons in B.
  destruct (trimEnd l) as [|x t] eqn:E.
  - apply andb_true_iff in B as [B1 B2]. rewrite B1, <- Tl.
    now rewrite (IH _ Fr B2).
  - now rewrite Tl, (IH _ Fr B).
Qed.

Lemma compactLines_app_nonblank (k : nat) (pre rest : list jsstring)
  (a : jsstring) :
  ~ blank a ->
  compactLines k (pre ++ a :: rest)
  = compactLines k pre ++ trimEnd a :: compactLines 0 rest.
Proof.
  intros Na. revert k; induction pre as [|p pre IH]; intros k.
  - simpl app. rewrite compactLines_cons.
    destruct (trimEnd a) eqn:E; [contradiction | reflexivity].
  - change ((p :: pre) ++ a :: rest) with (p :: (pre ++ a :: rest)).
    rewrite !compactLines_cons. destruct (trimEnd p).
    + destruct (S k <=? 2); now rewrite IH.
    + now rewrite IH.
Qed.

Lemma compactLines_blank_run (k : nat) (bs rest : list jsstring) :
  Forall blank bs ->
  compactLines k (bs ++ rest)
  = repeat [] (Nat.min (List.length bs) (2 - k)) ++ compactLines (k + List.length bs) rest.
Proof.
  revert k; induction bs as [|b bs IH]; intros k F.
  - simpl. now rewrite Nat.add_0_r.
  - inversion F as [|? ? Bb Fb]; subst.
    change ((b :: bs) ++ rest) with (b :: (bs ++ rest)).
    rewrite compactLines_cons, Bb, (IH (S k) Fb).
    replace (k + List.length (b :: bs)) with (S k + List.length bs)
      by (simpl; lia).
    destruct (Nat.leb_spec (S k) 2) as [L|L].
    + replace (2 - k) with (S (2 - S k)) by lia. reflexivity.
    + replace (2 - S k) with 0 by lia. replace (2 - k) with 0 by lia.
      now rewrite !Nat.min_0_r.
Qed.

Lemma join_cons_head (c : char) (ls : list jsstring) :
  ls <> [] -> join [LF] (cons_head c ls) = c :: join [LF] ls.
Proof.
  destruct ls as [|l [|l2 r]]; [congruence | reflexivity | reflexivity].
Qed.

(** A text with no CR LF pair is its lines joined by LF. *)
Lemma join_splitLines (t : jsstring) :
  noCRLF t = true -> join [LF] (splitLines t) = t.
Proof.
  induction t as [|c r IH]; [reflexivity|].
  intros N. simpl in N. apply andb_true_iff in N as [N1 N2].
  apply negb_true_iff in N1.
  rewrite splitLines_cons, N1.
  destruct (char_eqb c LF) eqn:E.
  - apply N.eqb_eq in E. subst c.
    pose proof (splitLines_nonempty r) as NE.
    destruct (splitLines r) as [|l ls] eqn:S; [congruence|].
    change (join [LF] ([] :: l :: ls)) with (LF :: join [LF] (l :: ls)).
    now rewrite (IH N2).
  - rewrite join_cons_head by apply splitLines_nonempty.
    now rewrite (IH N2).
Qed.

(** C5: the lines of a normalised text have no run of three blank lines
    and no white space at their end; a run of blank lines between two
    non-blank lines comes out as that many empty lines, two at most (a
    run of five as two); a text whose lines have no trailing white space
    and no run of three blank lines keeps its lines, and is unchanged
    when its line ends are plain line feeds. *)
Theorem normalize_blank_lines (t : jsstring) :
  let out := splitLines (normalizeTextToMarkdown t) in
  no_blank_triple out
  /\ no_trailing_space out
  /\ (forall pre a bs b post,
        splitLines t = pre ++ a :: bs ++ b :: post ->
        ~ blank a -> Forall blank bs -> ~ blank b ->
        out = compactLines 0 pre ++ trimEnd a
              :: repeat [] (Nat.min (List.length bs) 2)
              ++ trimEnd b :: compactLines 0 post)
  /\ (Forall (fun l => trimEnd l = l) (splitLines t) ->
      no_blank_triple (splitLines t) ->
      out = splitLines t
      /\ normalizeTextToMarkdown t = join [LF] (splitLines t)
      /\ (noCRLF t = true -> normalizeTextToMarkdown t = t)).
Proof.
  intros out. unfold out. rewrite normalize_lines.
  split; [|split; [|split]].
  - apply runs_bounded_no_triple with 0, compactLines_bounded.
  - intros l l' c I E.
    pose proof (compactLines_clean 0 _ (splitLines_noLF t)) as F.
    rewrite Forall_forall in F. destruct (F l I) as [_ T].
    exact (trimEnd_fixed_last _ _ _ T E).
  - intros pre a bs b post E Na Fb Nb. rewrite E.
    rewrite (compactLines_app_nonblank 0 pre _ _ Na).
    rewrite (compactLines_blank_run 0 _ _ Fb).
    change (b :: post) with ([] ++ b :: post).
    rewrite (compactLines_app_nonblank _ [] post _ Nb).
    reflexivity.
  - intros T NT.
    assert (compactLines 0 (splitLines t) = splitLines t) as Fix.
    { apply compactLines_fixed; [assumption|].
      apply (no_triple_bounded []); [constructor | simpl; lia | exact NT]. }
    split; [assumption|]. unfold normalizeTextToMarkdown. rewrite Fix.
    split; [reflexivity | apply join_splitLines].
Qed.

(** The text [a  ], five empty lines, [b]; and the text [a], one empty
    line, [b], which is normalised already. *)
Lemma normalize_blank_lines_witness :
  let t := lit "a  " ++ repeat LF 6 ++ lit "b" in
  let u := lit "a" ++ [LF; LF] ++ lit "b" in
  splitLines t = [] ++ lit "a  " :: repeat [] 5 ++ lit "b" :: []
  /\ ~ blank (lit "a  ") /\ Forall blank (repeat [] 5) /\ ~ blank (lit "b")
  /\ splitLines (normalizeTextToMarkdown t) = [lit "a"; []; []; lit "b"]
  /\ Forall (fun l => trimEnd l = l) (splitLines u)
  /\ no_blank_triple (splitLines u)
  /\ noCRLF u = true
  /\ normalizeTextToMarkdown u = u.
Proof.
  intros t u.
  assert (splitLines t = [] ++ lit "a  " :: repeat [] 5 ++ lit "b" :: [])
    as E by reflexivity.
  assert (~ blank (lit "a  ")) as Na by discriminate.
  assert (Forall blank (repeat [] 5)) as Fb by (repeat constructor).
  assert (~ blank (lit "b")) as Nb by discriminate.
  assert (Forall (fun l => trimEnd l = l) (splitLines u)) as Tu
      by (repeat constructor).
  assert (no_blank_triple (splitLines u)) as NTu
      by (apply (runs_bounded_no_triple 0); reflexivity).
  assert (noCRLF u = true) as Cu by reflexivity.
  split; [exact E|]. split; [exact Na|].
  split; [exact Fb|]. split; [exact Nb|].
  destruct (normalize_blank_lines t) as [_ [_ [Run _]]].
  split; [exact (Run [] (lit "a  ") (repeat [] 5) (lit "b") [] E Na Fb Nb)|].
  split; [exact Tu|]. split; [exact NTu|]. split; [exact Cu|].
  destruct (normalize_blank_lines u) as [_ [_ [_ Kept]]].
  destruct (Kept Tu NTu) as [_ [_ Same]]. exact (Same Cu).
Defined.

(** ** Front matter *)

Section FrontMatter.
Context `{Yaml}.
Import Combine.

Lemma scan_none (i : nat) (ls : list jsstring) :
  Forall (fun l => is_delimiter l = false) ls ->
  scan i ls = i + List.length ls.
Proof.
  revert i; induction ls as [|l r IH]; intros i F; simpl; [lia|].
  inversion F as [|? ? Nl Fr]; subst. rewrite Nl, (IH _ Fr). lia.
Qed.

Lemma scan_first (i : nat) (blk after : list jsstring) (closing : jsstring) :
  Forall (fun l => is_delimiter l = false) blk ->
  is_delimiter closing = true ->
  scan i (blk ++ closing :: after) = i + List.length blk.
Proof.
  revert i; induction blk as [|l r IH]; intros i F C; simpl.
  - rewrite C. lia.
  - inversion F as [|? ? Nl Fr]; subst. rewrite Nl, (IH _ Fr C). lia.
Qed.

(** A front-matter block that is closed. *)
Lemma extract_closed (mdText opening closing : jsstring)
  (blk after : list jsstring) :
  splitLines mdText = opening :: blk ++ closing :: after ->
  is_delimiter opening = true ->
  Forall (fun l => is_delimiter l = false) blk ->
  is_delimiter closing = true ->
  extractFrontMatterAndBody mdText
  = (metadata (join [LF] blk), join [LF] after).
Proof.
  intros E Op F C. unfold extractFrontMatterAndBody, metadata.
  rewrite E. cbn [hd]. rewrite Op. simpl negb. cbv iota.
  cbn [skipn]. rewrite (scan_first 1 blk after closing F C).
  assert ((List.length (opening :: blk ++ closing :: after)
           <=? 1 + List.length blk) = false) as ->.
  { apply Nat.leb_gt. simpl. rewrite length_app. simpl. lia. }
  assert (slice 1 (1 + List.length blk) (opening :: blk ++ closing :: after)
          = blk) as ->.
  { unfold slice. cbn [skipn].
    replace (1 + List.length blk - 1) with (List.length blk + 0) by lia.
    rewrite firstn_app_2. simpl. apply app_nil_r. }
  assert (skipn (1 + List.length blk + 1) (opening :: blk ++ closing :: after)
          = after) as ->.
  { replace (1 + List.length blk + 1) with (S (List.length blk + 1)) by lia.
    cbn [skipn]. rewrite skipn_app, skipn_all2 by lia.
    replace (List.length blk + 1 - List.length blk) with 1 by lia.
    reflexivity. }
  reflexivity.
Qed.

(** C10: front-matter extraction never raises and loses no text outside
    a closed front-matter block.  When the first line is not the
    delimiter (a line that is [---] once trimmed), or no later line is,
    the result is empty metadata and the whole text as body.  When the
    block is closed and its YAML does not parse, the result is empty
    metadata and, as body, the lines after the closing delimiter joined
    by line feeds; when it parses, the metadata is the parsed value (the
    empty object for a falsy one) with the same body. *)
Theorem extractFrontMatterAndBody_total (mdText : jsstring) :
  let lines := splitLines mdText in
  (is_delimiter (hd [] lines) = false ->
   extractFrontMatterAndBody mdText = (emptyObject, mdText))
  /\ (Forall (fun l => is_delimiter l = false) (skipn 1 lines) ->
      extractFrontMatterAndBody mdText = (emptyObject, mdText))
  /\ (forall opening blk closing after,
        lines = opening :: blk ++ closing :: after ->
        is_delimiter opening = true ->
        Forall (fun l => is_delimiter l = false) blk ->
        is_delimiter closing = true ->
        (YAML_parse (join [LF] blk) = None ->
         extractFrontMatterAndBody mdText = (emptyObject, join [LF] after))
        /\ (forall v, YAML_parse (join [LF] blk) = Some v ->
            extractFrontMatterAndBody mdText
            = (if truthy v then v else emptyObject, join [LF] after))).
Proof.
  intros lines. unfold extractFrontMatterAndBody. fold lines.
  split; [|split].
  - intros D. now rewrite D.
  - intros F. destruct (is_delimiter (hd [] lines)); [|reflexivity].
    simpl negb. cbv iota.
    rewrite (scan_none 1 _ F).
    assert (List.length lines <= 1 + List.length (skipn 1 lines)) as L.
    { destruct lines; simpl; lia. }
    apply Nat.leb_le in L. now rewrite L.
  - intros opening blk closing after E Op F C.
    assert (scan 1 (skipn 1 lines) = 1 + List.length blk) as Sc.
    { rewrite E. simpl skipn. apply scan_first; assumption. }
    assert ((List.length lines <=? 1 + List.length blk) = false) as Ln.
    { apply Nat.leb_gt. rewrite E. simpl. rewrite length_app. simpl. lia. }
    assert (slice 1 (1 + List.length blk) lines = blk) as Sl.
    { unfold slice. rewrite E. simpl skipn.
      replace (1 + List.length blk - 1) with (List.length blk + 0) by lia.
      rewrite firstn_app_2. simpl. apply app_nil_r. }
    assert (skipn (1 + List.length blk + 1) lines = after) as Sk.
    { rewrite E. replace (1 + List.length blk + 1)
        with (S (List.length blk + 1)) by lia.
      simpl skipn. rewrite skipn_app.
      rewrite skipn_all2 by lia.
      replace (List.length blk + 1 - List.length blk) with 1 by lia.
      reflexivity. }
    assert (is_delimiter (hd [] lines) = true) as Hd
        by (rewrite E; exact Op).
    rewrite Hd, Sc, Ln, Sl, Sk. simpl negb. cbv iota.
    split.
    + intros P. now rewrite P.
    + intros v P. now rewrite P.
Qed.

End FrontMatter.

(** A closed block that is no YAML mapping, before one line of body; a
    text with no delimiter; a block that is never closed. *)
Lemma extractFrontMatterAndBody_total_witness :
  let extract := @Combine.extractFrontMatterAndBody Sample.yaml in
  let mdText := join [LF] [lit "---"; lit "pages 5"; lit " --- "; lit "Rule 1"] in
  let plain := join [LF] [lit "# Rule 1"; lit "---"] in
  let open := join [LF] [lit "---"; lit "pages: 5"; lit "Rule 1"] in
  splitLines mdText = lit "---" :: [lit "pages 5"] ++ lit " --- " :: [lit "Rule 1"]
  /\ Combine.is_delimiter (lit "---") = true
  /\ Forall (fun l => Combine.is_delimiter l = false) [lit "pages 5"]
  /\ Combine.is_delimiter (lit " --- ") = true
  /\ Sample.parse (join [LF] [lit "pages 5"]) = None
  /\ extract mdText = (Combine.emptyObject, lit "Rule 1")
  /\ Combine.is_delimiter (hd [] (splitLines plain)) = false
  /\ extract plain = (Combine.emptyObject, plain)
  /\ Forall (fun l => Combine.is_delimiter l = false)
       (skipn 1 (splitLines open))
  /\ extract open = (Combine.emptyObject, open).
Proof.
  intros extract mdText plain open.
  assert (splitLines mdText
          = lit "---" :: [lit "pages 5"] ++ lit " --- " :: [lit "Rule 1"])
    as E by reflexivity.
  assert (Combine.is_delimiter (lit "---") = true) as Op by reflexivity.
  assert (Forall (fun l => Combine.is_delimiter l = false) [lit "pages 5"])
    as F by (repeat constructor).
  assert (Combine.is_delimiter (lit " --- ") = true) as C by reflexivity.
  assert (Sample.parse (join [LF] [lit "pages 5"]) = None) as P
    by reflexivity.
  assert (Combine.is_delimiter (hd [] (splitLines plain)) = false) as Np
    by reflexivity.
  assert (Forall (fun l => Combine.is_delimiter l = false)
            (skipn 1 (splitLines open))) as Fo by (repeat constructor).
  split; [exact E|]. split; [exact Op|]. split; [exact F|].
  split; [exact C|]. split; [exact P|].
  destruct (@extractFrontMatterAndBody_total Sample.yaml mdText)
    as [_ [_ Closed]].
  destruct (Closed _ _ _ _ E Op F C) as [Malformed _].
  split; [exact (Malformed P)|]. split; [exact Np|].
  destruct (@extractFrontMatterAndBody_total Sample.yaml plain)
    as [NoOpening _].
  split; [exact (NoOpening Np)|]. split; [exact Fo|].
  destruct (@extractFrontMatterAndBody_total Sample.yaml open)
    as [_ [NeverClosed _]].
  exact (NeverClosed Fo).
Defined.

(** ** Sorting the manifest *)

Section Sorting.
Import Combine.

Lemma comparator_le (a b : entry) :
  (comparator a b <=? 0)%Z = (part a <=? part b)%N.
Proof.
  unfold comparator.
  destruct (N.leb_spec (part a) (part b));
    [apply Z.leb_le | apply Z.leb_gt]; lia.
Qed.

Lemma insert_perm (x : entry) (l : list entry) :
  Permutation (insert x l) (x :: l).
Proof.
  induction l as [|y r IH]; simpl; [reflexivity|].
  destruct (comparator x y <=? 0)%Z; [reflexivity|].
  rewrite IH. apply perm_swap.
Qed.

Lemma sort_perm (l : list entry) : Permutation (sort l) l.
Proof.
  induction l as [|x r IH]; simpl; [reflexivity|].
  rewrite insert_perm. now constructor.
Qed.

Lemma insert_sorted (x : entry) (l : list entry) :
  StronglySorted by_part l -> StronglySorted by_part (insert x l).
Proof.
  induction l as [|y r IH]; intros S; simpl.
  - repeat constructor.
  - inversion S as [|? ? Sr Fy]; subst.
    rewrite comparator_le. destruct (N.leb_spec (part x) (part y)) as [L|L].
    + constructor; [assumption|]. constructor; [exact L|].
      eapply Forall_impl; [|exact Fy]. unfold by_part. intros; lia.
    + constructor; [now apply IH|].
      apply (Permutation_Forall (Permutation_sym (insert_perm x r))).
      constructor; [unfold by_part; lia | assumption].
Qed.

Lemma sort_sorted (l : list entry) : StronglySorted by_part (sort l).
Proof.
  induction l as [|x r IH]; simpl; [constructor | now apply insert_sorted].
Qed.

Lemma insert_head (x : entry) (l : list entry) :
  Forall (by_part x) l -> insert x l = x :: l.
Proof.
  destruct l as [|y r]; [reflexivity|]. intros F. simpl.
  inversion F as [|? ? L _]; subst. rewrite comparator_le.
  apply N.leb_le in L. now rewrite L.
Qed.

Lemma insert_cons (x y : entry) (r : list entry) :
  insert x (y :: r)
  = if (part x <=? part y)%N then x :: y :: r else y :: insert x r.
Proof. simpl. now rewrite comparator_le. Qed.

Lemma filter_insert (p : entry -> bool) (x : entry) (l : list entry) :
  StronglySorted by_part l ->
  filter p (insert x l)
  = if p x then insert x (filter p l) else filter p l.
Proof.
  induction l as [|y r IH]; intros S.
  - simpl. destruct (p x); reflexivity.
  - inversion S as [|? ? Sr Fy]; subst.
    rewrite (insert_cons x y r).
    destruct (N.leb_spec (part x) (part y)) as [L|L].
    + change (filter p (x :: y :: r))
        with (if p x then x :: filter p (y :: r) else filter p (y :: r)).
      destruct (p x); [|reflexivity].
      rewrite insert_head; [reflexivity|].
      apply incl_Forall with (y :: r).
      * apply incl_filter.
      * constructor; [exact L|].
        eapply Forall_impl; [|exact Fy]. unfold by_part. intros; lia.
    + simpl filter. rewrite (IH Sr). destruct (p x), (p y);
        rewrite ?insert_cons;
        try (destruct (N.leb_spec (part x) (part y)); [lia|]);
        reflexivity.
Qed.

(** Sorting the kept entries is keeping the sorted ones: the sort is
    stable. *)
Lemma filter_sort (p : entry -> bool) (l : list entry) :
  filter p (sort l) = sort (filter p l).
Proof.
  induction l as [|x r IH]; [reflexivity|].
  simpl sort. rewrite filter_insert by apply sort_sorted.
  simpl filter. rewrite IH. destruct (p x); reflexivity.
Qed.

Lemma StronglySorted_filter (p : entry -> bool) (l : list entry) :
  StronglySorted by_part l -> StronglySorted by_part (filter p l).
Proof.
  induction 1 as [|a l S IH F]; simpl; [constructor|].
  destruct (p a); [|assumption]. constructor; [assumption|].
  apply incl_Forall with l; [apply incl_filter | assumption].
Qed.

(** With distinct part numbers a sorted list is determined by its
    elements. *)
Lemma sorted_unique (l1 l2 : list entry) :
  StronglySorted by_part l1 -> StronglySorted by_part l2 ->
  NoDup (map part l1) -> Permutation l1 l2 -> l1 = l2.
Proof.
  revert l2; induction l1 as [|a l1 IH]; intros l2 S1 S2 ND P.
  - apply Permutation_nil in P. now subst.
  - destruct l2 as [|b l2];
      [apply Permutation_sym, Permutation_nil in P; discriminate|].
    inversion S1 as [|? ? S1' F1]; subst.
    inversion S2 as [|? ? S2' F2]; subst.
    inversion ND as [|? ? NI ND']; subst.
    assert (a = b) as ->.
    { assert (In b (a :: l1)) as Ib
          by (apply (Permutation_in _ (Permutation_sym P)); now left).
      destruct Ib as [Eq|Ib]; [assumption|].
      assert (In a (b :: l2)) as Ia
          by (apply (Permutation_in _ P); now left).
      destruct Ia as [Eq|Ia]; [now symmetry|].
      rewrite Forall_forall in F1, F2.
      pose proof (F1 _ Ib) as L1. pose proof (F2 _ Ia) as L2.
      unfold by_part in *. exfalso. apply NI.
      replace (part a) with (part b) by lia. now apply in_map. }
    f_equal. apply IH; try assumption.
    now apply Permutation_cons_inv with b.
Qed.

Lemma sort_permutation (l l' : list entry) :
  NoDup (map part l) -> Permutation l l' -> sort l = sort l'.
Proof.
  intros ND P. apply sorted_unique; try apply sort_sorted.
  - apply (Permutation_NoDup (l := map part l)); [|assumption].
    apply Permutation_map, Permutation_sym, sort_perm.
  - rewrite sort_perm, P. apply Permutation_sym, sort_perm.
Qed.

End Sorting.

(** ** The combiner *)

Section Combiner.
Context `{Yaml} `{Node}.
Import Combine.

Lemma loop_cons (fs : filesystem) (e : entry) (r : list entry)
  (st : progress) :
  loop fs (e :: r) st =
  match fs (mdAbs e) with
  | None =>
      loop fs r {| warnings := warnings st ++ [missMessage e];
                   parts := parts st; count := count st |}
  | Some (File raw) =>
      loop fs r {| warnings := warnings st;
                   parts := parts st ++ [renderPart e raw];
                   count := S (count st) |}
  | Some Unreadable => Threw ReadError
  end.
Proof. reflexivity. Qed.

(** What the loop leaves, from the entries it has gone through. *)
Lemma loop_spec (fs : filesystem) (es : list entry) (st : progress) :
  match loop fs es st with
  | Returned st' =>
      Forall (readable fs) es
      /\ warnings st' = warnings st ++ map missMessage (filter (missing fs) es)
      /\ parts st' = parts st ++ flat_map (rendered fs) es
      /\ count st' = count st + List.length (flat_map (rendered fs) es)
  | Threw _ => Exists (fun e => fs (mdAbs e) = Some Unreadable) es
  end.
Proof.
  revert st; induction es as [|e r IH]; intros st.
  - simpl. rewrite !app_nil_r. repeat split; [constructor | lia].
  - rewrite loop_cons.
    change (filter (missing fs) (e :: r))
      with (if missing fs e then e :: filter (missing fs) r
            else filter (missing fs) r).
    change (flat_map (rendered fs) (e :: r))
      with (rendered fs e ++ flat_map (rendered fs) r).
    unfold missing at 1, rendered at 1 3.
    destruct (fs (mdAbs e)) as [[raw|]|] eqn:E.
    + specialize (IH {| warnings := warnings st;
                        parts := parts st ++ [renderPart e raw];
                        count := S (count st) |}).
      destruct (loop fs r _) as [st'|err].
      * destruct IH as [F [W [P C]]]. simpl in W, P, C.
        split; [|split; [|split]].
        -- constructor; [|assumption]. unfold readable. now rewrite E.
        -- assumption.
        -- rewrite P, <- app_assoc. reflexivity.
        -- rewrite C. simpl. lia.
      * now apply Exists_cons_tl.
    + apply Exists_cons_hd. assumption.
    + specialize (IH {| warnings := warnings st ++ [missMessage e];
                        parts := parts st; count := count st |}).
      destruct (loop fs r _) as [st'|err].
      * destruct IH as [F [W [P C]]]. simpl in W, P, C.
        split; [|split; [|split]].
        -- constructor; [|assumption]. unfold readable. now rewrite E.
        -- rewrite W, <- app_assoc. reflexivity.
        -- assumption.
        -- assumption.
      * now apply Exists_cons_tl.
Qed.

Lemma loop_returns (fs : filesystem) (es : list entry) (st : progress) :
  Forall (readable fs) es -> exists st', loop fs es st = Returned st'.
Proof.
  intros F. pose proof (loop_spec fs es st) as S.
  destruct (loop fs es st) as [st'|err]; [now exists st'|].
  exfalso. apply Exists_exists in S as [e [I U]].
  rewrite Forall_forall in F. exact (F e I U).
Qed.

Lemma main_spec (fs : filesystem) (entries : list entry) :
  match main fs entries with
  | Returned r =>
      Forall (readable fs) entries
      /\ warned r = map missMessage (filter (missing fs) (sort entries))
      /\ documents r = flat_map (rendered fs) (sort entries)
      /\ combinedCount r = List.length (documents r)
      /\ combined r = normalizeSpacing (join [LF] (documents r)) ++ [LF]
  | Threw _ => exists e, In e entries /\ fs (mdAbs e) = Some Unreadable
  end.
Proof.
  unfold main.
  pose proof (loop_spec fs (sort entries)
                {| warnings := []; parts := []; count := 0 |}) as S.
  destruct (loop fs (sort entries) _) as [st|err].
  - destruct S as [F [W [P C]]]. simpl in *.
    split; [|split; [|split; [|split]]]; try assumption.
    + rewrite Forall_forall in *. intros e I. apply F.
      apply (Permutation_in _ (Permutation_sym (sort_perm entries)) I).
    + rewrite C, P. reflexivity.
    + reflexivity.
  - apply Exists_exists in S as [e [I U]]. exists e. split; [|assumption].
    apply (Permutation_in _ (sort_perm entries) I).
Qed.

Lemma main_returns (fs : filesystem) (entries : list entry) :
  Forall (readable fs) entries -> exists r, main fs entries = Returned r.
Proof.
  intros F. pose proof (main_spec fs entries) as S.
  destruct (main fs entries) as [r|err]; [now exists r|].
  exfalso. destruct S as [e [I U]].
  rewrite Forall_forall in F. exact (F e I U).
Qed.

Lemma rendered_present (fs : filesystem) (es : list entry) :
  flat_map (rendered fs) (filter (present fs) es) = flat_map (rendered fs) es.
Proof.
  induction es as [|e r IH]; [reflexivity|]. simpl.
  unfold present at 1, rendered at 2.
  destruct (fs (mdAbs e)) as [[raw|]|] eqn:E; simpl; rewrite IH;
    [|reflexivity|reflexivity].
  unfold rendered at 1. now rewrite E.
Qed.

(** *** Missing artifacts *)

Lemma rendered_kept (fs : filesystem) (es : list entry) :
  flat_map (rendered fs) (filter (fun e => negb (missing fs e)) es)
  = flat_map (rendered fs) es.
Proof.
  induction es as [|e r IH]; [reflexivity|]. simpl.
  unfold missing at 1, rendered at 2.
  destruct (fs (mdAbs e)) as [[raw|]|] eqn:E; simpl; rewrite IH;
    try reflexivity; unfold rendered at 1; now rewrite E.
Qed.

Lemma missing_kept (fs : filesystem) (es : list entry) :
  filter (missing fs) (filter (fun e => negb (missing fs e)) es) = [].
Proof.
  induction es as [|e r IH]; [reflexivity|]. simpl.
  destruct (missing fs e) eqn:M; simpl; [assumption|]. now rewrite M.
Qed.

(** *** Provenance *)




(** *** Spacing of the corpus *)

Lemma collapse_LF (k : nat) (t : jsstring) :
  collapse k (LF :: t) = collapse (S k) t.
Proof. reflexivity. Qed.

Lemma collapse_other (k : nat) (c : char) (t : jsstring) :
  char_eqb c LF = false ->
  collapse k (c :: t) = flush k ++ c :: collapse 0 t.
Proof. intros E. simpl. now rewrite E. Qed.

Lemma collapse_app_other (k : nat) (s t : jsstring) (z : char) :
  char_eqb z LF = false ->
  collapse k (s ++ z :: t) = collapse k (s ++ [z]) ++ collapse 0 t.
Proof.
  intros Z. revert k; induction s as [|c s IH]; intros k.
  - rewrite !app_nil_l, !(collapse_other _ _ _ Z).
    change (collapse 0 []) with (@nil char).
    rewrite <- app_assoc. reflexivity.
  - rewrite <- !app_comm_cons. destruct (char_eqb c LF) eqn:E.
    + apply N.eqb_eq in E. subst c. rewrite !collapse_LF. apply IH.
    + rewrite !(collapse_other _ _ _ E), IH, <- app_assoc. reflexivity.
Qed.

Lemma collapse_last (k : nat) (s : jsstring) (z : char) :
  char_eqb z LF = false -> exists y, collapse k (s ++ [z]) = y ++ [z].
Proof.
  intros Z. revert k; induction s as [|c s IH]; intros k.
  - rewrite app_nil_l, (collapse_other _ _ _ Z). now exists (flush k).
  - rewrite <- app_comm_cons. destruct (char_eqb c LF) eqn:E.
    + apply N.eqb_eq in E. subst c. rewrite collapse_LF. apply IH.
    + rewrite (collapse_other _ _ _ E). destruct (IH 0) as [y Y].
      exists (flush k ++ c :: y). now rewrite Y, <- app_assoc.
Qed.

Lemma collapse_bracketed (b : jsstring) :
  bracketed b -> bracketed (normalizeSpacing b).
Proof.
  intros [m ->]. unfold normalizeSpacing.
  rewrite collapse_other by reflexivity.
  destruct (collapse_last 0 m 62%N eq_refl) as [y Y].
  exists y. rewrite Y. reflexivity.
Qed.

Lemma collapse_bounded (k : nat) (s : jsstring) :
  newlines_bounded 0 (collapse k s) = true.
Proof.
  revert k; induction s as [|c s IH]; intros k.
  - destruct k as [|[|[|k]]]; reflexivity.
  - destruct (char_eqb c LF) eqn:E.
    + apply N.eqb_eq in E. subst c. rewrite collapse_LF. apply IH.
    + rewrite (collapse_other _ _ _ E).
      destruct k as [|[|[|k]]]; simpl; rewrite E; apply IH.
Qed.

Lemma newlines_bounded_after (k : nat) (s t t' : jsstring) (z : char) :
  char_eqb z LF = false ->
  newlines_bounded k (s ++ z :: t) = true ->
  newlines_bounded 0 t' = true ->
  newlines_bounded k (s ++ z :: t') = true.
Proof.
  intros Z. revert k; induction s as [|c s IH]; intros k B B'; simpl in *.
  - now rewrite Z in *.
  - destruct (char_eqb c LF).
    + apply andb_true_iff in B as [B1 B2]. rewrite B1. now apply IH.
    + now apply IH.
Qed.

Lemma newlines_bounded_no_triple (k : nat) (s : jsstring) :
  newlines_bounded k s = true -> no_newline_triple s.
Proof.
  intros B pre post ->. revert k B.
  induction pre as [|p pre IH]; intros k B; simpl in B.
  - repeat (apply andb_true_iff in B as [? B]).
    repeat match goal with X : (_ <=? _) = true |- _ =>
      apply Nat.leb_le in X end.
    lia.
  - destruct (char_eqb p LF).
    + apply andb_true_iff in B as [_ B]. now apply (IH (S k)).
    + now apply (IH 0).
Qed.

Lemma collapse_block (k : nat) (m rest : jsstring) :
  collapse k (LF :: LF :: (60%N :: m ++ [62%N]) ++ LF :: rest)
  = flush (S (S k)) ++ collapse 0 (60%N :: m ++ [62%N]) ++ collapse 1 rest.
Proof.
  rewrite !collapse_LF.
  change ((60%N :: m ++ [62%N]) ++ LF :: rest)
    with (60%N :: (m ++ [62%N]) ++ LF :: rest).
  rewrite <- (app_assoc m [62%N] (LF :: rest)).
  change ([62%N] ++ LF :: rest) with (62%N :: LF :: rest).
  rewrite (collapse_other (S (S k)) 60%N _ eq_refl).
  rewrite (collapse_other 0 60%N _ eq_refl).
  rewrite (collapse_app_other 0 m (LF :: rest) 62%N eq_refl).
  rewrite collapse_LF. change (flush 0) with (@nil N).
  rewrite app_nil_l, <- app_comm_cons. reflexivity.
Qed.

(** The corpus before its last line feed, block by block. *)
Lemma collapse_join (k : nat) (b : jsstring) (bs : list jsstring) :
  Forall bracketed (b :: bs) ->
  collapse k (join [LF] (map wrap (b :: bs)))
  = flush (S (S k)) ++ collapse 0 b
    ++ concat (map (fun b' => [LF; LF] ++ collapse 0 b') bs) ++ [LF].
Proof.
  revert k b; induction bs as [|b2 bs IH]; intros k b F;
    inversion F as [|? ? [m ->] F']; subst.
  - change (join [LF] (map wrap [60%N :: m ++ [62%N]]))
      with (LF :: LF :: (60%N :: m ++ [62%N]) ++ LF :: []).
    rewrite collapse_block. reflexivity.
  - change (join [LF] (map wrap ((60%N :: m ++ [62%N]) :: b2 :: bs)))
      with (LF :: LF :: (((60%N :: m ++ [62%N]) ++ [LF])
                         ++ [LF] ++ join [LF] (map wrap (b2 :: bs)))).
    rewrite <- (app_assoc (60%N :: m ++ [62%N]) [LF]).
    change ([LF] ++ [LF] ++ join [LF] (map wrap (b2 :: bs)))
      with (LF :: LF :: join [LF] (map wrap (b2 :: bs))).
    rewrite collapse_block, collapse_LF, (IH 2 b2 F').
    change (flush 4) with [LF; LF].
    change (concat (map (fun b' => [LF; LF] ++ collapse 0 b') (b2 :: bs)))
      with (([LF; LF] ++ collapse 0 b2)
            ++ concat (map (fun b' => [LF; LF] ++ collapse 0 b') bs)).
    rewrite <- !app_assoc. reflexivity.
Qed.

Lemma renderPart_wrap (e : entry) (raw : jsstring) :
  renderPart e raw = wrap (block e raw).
Proof.
  unfold renderPart, block, wrap, header, footer.
  destruct (extractFrontMatterAndBody raw) as [meta body].
  repeat rewrite <- app_assoc. reflexivity.
Qed.

Lemma block_bracketed (e : entry) (raw : jsstring) : bracketed (block e raw).
Proof.
  unfold block. destruct (extractFrontMatterAndBody raw) as [meta body].
  exists (lit "!-- BEGIN Part_" ++ zeroPadPart (part e) ++ lit ": "
          ++ name e ++ lit " -->" ++ [LF]
          ++ lit "```yaml" ++ [LF]
          ++ YAML_stringify (JObj (metaBlock e meta))
          ++ lit "```" ++ [LF]
          ++ trimEnd body
          ++ [LF] ++ lit "<!-- END Part_" ++ zeroPadPart (part e)
          ++ lit " --").
  repeat rewrite <- app_assoc. reflexivity.
Qed.

Lemma rendered_blocks (fs : filesystem) (es : list entry) :
  flat_map (rendered fs) es = map wrap (flat_map (blocks fs) es).
Proof.
  induction es as [|e r IH]; [reflexivity|]. simpl.
  rewrite map_app, IH. f_equal.
  unfold rendered, blocks. destruct (fs (mdAbs e)) as [[raw|]|];
    [|reflexivity|reflexivity].
  simpl. now rewrite renderPart_wrap.
Qed.

Lemma blocks_bracketed (fs : filesystem) (es : list entry) :
  Forall bracketed (flat_map (blocks fs) es).
Proof.
  induction es as [|e r IH]; [constructor|]. simpl.
  apply Forall_app. split; [|assumption].
  unfold blocks. destruct (fs (mdAbs e)) as [[raw|]|]; [|constructor|constructor].
  repeat constructor. apply block_bracketed.
Qed.

Lemma concat_bracketed_last (bs : list jsstring) :
  bs <> [] -> Forall bracketed bs ->
  exists x, concat (map (fun b => [LF; LF] ++ normalizeSpacing b) bs)
            = x ++ [62%N].
Proof.
  intros NE F. destruct (exists_last NE) as [init [b ->]].
  apply Forall_app in F as [_ F]. inversion F as [|? ? B _]; subst.
  destruct (collapse_bracketed b B) as [m M].
  rewrite map_app, concat_app. simpl. rewrite M, app_nil_r.
  exists (concat (map (fun b => [LF; LF] ++ normalizeSpacing b) init)
          ++ LF :: LF :: 60%N :: m).
  rewrite <- app_assoc. reflexivity.
Qed.

Lemma trailing_two (x : jsstring) (z : char) :
  char_eqb z LF = false -> trailing_newlines (x ++ [z; LF; LF]) = 2.
Proof.
  intros Z. unfold trailing_newlines. rewrite rev_app_distr. simpl.
  now rewrite Z.
Qed.

(** C9, as the script has it: every document of the corpus is a block
    from its BEGIN marker to its END marker with exactly two line feeds
    before it, so that one empty line stands between two documents and
    the text starts with two line feeds; the corpus text has nowhere
    three line feeds in a row; it ends with one line feed when no
    document is listed and with two line feeds after the last END
    marker otherwise. *)
Theorem corpus_spacing (fs : filesystem) (entries : list entry) (r : corpus) :
  main fs entries = Returned r ->
  let bs := flat_map (blocks fs) (sort entries) in
  documents r = map wrap bs
  /\ Forall bracketed bs
  /\ Forall (fun b => bracketed (normalizeSpacing b)) bs
  /\ combined r
     = concat (map (fun b => [LF; LF] ++ normalizeSpacing b) bs)
       ++ match bs with [] => [LF] | _ => [LF; LF] end
  /\ no_newline_triple (combined r)
  /\ trailing_newlines (combined r) = match bs with [] => 1 | _ => 2 end.
Proof.
  intros E bs. pose proof (main_spec fs entries) as S. rewrite E in S.
  destruct S as [_ [_ [D [_ T]]]].
  assert (documents r = map wrap bs) as Dw
      by (rewrite D; apply rendered_blocks).
  pose proof (blocks_bracketed fs (sort entries)) as Fb. fold bs in Fb.
  assert (combined r
          = concat (map (fun b => [LF; LF] ++ normalizeSpacing b) bs)
            ++ match bs with [] => [LF] | _ => [LF; LF] end) as Shape.
  { rewrite T, Dw. unfold normalizeSpacing at 1.
    destruct bs as [|b bs']; [reflexivity|].
    rewrite (collapse_join 0 b bs' Fb). simpl.
    rewrite <- !app_assoc. reflexivity. }
  split; [exact Dw|]. split; [exact Fb|]. split; [|split; [exact Shape|]].
  - eapply Forall_impl; [|exact Fb]. apply collapse_bracketed.
  - rewrite Shape. destruct bs as [|b bs'] eqn:Eb.
    + split; [|reflexivity].
      apply (newlines_bounded_no_triple 0). reflexivity.
    + destruct (concat_bracketed_last (b :: bs')) as [x X];
        [discriminate | assumption |].
      rewrite X, <- app_assoc. simpl app. split.
      * apply (newlines_bounded_no_triple 0).
        apply newlines_bounded_after with [LF]; [reflexivity | | reflexivity].
        pose proof (collapse_bounded 0 (join [LF] (map wrap (b :: bs'))))
          as B.
        rewrite (collapse_join 0 b bs' Fb) in B.
        change (flush 2 ++ collapse 0 b
                ++ concat (map (fun b' => [LF; LF] ++ collapse 0 b') bs')
                ++ [LF])
          with (([LF; LF] ++ normalizeSpacing b)
                ++ concat (map (fun b' => [LF; LF] ++ normalizeSpacing b') bs')
                ++ [LF]) in B.
        rewrite app_assoc in B.
        change (([LF; LF] ++ normalizeSpacing b)
                ++ concat (map (fun b' => [LF; LF] ++ normalizeSpacing b') bs'))
          with (concat (map (fun b' => [LF; LF] ++ normalizeSpacing b')
                          (b :: bs'))) in B.
        rewrite X, <- app_assoc in B. exact B.
      * apply trailing_two. reflexivity.
Qed.

End Combiner.

(** The corpus of the three sample parts. *)
Lemma corpus_spacing_witness :
  exists r,
    @Combine.main Sample.yaml Sample.node Sample.shelf Sample.manifest
    = Returned r
    /\ no_newline_triple (Combine.combined r)
    /\ trailing_newlines (Combine.combined r) = 2.
Proof.
  destruct (@Combine.main Sample.yaml Sample.node Sample.shelf Sample.manifest)
    as [r|err] eqn:E; [|discriminate (eq_sym E)].
  destruct (@corpus_spacing Sample.yaml Sample.node _ _ _ E)
    as [_ [_ [_ [_ [NT T]]]]].
  exists r. split; [reflexivity|]. split; [exact NT | exact T].
Defined.

(** The corpus of one document ends with two line feeds. *)
Lemma corpus_trailing_newline_counterexample :
  exists r,
    @Combine.main Sample.yaml Sample.node Sample.disk [Sample.e100]
    = Returned r
    /\ trailing_newlines (Combine.combined r) = 2
    /\ trailing_newlines (Combine.combined r) <> 1.
Proof.
  eexists. split; [vm_compute; reflexivity|].
  split; [vm_compute; reflexivity | vm_compute; discriminate].
Qed.

(** ** The downloaders *)

Ltac run :=
  unfold sleep; unfold bind, ret, emit, throw, newCookieJar, try_ignore;
  cbv beta iota zeta.

Section Downloads.
Context `{Node}.
Variable net : network.

Lemma fetch_never_unexpected (base : headers) (u : jsstring) (n : nat)
  (s s' : state) (er : error) :
  Http.fetchWithRedirects net base u n s = (s', Threw er) ->
  er <> UnexpectedResponse.
Proof.
  revert u s; induction n as [|n IH]; intros u s; simpl;
    destruct (net _ _ _) as [|res]; try (intros E; inversion E; discriminate);
    destruct (redirectTarget res); intros E;
    try (inversion E; discriminate).
  now apply IH in E.
Qed.

Lemma fetch_answering (base : headers) (u : jsstring) (n : nat) (s : state) :
  answering net ->
  exists s' res,
    Http.fetchWithRedirects net base u n s = (s', Returned res)
    /\ requests s' = S (requests s).
Proof.
  intros A.
  destruct n; simpl;
    match goal with |- context [net ?a ?b ?c] =>
      destruct (A a b c) as [res [E R]]; rewrite E, R end;
    eexists; exists res; split; reflexivity.
Qed.

(** The same for the fetch of each script, at any bound on the
    redirections. *)
Lemma fetchCAR_never_unexpected (u : jsstring) (n : nat) (s s' : state)
  (er : error) :
  DownloadCAR.fetchWithRedirects net u n s = (s', Threw er) ->
  er <> UnexpectedResponse.
Proof. apply fetch_never_unexpected. Qed.

Lemma fetchCAA_never_unexpected (u : jsstring) (n : nat) (s s' : state)
  (er : error) :
  DownloadCAA.fetchWithRedirects net u n s = (s', Threw er) ->
  er <> UnexpectedResponse.
Proof. apply fetch_never_unexpected. Qed.

Lemma fetchCAR_answering (u : jsstring) (n : nat) (s : state) :
  answering net ->
  exists s' res,
    DownloadCAR.fetchWithRedirects net u n s = (s', Returned res)
    /\ requests s' = S (requests s).
Proof. apply fetch_answering. Qed.

Arguments Http.fetchWithRedirects : simpl never.
Arguments DownloadCAR.fetchWithRedirects : simpl never.
Arguments DownloadCAA.fetchWithRedirects : simpl never.

Lemma rejected_false (res : response) :
  DownloadCAR.rejected res = false <-> declaredPdf res /\ largeEnough res.
Proof.
  unfold DownloadCAR.rejected, declaredPdf, largeEnough.
  rewrite orb_false_iff, negb_false_iff, str_eqb_eq, N.ltb_ge. reflexivity.
Qed.

Lemma retried_true (res : response) :
  DownloadCAA.retried res = true
  <-> ~ (declaredPdf res /\ largeEnough res) /\ ~ signedPdf res.
Proof.
  unfold DownloadCAA.retried, signedPdf.
  change (negb (str_eqb (mimeOf res) (lit "application/pdf"))
          || (N.of_nat (List.length (body res)) <? 10240)%N)
    with (DownloadCAR.rejected res).
  rewrite andb_true_iff, negb_true_iff, <- rejected_false.
  destruct (DownloadCAR.rejected res), (DownloadCAA.looksLikePdf (body res));
    intuition congruence.
Qed.

(** The manifest downloader, step by step. *)
Lemma downloadPdf_run (e : entry) (s : state) :
  DownloadCAR.downloadPdf net e s =
  let outPath := path_resolve [projectRoot; DownloadCAR.relOut e] in
  match DownloadCAR.fetchWithRedirects net (url e) 8
          (logged (EvMkdir (path_dirname outPath)) s) with
  | (s1, Threw er) => (s1, Threw er)
  | (s1, Returned res1) =>
      if DownloadCAR.rejected res1 then
        match DownloadCAR.fetchWithRedirects net (url e) 8
                (logged (EvSleep 400) s1) with
        | (s2, Threw er) => (s2, Threw er)
        | (s2, Returned res2) => settle e res2 s2
        end
      else settle e res1 s1
  end.
Proof.
  unfold DownloadCAR.downloadPdf, settle. run. cbv zeta.
  destruct (DownloadCAR.fetchWithRedirects net (url e) 8 _)
    as [s1 [res1|er]]; [|reflexivity].
  destruct (DownloadCAR.rejected res1) eqn:R1.
  - destruct (DownloadCAR.fetchWithRedirects net (url e) 8 _)
      as [s2 [res2|er]]; [|reflexivity].
    destruct (DownloadCAR.rejected res2); reflexivity.
  - rewrite R1. reflexivity.
Qed.

(** The single-document downloader, step by step. *)
Lemma downloadPdfCAA_run (u outPath : jsstring) (s : state) :
  DownloadCAA.downloadPdf net u outPath s =
  match DownloadCAA.fetchWithRedirects net u 8
          (emptied (logged (EvMkdir (path_dirname outPath)) s)) with
  | (s1, Threw er) => (s1, Threw er)
  | (s1, Returned res1) =>
      if DownloadCAA.retried res1 then
        match DownloadCAA.fetchWithRedirects net u 8
                (logged (EvSleep 400) s1) with
        | (s2, Threw er) => (s2, Threw er)
        | (s2, Returned res2) => settleCAA outPath res2 s2
        end
      else settleCAA outPath res1 s1
  end.
Proof.
  unfold DownloadCAA.downloadPdf, settleCAA. run. cbv zeta.
  destruct (DownloadCAA.fetchWithRedirects net u 8 _)
    as [s1 [res1|er]]; [|reflexivity].
  destruct (DownloadCAA.retried res1).
  - destruct (DownloadCAA.fetchWithRedirects net u 8 _)
      as [s2 [res2|er]]; [|reflexivity].
    destruct (DownloadCAA.looksLikePdf (body res2)); reflexivity.
  - destruct (DownloadCAA.looksLikePdf (body res1)); reflexivity.
Qed.

Lemma settle_ok (e : entry) (res : response) (s : state) :
  exists s' r,
    settle e res s = (s', Returned r)
    /\ DownloadCAR.size r = List.length (body res)
    /\ DownloadCAR.mime r = mimeOf res
    /\ DownloadCAR.ok r = negb (DownloadCAR.rejected res)
    /\ requests s' = requests s.
Proof.
  unfold settle. destruct (DownloadCAR.rejected res);
    eexists; eexists; repeat split; reflexivity.
Qed.

Lemma settleCAA_signed (outPath : jsstring) (res : response) (s : state) :
  ((exists s' r, settleCAA outPath res s = (s', Returned r)) <-> signedPdf res)
  /\ (~ signedPdf res -> settleCAA outPath res s = (s, Threw UnexpectedResponse)).
Proof.
  unfold settleCAA, signedPdf.
  destruct (DownloadCAA.looksLikePdf (body res)); split.
  - split; [reflexivity|]. intros _. eexists; eexists; reflexivity.
  - congruence.
  - split; [|discriminate]. intros [s' [r E]]. discriminate.
  - reflexivity.
Qed.

(** C1, as the scripts have it.  The response that decides a download
    is the first one when it passes the retry test of the script, and
    the one of the second attempt, made after a wait, when it does not.
    The manifest downloader retries when the first response is not
    declared as PDF or is too small, and its result is [ok] exactly when
    the deciding response is declared as application/pdf and has 10240
    bytes or more, whatever its first bytes are.  The single-document
    downloader retries when the first response fails that test and has
    no PDF signature either, and it returns exactly when the deciding
    response starts with the PDF signature, whatever its content type
    and size are.  A failed request is the only other way a download
    ends. *)
Theorem download_acceptance (e : entry) (u outPath : jsstring) (s : state) :
  let run := DownloadCAR.downloadPdf net e s in
  let runCAA := DownloadCAA.downloadPdf net u outPath s in
  match DownloadCAR.fetchWithRedirects net (url e) 8
          (logged (EvMkdir (path_dirname
             (path_resolve [projectRoot; DownloadCAR.relOut e]))) s) with
  | (s1, Threw er) => run = (s1, Threw er) /\ er <> UnexpectedResponse
  | (s1, Returned res1) =>
      (declaredPdf res1 /\ largeEnough res1 -> decidedBy run res1)
      /\ (~ (declaredPdf res1 /\ largeEnough res1) ->
          match DownloadCAR.fetchWithRedirects net (url e) 8
                  (logged (EvSleep 400) s1) with
          | (s2, Threw er) => run = (s2, Threw er) /\ er <> UnexpectedResponse
          | (s2, Returned res2) => decidedBy run res2
          end)
  end
  /\ match DownloadCAA.fetchWithRedirects net u 8
             (emptied (logged (EvMkdir (path_dirname outPath)) s)) with
     | (s1, Threw er) => runCAA = (s1, Threw er) /\ er <> UnexpectedResponse
     | (s1, Returned res1) =>
         (declaredPdf res1 /\ largeEnough res1 \/ signedPdf res1 ->
          decidedByCAA runCAA res1 s1)
         /\ (~ (declaredPdf res1 /\ largeEnough res1) /\ ~ signedPdf res1 ->
             match DownloadCAA.fetchWithRedirects net u 8
                     (logged (EvSleep 400) s1) with
             | (s2, Threw er) =>
                 runCAA = (s2, Threw er) /\ er <> UnexpectedResponse
             | (s2, Returned res2) => decidedByCAA runCAA res2 s2
             end)
     end.
Proof.
  assert (forall res t, decidedBy (settle e res t) res) as Settled.
  { intros res t. destruct (settle_ok e res t) as [s' [r [E [Sz [Mi [Ok _]]]]]].
    exists s', r. repeat (split; [assumption|]).
    rewrite Ok, negb_true_iff. apply rejected_false. }
  assert (forall res t, decidedByCAA (settleCAA outPath res t) res t)
    as SettledCAA.
  { intros res t. split; [|apply settleCAA_signed].
    unfold settleCAA, signedPdf.
    destruct (DownloadCAA.looksLikePdf (body res)); split.
    - reflexivity.
    - intros _. eexists; eexists. split; reflexivity.
    - intros [s' [r [E _]]]. discriminate.
    - discriminate. }
  cbv zeta. split.
  - rewrite downloadPdf_run. cbv zeta.
    destruct (DownloadCAR.fetchWithRedirects net (url e) 8 _)
      as [s1 [res1|er]] eqn:F1.
    + split.
      * intros A. apply rejected_false in A. rewrite A. apply Settled.
      * intros A.
        assert (DownloadCAR.rejected res1 = true) as R.
        { destruct (DownloadCAR.rejected res1) eqn:R; [reflexivity|].
          exfalso. apply A. now apply rejected_false. }
        rewrite R.
        destruct (DownloadCAR.fetchWithRedirects net (url e) 8
                    (logged (EvSleep 400) s1)) as [s2 [res2|er]] eqn:F2.
        -- apply Settled.
        -- split; [reflexivity|].
           apply (fetchCAR_never_unexpected _ _ _ _ _ F2).
    + split; [reflexivity|].
      apply (fetchCAR_never_unexpected _ _ _ _ _ F1).
  - rewrite downloadPdfCAA_run.
    destruct (DownloadCAA.fetchWithRedirects net u 8 _)
      as [s1 [res1|er]] eqn:F1.
    + split.
      * intros A.
        assert (DownloadCAA.retried res1 = false) as R.
        { destruct (DownloadCAA.retried res1) eqn:R; [|reflexivity].
          exfalso. apply retried_true in R as [N1 N2]. tauto. }
        rewrite R. apply SettledCAA.
      * intros A. apply retried_true in A. rewrite A.
        destruct (DownloadCAA.fetchWithRedirects net u 8
                    (logged (EvSleep 400) s1)) as [s2 [res2|er]] eqn:F2.
        -- apply SettledCAA.
        -- split; [reflexivity|].
           apply (fetchCAA_never_unexpected _ _ _ _ _ F2).
    + split; [reflexivity|].
      apply (fetchCAA_never_unexpected _ _ _ _ _ F1).
Qed.

(** *** Retry and the batch *)

Lemma downloadPdf_answering (e : entry) (s : state) :
  answering net ->
  exists s' r,
    DownloadCAR.downloadPdf net e s = (s', Returned r)
    /\ requests s' <= requests s + 2.
Proof.
  intros A. rewrite downloadPdf_run. cbv zeta.
  destruct (fetchCAR_answering (url e) 8
              (logged (EvMkdir (path_dirname
                 (path_resolve [projectRoot; DownloadCAR.relOut e]))) s) A)
    as [s1 [res1 [F1 Q1]]].
  rewrite F1.
  destruct (DownloadCAR.rejected res1).
  - destruct (fetchCAR_answering (url e) 8
                (logged (EvSleep 400) s1) A) as [s2 [res2 [F2 Q2]]].
    rewrite F2.
    destruct (settle_ok e res2 s2) as [s' [r [E [_ [_ [_ Q]]]]]].
    exists s', r. split; [assumption|].
    unfold logged in *. simpl in *. lia.
  - destruct (settle_ok e res1 s1) as [s' [r [E [_ [_ [_ Q]]]]]].
    exists s', r. split; [assumption|].
    unfold logged in *. simpl in *. lia.
Qed.

Lemma each_answering (entries : list entry)
  (acc : list (entry * DownloadCAR.result)) (s : state) :
  answering net ->
  exists s' rs,
    DownloadCAR.each net entries acc s = (s', Returned rs)
    /\ map fst rs = map fst acc ++ entries
    /\ requests s' <= requests s + 2 * List.length entries.
Proof.
  intros A. revert acc s; induction entries as [|e r IH]; intros acc s.
  - exists s, acc. simpl. rewrite app_nil_r. repeat split. lia.
  - simpl DownloadCAR.each. unfold bind.
    destruct (downloadPdf_answering e s A) as [s1 [r1 [E Q]]]. rewrite E.
    destruct (IH (acc ++ [(e, r1)]) s1) as [s' [rs [E' [M Q']]]].
    exists s', rs. split; [assumption|]. split.
    + rewrite M, map_app, <- app_assoc. reflexivity.
    + simpl List.length. lia.
Qed.

Lemma main_answering (entries : list entry) (s : state) :
  answering net ->
  exists s' sm,
    DownloadCAR.main net entries s = (s', Returned sm)
    /\ map fst (DownloadCAR.results sm) = entries
    /\ DownloadCAR.okCount sm + DownloadCAR.failCount sm
       = List.length entries
    /\ requests s' <= requests s + 1 + 2 * List.length entries.
Proof.
  intros A. unfold DownloadCAR.main, DownloadCAR.warmSession. run.
  destruct (fetchCAR_answering DownloadCAR.REFERER 5
              (emptied s) A) as [s0 [res0 [F0 Q0]]].
  rewrite F0. simpl fst.
  destruct (each_answering entries [] s0 A) as [s1 [rs [E [M Q]]]].
  rewrite E. eexists; eexists. split; [reflexivity|]. simpl.
  split; [exact M|]. split.
  - pose proof (filter_length_le (fun r => DownloadCAR.ok (snd r)) rs) as L.
    assert (List.length rs = List.length entries) as Len
        by (rewrite <- (length_map fst rs), M; reflexivity).
    lia.
  - unfold emptied in Q0. simpl in Q0. lia.
Qed.

(** C3, as the scripts have it.  Manifest downloader: a first response
    that passes the test of content type and size ends the download; one
    that fails it is followed by a wait of 400 ms and one more attempt,
    whose response settles the download: failing the test again gives a
    result with [ok] false, not an error.  On a network that answers,
    the run gives one result per entry of the manifest, with at most two
    requests per entry after the one that warms the session.
    Single-document downloader: the second attempt is made when the
    first response fails the test of type and size and has no PDF
    signature; a last response without the signature is an error, also
    when it was the first. *)
Theorem retry_policy (e : entry) (u outPath : jsstring) (s s1 s1' : state)
  (res1 res1' : response) :
  (DownloadCAR.fetchWithRedirects net (url e) 8
     (logged (EvMkdir (path_dirname
        (path_resolve [projectRoot; DownloadCAR.relOut e]))) s)
   = (s1, Returned res1) ->
   (DownloadCAR.rejected res1 = false ->
    DownloadCAR.downloadPdf net e s = settle e res1 s1)
   /\ (DownloadCAR.rejected res1 = true ->
       match DownloadCAR.fetchWithRedirects net (url e) 8
               (logged (EvSleep 400) s1) with
       | (s2, Returned res2) =>
           DownloadCAR.downloadPdf net e s = settle e res2 s2
           /\ (DownloadCAR.rejected res2 = true ->
               exists r, DownloadCAR.downloadPdf net e s = (s2, Returned r)
                         /\ DownloadCAR.ok r = false)
       | (s2, Threw er) => DownloadCAR.downloadPdf net e s = (s2, Threw er)
       end))
  /\ (forall entries,
        answering net ->
        exists s' sm,
          DownloadCAR.main net entries s = (s', Returned sm)
          /\ map fst (DownloadCAR.results sm) = entries
          /\ DownloadCAR.okCount sm + DownloadCAR.failCount sm
             = List.length entries
          /\ requests s' <= requests s + 1 + 2 * List.length entries)
  /\ (DownloadCAA.fetchWithRedirects net u 8
        (emptied (logged (EvMkdir (path_dirname outPath)) s))
      = (s1', Returned res1') ->
      (DownloadCAA.retried res1' = false ->
       DownloadCAA.downloadPdf net u outPath s = settleCAA outPath res1' s1')
      /\ (DownloadCAA.retried res1' = true ->
          match DownloadCAA.fetchWithRedirects net u 8
                  (logged (EvSleep 400) s1') with
          | (s2, Returned res2) =>
              DownloadCAA.downloadPdf net u outPath s
              = settleCAA outPath res2 s2
          | (s2, Threw er) =>
              DownloadCAA.downloadPdf net u outPath s = (s2, Threw er)
          end)
      /\ (DownloadCAA.retried res1' = false -> ~ signedPdf res1' ->
          DownloadCAA.downloadPdf net u outPath s
          = (s1', Threw UnexpectedResponse))).
Proof.
  split; [|split].
  - intros F1. rewrite downloadPdf_run. cbv zeta. rewrite F1. split.
    + intros R. now rewrite R.
    + intros R. rewrite R.
      destruct (DownloadCAR.fetchWithRedirects net (url e) 8
                  (logged (EvSleep 400) s1)) as [s2 [res2|er]];
        [|reflexivity].
      split; [reflexivity|]. intros R2. unfold settle. rewrite R2.
      eexists. split; reflexivity.
  - intros entries A. now apply main_answering.
  - intros F1. rewrite downloadPdfCAA_run, F1. split; [|split].
    + intros R. now rewrite R.
    + intros R. rewrite R.
      destruct (DownloadCAA.fetchWithRedirects net u 8
                  (logged (EvSleep 400) s1')) as [s2 [res2|er]];
        reflexivity.
    + intros R NS. rewrite R. now apply settleCAA_signed.
Qed.

End Downloads.

(** A failed download ends the loop of the manifest downloader: the
    entries after it are not fetched. *)
Lemma each_propagates `{Node} (net : network) (e : entry) (rest : list entry)
  (acc : list (entry * DownloadCAR.result)) (s s' : state) (er : error) :
  DownloadCAR.downloadPdf net e s = (s', Threw er) ->
  DownloadCAR.each net (e :: rest) acc s = (s', Threw er).
Proof.
  intros E. change (DownloadCAR.each net (e :: rest) acc s)
    with (bind (DownloadCAR.downloadPdf net e)
            (fun r => DownloadCAR.each net rest (acc ++ [(e, r)])) s).
  unfold bind. now rewrite E.
Qed.

(** C1, counterexample: the manifest downloader accepts a response
    declared as PDF and 10240 bytes long that has no PDF signature; the
    single-document downloader accepts eight bytes declared as HTML that
    start with the signature. *)
Lemma triple_check_counterexample :
  (exists s' r,
     @DownloadCAR.downloadPdf Sample.node (Sample.served Sample.unsigned)
       Sample.e012 Sample.start = (s', Returned r)
     /\ DownloadCAR.ok r = true
     /\ ~ (declaredPdf Sample.unsigned /\ largeEnough Sample.unsigned
           /\ signedPdf Sample.unsigned))
  /\ (exists s' r,
        @DownloadCAA.downloadPdf Sample.node (Sample.served Sample.tiny)
          (lit "https://www.legislation.govt.nz/act.pdf")
          (lit "/repo/scripts/download/caa/act.pdf") Sample.start
        = (s', Returned r)
        /\ ~ (declaredPdf Sample.tiny /\ largeEnough Sample.tiny
              /\ signedPdf Sample.tiny)).
Proof.
  split.
  - eexists; eexists. split; [vm_compute; reflexivity|].
    split; [reflexivity|]. intros [_ [_ Sg]]. vm_compute in Sg. discriminate.
  - eexists; eexists. split; [vm_compute; reflexivity|].
    intros [D _]. vm_compute in D. discriminate.
Qed.

(** C2, at the failing input: the connection fails at the request for
    the first entry of a manifest of three.  The run of the manifest
    downloader is rejected with the network error; two requests were
    made (the warm-up and the failed one), no result was recorded and no
    report written. *)
Theorem download_main_network_error :
  let run := @DownloadCAR.main Sample.node Sample.down Sample.manifest
               Sample.start in
  snd run = Threw NetworkError
  /\ requested (log (fst run)) = [DownloadCAR.REFERER; url Sample.e087]
  /\ reports (log (fst run)) = [].
Proof.
  intros run. repeat split; vm_compute; reflexivity.
Qed.

(** C3, counterexample: the single-document downloader gets a response
    declared as PDF, 10240 bytes long, without the PDF signature.  The
    response is rejected after one request, with no wait and no second
    attempt. *)
Lemma retry_counterexample :
  let run := @DownloadCAA.downloadPdf Sample.node
               (Sample.served Sample.unsigned)
               (lit "https://www.legislation.govt.nz/act.pdf")
               (lit "/repo/scripts/download/caa/act.pdf") Sample.start in
  snd run = Threw UnexpectedResponse
  /\ requested (log (fst run)) = [lit "https://www.legislation.govt.nz/act.pdf"]
  /\ waits (log (fst run)) = [].
Proof.
  intros run. repeat split; vm_compute; reflexivity.
Qed.

(** A server that answers every request with a small HTML page: the
    download of Part 012 makes two attempts with a wait between them and
    returns a result with [ok] false; the run over the manifest returns
    three results; the download of the Act makes two attempts and fails.
    A server of a signature-less response declared as PDF: the download
    of the Act fails at its first response. *)
Lemma retry_policy_witness :
  let net := Sample.served Sample.page in
  let e := Sample.e012 in
  let dir := EvMkdir (@path_dirname Sample.node
               (@path_resolve Sample.node
                  [@projectRoot Sample.node;
                   @DownloadCAR.relOut Sample.node e])) in
  let act := lit "https://www.legislation.govt.nz/act.pdf" in
  let out := lit "/repo/scripts/download/caa/act.pdf" in
  let dirCAA := EvMkdir (@path_dirname Sample.node out) in
  exists s1 s2 t1 t2 v1 w1,
    @DownloadCAR.fetchWithRedirects Sample.node net (url e) 8
      (logged dir Sample.start) = (s1, Returned Sample.page)
    /\ DownloadCAR.rejected Sample.page = true
    /\ @DownloadCAR.fetchWithRedirects Sample.node net (url e) 8
         (logged (EvSleep 400) s1) = (s2, Returned Sample.page)
    /\ @DownloadCAR.downloadPdf Sample.node net e Sample.start
       = @settle Sample.node e Sample.page s2
    /\ (exists r, @DownloadCAR.downloadPdf Sample.node net e Sample.start
                  = (s2, Returned r) /\ DownloadCAR.ok r = false)
    /\ requested (log s2) = [url e; url e]
    /\ waits (log s2) = [400%N]
    /\ answering net
    /\ (exists s' sm,
          @DownloadCAR.main Sample.node net Sample.manifest Sample.start
          = (s', Returned sm)
          /\ map fst (DownloadCAR.results sm) = Sample.manifest
          /\ DownloadCAR.okCount sm + DownloadCAR.failCount sm = 3
          /\ requests s' <= 0 + 1 + 2 * 3)
    /\ @DownloadCAA.fetchWithRedirects Sample.node net act 8
         (emptied (logged dirCAA Sample.start)) = (t1, Returned Sample.page)
    /\ DownloadCAA.retried Sample.page = true
    /\ @DownloadCAA.fetchWithRedirects Sample.node net act 8
         (logged (EvSleep 400) t1) = (t2, Returned Sample.page)
    /\ @DownloadCAA.downloadPdf Sample.node net act out Sample.start
       = settleCAA out Sample.page t2
    /\ @DownloadCAA.fetchWithRedirects Sample.node
         (Sample.served Sample.unsigned) act 8
         (emptied (logged dirCAA Sample.start)) = (v1, Returned Sample.unsigned)
    /\ DownloadCAA.retried Sample.unsigned = false
    /\ ~ signedPdf Sample.unsigned
    /\ @DownloadCAA.downloadPdf Sample.node (Sample.served Sample.unsigned)
         act out Sample.start = (v1, Threw UnexpectedResponse)
    /\ @DownloadCAR.fetchWithRedirects Sample.node
         (Sample.served Sample.unsigned) (url e) 8
         (logged dir Sample.start) = (w1, Returned Sample.unsigned)
    /\ DownloadCAR.rejected Sample.unsigned = false
    /\ @DownloadCAR.downloadPdf Sample.node (Sample.served Sample.unsigned)
         e Sample.start = @settle Sample.node e Sample.unsigned w1
    /\ waits (log w1) = [].
Proof.
  intros net e dir act out dirCAA.
  set (s1 := fst (@DownloadCAR.fetchWithRedirects Sample.node net (url e) 8
                    (logged dir Sample.start))).
  set (s2 := fst (@DownloadCAR.fetchWithRedirects Sample.node net (url e) 8
                    (logged (EvSleep 400) s1))).
  set (t1 := fst (@DownloadCAA.fetchWithRedirects Sample.node net act 8
                    (emptied (logged dirCAA Sample.start)))).
  set (t2 := fst (@DownloadCAA.fetchWithRedirects Sample.node net act 8
                    (logged (EvSleep 400) t1))).
  set (v1 := fst (@DownloadCAA.fetchWithRedirects Sample.node
                    (Sample.served Sample.unsigned) act 8
                    (emptied (logged dirCAA Sample.start)))).
  set (w1 := fst (@DownloadCAR.fetchWithRedirects Sample.node
                    (Sample.served Sample.unsigned) (url e) 8
                    (logged dir Sample.start))).
  exists s1, s2, t1, t2, v1, w1.
  assert (@DownloadCAR.fetchWithRedirects Sample.node
            (Sample.served Sample.unsigned) (url e) 8
            (logged dir Sample.start) = (w1, Returned Sample.unsigned))
    as FirstAccepted by (vm_compute; reflexivity).
  assert (DownloadCAR.rejected Sample.unsigned = false) as Acc
      by (vm_compute; reflexivity).
  assert (@DownloadCAR.fetchWithRedirects Sample.node net (url e) 8
            (logged dir Sample.start) = (s1, Returned Sample.page))
    as First by (vm_compute; reflexivity).
  assert (DownloadCAR.rejected Sample.page = true) as Rej by reflexivity.
  assert (@DownloadCAR.fetchWithRedirects Sample.node net (url e) 8
            (logged (EvSleep 400) s1) = (s2, Returned Sample.page))
    as Second by (vm_compute; reflexivity).
  assert (@DownloadCAA.fetchWithRedirects Sample.node net act 8
            (emptied (logged dirCAA Sample.start)) = (t1, Returned Sample.page))
    as FirstCAA by (vm_compute; reflexivity).
  assert (DownloadCAA.retried Sample.page = true) as Ret by reflexivity.
  assert (@DownloadCAA.fetchWithRedirects Sample.node net act 8
            (logged (EvSleep 400) t1) = (t2, Returned Sample.page))
    as SecondCAA by (vm_compute; reflexivity).
  assert (@DownloadCAA.fetchWithRedirects Sample.node
            (Sample.served Sample.unsigned) act 8
            (emptied (logged dirCAA Sample.start))
          = (v1, Returned Sample.unsigned))
    as FirstUnsigned by (vm_compute; reflexivity).
  assert (DownloadCAA.retried Sample.unsigned = false) as NoRet
      by (vm_compute; reflexivity).
  assert (~ signedPdf Sample.unsigned) as NoSig
      by (intros Sg; vm_compute in Sg; discriminate).
  assert (answering net) as A.
  { intros n u hs. exists Sample.page. split; reflexivity. }
  destruct (@retry_policy Sample.node net e act out
              Sample.start s1 t1 Sample.page Sample.page)
    as [Car [Batch Caa]].
  destruct (Car First) as [_ Retry]. specialize (Retry Rej).
  rewrite Second in Retry. cbv beta iota in Retry.
  destruct Retry as [Settled Failed].
  destruct (Caa FirstCAA) as [_ [RetryCAA _]]. specialize (RetryCAA Ret).
  rewrite SecondCAA in RetryCAA. cbv beta iota in RetryCAA.
  destruct (@retry_policy Sample.node (Sample.served Sample.unsigned) e act out
              Sample.start s1 v1 Sample.page Sample.unsigned)
    as [_ [_ CaaUnsigned]].
  destruct (CaaUnsigned FirstUnsigned) as [_ [_ Immediate]].
  destruct (@retry_policy Sample.node (Sample.served Sample.unsigned) e act out
              Sample.start w1 v1 Sample.unsigned Sample.unsigned)
    as [CarUnsigned _].
  destruct (CarUnsigned FirstAccepted) as [Once _].
  split; [exact First|].
  split; [exact Rej|]. split; [exact Second|]. split; [exact Settled|].
  split; [exact (Failed Rej)|]. split; [vm_compute; reflexivity|].
  split; [vm_compute; reflexivity|]. split; [exact A|].
  split; [exact (Batch Sample.manifest A)|].
  split; [exact FirstCAA|]. split; [exact Ret|]. split; [exact SecondCAA|].
  split; [exact RetryCAA|]. split; [exact FirstUnsigned|].
  split; [exact NoRet|]. split; [exact NoSig|].
  split; [exact (Immediate NoRet NoSig)|].
  split; [exact FirstAccepted|]. split; [exact Acc|].
  split; [exact (Once Acc)|]. vm_compute; reflexivity.
Defined.

(** A server of one response that is no redirection: every fetch
    returns this response. *)
Lemma fetch_served `{Node} (base : headers) (res : response) (u : jsstring)
  (n : nat) (s : state) :
  redirectTarget res = None ->
  exists s', Http.fetchWithRedirects (Sample.served res) base u n s
             = (s', Returned res).
Proof.
  intros R. destruct n; simpl; unfold Sample.served; rewrite R;
    eexists; reflexivity.
Qed.

Lemma fetchCAR_served `{Node} (res : response) (u : jsstring) (n : nat)
  (s s' : state) (res' : response) :
  redirectTarget res = None ->
  DownloadCAR.fetchWithRedirects (Sample.served res) u n s
  = (s', Returned res') ->
  res' = res.
Proof.
  intros R F.
  destruct (fetch_served DownloadCAR.baseHeaders res u n s R) as [s'' F'].
  unfold DownloadCAR.fetchWithRedirects in F. rewrite F' in F.
  now injection F.
Qed.

Lemma fetchCAA_served `{Node} (res : response) (u : jsstring) (n : nat)
  (s s' : state) (res' : response) :
  redirectTarget res = None ->
  DownloadCAA.fetchWithRedirects (Sample.served res) u n s
  = (s', Returned res') ->
  res' = res.
Proof.
  intros R F.
  destruct (fetch_served DownloadCAA.baseHeaders res u n s R) as [s'' F'].
  unfold DownloadCAA.fetchWithRedirects in F. rewrite F' in F.
  now injection F.
Qed.

(** A response declared as PDF, 10240 bytes long, is accepted by the
    manifest downloader; a payload that starts with the signature is
    accepted by the single-document downloader. *)
Lemma download_acceptance_witness :
  (declaredPdf Sample.unsigned /\ largeEnough Sample.unsigned
   /\ exists s' r,
        @DownloadCAR.downloadPdf Sample.node (Sample.served Sample.unsigned)
          Sample.e012 Sample.start = (s', Returned r)
        /\ DownloadCAR.ok r = true)
  /\ (~ (declaredPdf Sample.page /\ largeEnough Sample.page)
      /\ exists s' r,
           @DownloadCAR.downloadPdf Sample.node (Sample.served Sample.page)
             Sample.e012 Sample.start = (s', Returned r)
           /\ DownloadCAR.ok r <> true
           /\ DownloadCAR.size r = 3)
  /\ (signedPdf Sample.tiny
      /\ exists s' r,
           @DownloadCAA.downloadPdf Sample.node (Sample.served Sample.tiny)
             (lit "https://www.legislation.govt.nz/act.pdf")
             (lit "/repo/scripts/download/caa/act.pdf") Sample.start
           = (s', Returned r)
           /\ DownloadCAA.bytes r = 8).
Proof.
  assert (declaredPdf Sample.unsigned) as D by reflexivity.
  assert (largeEnough Sample.unsigned) as L by (vm_compute; discriminate).
  assert (~ (declaredPdf Sample.page /\ largeEnough Sample.page)) as NP.
  { intros [D' _]. vm_compute in D'. discriminate. }
  assert (signedPdf Sample.tiny) as Sg by reflexivity.
  split; [|split].
  - split; [exact D|]. split; [exact L|].
    destruct (@download_acceptance Sample.node (Sample.served Sample.unsigned)
                Sample.e012 [] [] Sample.start) as [A _].
    destruct (@DownloadCAR.fetchWithRedirects Sample.node
                (Sample.served Sample.unsigned) (url Sample.e012) 8 _)
      as [s1 [res1|er]] eqn:F.
    + rewrite (fetchCAR_served Sample.unsigned _ _ _ _ _ eq_refl F) in A.
      destruct A as [Acc _].
      destruct (Acc (conj D L)) as [s' [r [E [_ [_ Ok]]]]].
      exists s', r. split; [exact E|]. apply Ok. now split.
    + vm_compute in F. discriminate.
  - split; [exact NP|].
    destruct (@download_acceptance Sample.node (Sample.served Sample.page)
                Sample.e012 [] [] Sample.start) as [A _].
    destruct (@DownloadCAR.fetchWithRedirects Sample.node
                (Sample.served Sample.page) (url Sample.e012) 8 _)
      as [s1 [res1|er]] eqn:F.
    + rewrite (fetchCAR_served Sample.page _ _ _ _ _ eq_refl F) in A.
      destruct A as [_ Retry]. specialize (Retry NP).
      destruct (@DownloadCAR.fetchWithRedirects Sample.node
                  (Sample.served Sample.page) (url Sample.e012) 8
                  (logged (EvSleep 400) s1))
        as [s2 [res2|er]] eqn:F2.
      * rewrite (fetchCAR_served Sample.page _ _ _ _ _ eq_refl F2) in Retry.
        destruct Retry as [s' [r [E [Sz [_ Ok]]]]].
        exists s', r. split; [exact E|]. split; [|exact Sz].
        intros T. apply NP, Ok, T.
      * destruct (@fetch_served Sample.node DownloadCAR.baseHeaders Sample.page
                    (url Sample.e012) 8 (logged (EvSleep 400) s1) eq_refl)
          as [s3 F3].
        unfold DownloadCAR.fetchWithRedirects in F2. rewrite F3 in F2.
        discriminate.
    + vm_compute in F. discriminate.
  - split; [exact Sg|].
    destruct (@download_acceptance Sample.node (Sample.served Sample.tiny)
                Sample.e012 (lit "https://www.legislation.govt.nz/act.pdf")
                (lit "/repo/scripts/download/caa/act.pdf") Sample.start)
      as [_ A].
    destruct (@DownloadCAA.fetchWithRedirects Sample.node
                (Sample.served Sample.tiny)
                (lit "https://www.legislation.govt.nz/act.pdf") 8 _)
      as [s1 [res1|er]] eqn:F.
    + rewrite (fetchCAA_served Sample.tiny _ _ _ _ _ eq_refl F) in A.
      destruct A as [Acc _].
      destruct (Acc (or_intror Sg)) as [Ret _].
      apply (proj2 Ret Sg).
    + vm_compute in F. discriminate.
Defined.

(* ================================================================== *)
(** * Further properties of the scripts *)
(* ================================================================== *)

(** ** Cookies *)

Lemma jar_set_keys_incl (k v : jsstring) (j : jar) :
  incl (keys j) (keys (jar_set k v j)).
Proof.
  induction j as [|[k' v'] r IH]; simpl; [intros x []|].
  destruct (str_eqb k k') eqn:E.
  - apply str_eqb_eq in E. subst k'. apply incl_refl.
  - simpl. intros x [->|I]; [now left | right; now apply IH].
Qed.

Lemma jar_set_keys_in (k v : jsstring) (j : jar) (x : jsstring) :
  In x (keys (jar_set k v j)) -> x = k \/ In x (keys j).
Proof.
  induction j as [|[k' v'] r IH]; simpl.
  - intros [<-|[]]. now left.
  - destruct (str_eqb k k') eqn:E; simpl.
    + apply str_eqb_eq in E. subst k'. intros [<-|I]; [now left | right; now right].
    + intros [<-|I]; [right; now left|].
      destruct (IH I) as [->|I']; [now left | right; now right].
Qed.

Lemma jar_set_NoDup (k v : jsstring) (j : jar) :
  NoDup (keys j) -> NoDup (keys (jar_set k v j)).
Proof.
  induction j as [|[k' v'] r IH]; simpl; intros ND.
  - repeat constructor. intros [].
  - inversion ND as [|? ? NI ND']; subst.
    destruct (str_eqb k k') eqn:E; simpl.
    + apply str_eqb_eq in E. subst k'. now constructor.
    + constructor; [|now apply IH].
      intros I. destruct (jar_set_keys_in _ _ _ _ I) as [->|I'].
      * rewrite str_eqb_refl in E. discriminate.
      * contradiction.
Qed.

Lemma jar_set_stored (k v : jsstring) (j : jar) :
  NoDup (keys j) ->
  In (k, v) (jar_set k v j)
  /\ forall v', In (k, v') (jar_set k v j) -> v' = v.
Proof.
  induction j as [|[k' w] r IH]; simpl; intros ND.
  - split; [now left|]. intros v' [E|[]]. now injection E.
  - inversion ND as [|? ? NI ND']; subst.
    destruct (str_eqb k k') eqn:E.
    + apply str_eqb_eq in E. subst k'. split; [now left|].
      intros v' [Eq|I]; [now injection Eq|].
      exfalso. apply NI. change k with (fst (k, v')). now apply in_map.
    + destruct (IH ND') as [I U]. split; [now right|].
      intros v' [Eq|I']; [|now apply U].
      injection Eq as -> _. rewrite str_eqb_refl in E. discriminate.
Qed.

Lemma storeCookie_cases (j : jar) (c : jsstring) :
  storeCookie j c = j \/ exists k v, storeCookie j c = jar_set k v j.
Proof.
  unfold storeCookie.
  destruct (splitOn 61%N (hd [] (splitOn 59%N c))) as [|k [|v r]];
    [now left | now left |].
  destruct (negb (str_eqb k []) && negb (str_eqb v []));
    [right; eauto | now left].
Qed.

Lemma storeCookies_keys (res : response) (j : jar) :
  incl (keys j) (keys (storeCookies res j))
  /\ (NoDup (keys j) -> NoDup (keys (storeCookies res j))).
Proof.
  unfold storeCookies. destruct (set_cookie res) as [l|];
    [|split; [apply incl_refl | trivial]].
  revert j; induction l as [|c l IH]; intros j; simpl;
    [split; [apply incl_refl | trivial]|].
  destruct (IH (storeCookie j c)) as [I N].
  destruct (storeCookie_cases j c) as [E|[k [v E]]]; rewrite E in *.
  - now split.
  - split.
    + eapply incl_tran; [apply jar_set_keys_incl | exact I].
    + intros ND. apply N. now apply jar_set_NoDup.
Qed.

(** ** One fetch *)

Section OneFetch.
Context `{Node}.
Variable net : network.
Variable base : headers.

Lemma fetch_unfold (u : jsstring) (n : nat) (s : state) :
  Http.fetchWithRedirects net base u n s =
  let cookie := cookieHeader (cookieJar s) in
  let hs := if negb (str_eqb cookie [])
            then base ++ [(lit "Cookie", cookie)] else base in
  let sent := {| requests := S (requests s); cookieJar := cookieJar s;
                 log := log s ++ [EvRequest u hs] |} in
  match net (requests s) u hs with
  | ConnectionError => (sent, Threw NetworkError)
  | Reply res =>
      let s' := {| requests := requests sent;
                   cookieJar := storeCookies res (cookieJar sent);
                   log := log sent |} in
      match redirectTarget res with
      | Some l =>
          match n with
          | 0 => (s', Threw TooManyRedirects)
          | S m => Http.fetchWithRedirects net base (URL_resolve l u) m s'
          end
      | None => (s', Returned res)
      end
  end.
Proof. destruct n; reflexivity. Qed.

(** What a fetch keeps, step by step: [P] holds of the state after the
    fetch when it holds of the state before and is kept by sending a
    request with the cookies of the jar and by storing the cookies of a
    response. *)
Lemma fetch_sends (P : state -> Prop) :
  (forall s u, P s ->
     P {| requests := S (requests s); cookieJar := cookieJar s;
          log := log s ++ [EvRequest u (headersWith base (cookieJar s))] |}) ->
  (forall s res, P s ->
     P {| requests := requests s;
          cookieJar := storeCookies res (cookieJar s); log := log s |}) ->
  forall n u s, P s -> P (fst (Http.fetchWithRedirects net base u n s)).
Proof.
  intros Sent Stored. induction n as [|n IH]; intros u s Ps;
    rewrite fetch_unfold; cbv zeta;
    (destruct (net _ _ _) as [|res]; [cbn [fst]; now apply Sent|]);
    (destruct (redirectTarget res);
      [|cbn [fst]; apply (Stored _ res), (Sent _ u), Ps]).
  - cbn [fst]. apply (Stored _ res), (Sent _ u), Ps.
  - apply IH. apply (Stored _ res), (Sent _ u), Ps.
Qed.

Lemma fetch_keeps (P : state -> Prop) :
  (forall s u hs, P s ->
     P {| requests := S (requests s); cookieJar := cookieJar s;
          log := log s ++ [EvRequest u hs] |}) ->
  (forall s res, P s ->
     P {| requests := requests s;
          cookieJar := storeCookies res (cookieJar s); log := log s |}) ->
  forall n u s, P s -> P (fst (Http.fetchWithRedirects net base u n s)).
Proof.
  intros Sent Stored. apply fetch_sends; [|exact Stored].
  intros s u. apply Sent.
Qed.

End OneFetch.

Section FetchProperties.
Context `{Node}.
Variable net : network.
Variable base : headers.

Lemma requested_app (l1 l2 : list event) :
  requested (l1 ++ l2) = requested l1 ++ requested l2.
Proof. apply flat_map_app. Qed.

Lemma requested_sent (l : list event) (u : jsstring) (hs : headers) :
  List.length (requested (l ++ [EvRequest u hs]))
  = S (List.length (requested l)).
Proof. rewrite requested_app, length_app. simpl. lia. Qed.

(** X1: one fetch makes at least one request and at most
    [maxRedirects + 1]; every request is in the log; the fetch ends with
    'Too many redirects' only after [maxRedirects + 1] requests. *)
Theorem fetch_request_bound (u : jsstring) (n : nat) (s : state) :
  let r := Http.fetchWithRedirects net base u n s in
  requests s < requests (fst r) <= requests s + S n
  /\ List.length (requested (log (fst r)))
     = List.length (requested (log s)) + (requests (fst r) - requests s)
  /\ match snd r with
     | Threw TooManyRedirects => requests (fst r) = requests s + S n
     | _ => True
     end.
Proof.
  revert u s; induction n as [|n IH]; intros u s; cbv zeta;
    rewrite fetch_unfold; cbv zeta;
    (destruct (net _ _ _) as [|res];
      [cbn [fst snd requests log]; rewrite requested_sent;
       repeat split; lia|]);
    (destruct (redirectTarget res) as [l|];
      [|cbn [fst snd requests log]; rewrite requested_sent;
        repeat split; lia]).
  - cbn [fst snd requests log]. rewrite requested_sent. repeat split; lia.
  - match goal with |- context [Http.fetchWithRedirects net base ?v n ?t] =>
      specialize (IH v t); cbv zeta in IH;
      destruct (Http.fetchWithRedirects net base v n t) as [s' o] end.
    cbn [fst snd requests log] in *. rewrite requested_sent in IH.
    destruct IH as [B [L T]]. split; [lia|]. split; [lia|].
    destruct o as [a|[]]; trivial. lia.
Qed.

(** X2: on a network that answers every request with a redirection, a
    fetch ends with 'Too many redirects' after exactly
    [maxRedirects + 1] requests. *)
Theorem fetch_redirect_loop (u : jsstring) (n : nat) (s : state) :
  redirecting net ->
  let r := Http.fetchWithRedirects net base u n s in
  snd r = Threw TooManyRedirects /\ requests (fst r) = requests s + S n.
Proof.
  intros R. revert u s; induction n as [|n IH]; intros u s; cbv zeta;
    rewrite fetch_unfold; cbv zeta;
    match goal with |- context [net ?a ?b ?c] =>
      destruct (R a b c) as [res [l [E T]]]; rewrite E, T end.
  - cbn [fst snd requests]. split; [reflexivity | lia].
  - match goal with |- context [Http.fetchWithRedirects net base ?v n ?t] =>
      destruct (IH v t) as [Th Rq] end.
    split; [assumption|]. rewrite Rq. cbn [requests]. lia.
Qed.

(** The requests of a fetch carry the jar as it stands. *)
Lemma fetch_carries (u : jsstring) (n : nat) (s : state) :
  let r := Http.fetchWithRedirects net base u n s in
  incl (keys (cookieJar s)) (keys (cookieJar (fst r)))
  /\ exists new,
       log (fst r) = log s ++ new
       /\ Forall (carries base (cookieJar s)) new.
Proof.
  cbv zeta.
  apply (fetch_sends net base
           (fun s' => incl (keys (cookieJar s)) (keys (cookieJar s'))
                      /\ exists new,
                           log s' = log s ++ new
                           /\ Forall (carries base (cookieJar s)) new)).
  - intros s0 u0 [I [new [L F]]]. cbn [cookieJar log].
    split; [exact I|].
    exists (new ++ [EvRequest u0 (headersWith base (cookieJar s0))]).
    split; [now rewrite L, <- app_assoc|].
    apply Forall_app. split; [exact F|]. repeat constructor.
    exists (cookieJar s0). now split.
  - intros s0 res [I [new [L F]]]. cbn [cookieJar log].
    split; [|now exists new].
    eapply incl_tran; [exact I | apply storeCookies_keys].
  - split; [apply incl_refl|]. exists []. split; [now rewrite app_nil_r|].
    constructor.
Qed.

(** X3: a fetch never drops a cookie and sends the cookies it has: the
    names in the jar before are in the jar after, whatever the outcome,
    and names that were distinct stay distinct; every request of the
    fetch has the headers of the script and, in its [Cookie] header,
    the jar as it stands then, which holds the names of the jar before
    at least. *)
Theorem fetch_keeps_cookies (u : jsstring) (n : nat) (s : state) :
  let r := Http.fetchWithRedirects net base u n s in
  incl (keys (cookieJar s)) (keys (cookieJar (fst r)))
  /\ (NoDup (keys (cookieJar s)) -> NoDup (keys (cookieJar (fst r))))
  /\ exists new,
       log (fst r) = log s ++ new
       /\ Forall (carries base (cookieJar s)) new.
Proof.
  cbv zeta. destruct (fetch_carries u n s) as [I C].
  split; [exact I|]. split; [|exact C].
  apply (fetch_keeps net base
           (fun s' => NoDup (keys (cookieJar s))
                      -> NoDup (keys (cookieJar s')))).
  - intros s0 u0 hs P. exact P.
  - intros s0 res N ND. cbn [cookieJar].
    now apply storeCookies_keys, N.
  - trivial.
Qed.

End FetchProperties.

Lemma fetch_redirect_loop_witness :
  redirecting (Sample.served SamplePdf.moved)
  /\ snd (@Http.fetchWithRedirects Sample.node (Sample.served SamplePdf.moved)
            DownloadCAR.baseHeaders DownloadCAR.REFERER 8 Sample.start)
     = Threw TooManyRedirects
  /\ requests (fst (@Http.fetchWithRedirects Sample.node
                      (Sample.served SamplePdf.moved)
                      DownloadCAR.baseHeaders DownloadCAR.REFERER 8
                      Sample.start))
     = requests Sample.start + 9.
Proof.
  assert (redirecting (Sample.served SamplePdf.moved)) as R.
  { intros n u hs. eexists; eexists. split; reflexivity. }
  split; [exact R|].
  exact (@fetch_redirect_loop Sample.node (Sample.served SamplePdf.moved)
           DownloadCAR.baseHeaders DownloadCAR.REFERER 8 Sample.start R).
Defined.

Lemma fetch_keeps_cookies_witness :
  let r := @Http.fetchWithRedirects Sample.node
             (Sample.served SamplePdf.moved) DownloadCAR.baseHeaders
             DownloadCAR.REFERER 5 SamplePdf.session in
  NoDup (keys (cookieJar SamplePdf.session))
  /\ NoDup (keys (cookieJar (fst r)))
  /\ snd r = Threw TooManyRedirects
  /\ keys (cookieJar SamplePdf.session) = [lit "sid"]
  /\ keys (cookieJar (fst r)) = [lit "sid"; lit "hop"]
  /\ cookiesSent (log (fst r))
     = [ lit "sid=abc"; lit "sid=abc; hop=1"; lit "sid=abc; hop=1";
         lit "sid=abc; hop=1"; lit "sid=abc; hop=1"; lit "sid=abc; hop=1" ].
Proof.
  intros r.
  assert (NoDup (keys (cookieJar SamplePdf.session))) as ND.
  { repeat constructor. intros []. }
  split; [exact ND|]. split.
  - exact (proj1 (proj2 (@fetch_keeps_cookies Sample.node
                           (Sample.served SamplePdf.moved)
                           DownloadCAR.baseHeaders DownloadCAR.REFERER 5
                           SamplePdf.session)) ND).
  - repeat split; vm_compute; reflexivity.
Defined.

(** ** Splitting at a character *)

Lemma hd_cons_head (c : char) (ls : list jsstring) :
  hd [] (cons_head c ls) = c :: hd [] ls.
Proof. destruct ls; reflexivity. Qed.

Lemma splitOn_other (sep c : char) (s : jsstring) :
  c <> sep -> splitOn sep (c :: s) = cons_head c (splitOn sep s).
Proof.
  intros NE. simpl. destruct (char_eqb c sep) eqn:E; [|reflexivity].
  apply N.eqb_eq in E. contradiction.
Qed.

Lemma splitOn_sep (sep : char) (s : jsstring) :
  splitOn sep (sep :: s) = [] :: splitOn sep s.
Proof. simpl. unfold char_eqb. now rewrite N.eqb_refl. Qed.

Lemma splitOn_nonempty (sep : char) (s : jsstring) : splitOn sep s <> [].
Proof.
  induction s as [|c r IH]; [discriminate|]. simpl.
  destruct (char_eqb c sep); [discriminate|].
  destruct (splitOn sep r); discriminate.
Qed.

Lemma splitOn_app_sep (sep : char) (a b : jsstring) :
  ~ In sep a -> splitOn sep (a ++ sep :: b) = a :: splitOn sep b.
Proof.
  induction a as [|c a IH]; intros NI.
  - apply splitOn_sep.
  - rewrite <- app_comm_cons, splitOn_other, IH; [reflexivity | |].
    + intros I. apply NI. now right.
    + intros ->. apply NI. now left.
Qed.

Lemma splitOn_none (sep : char) (a : jsstring) :
  ~ In sep a -> splitOn sep a = [a].
Proof.
  induction a as [|c a IH]; intros NI; [reflexivity|].
  rewrite splitOn_other, IH; [reflexivity | |].
  - intros I. apply NI. now right.
  - intros ->. apply NI. now left.
Qed.

Lemma before_app (sep : char) (a b : jsstring) :
  ~ In sep a -> before sep (a ++ b) = a ++ before sep b.
Proof.
  unfold before. induction a as [|c a IH]; intros NI; [reflexivity|].
  rewrite <- app_comm_cons, splitOn_other, hd_cons_head, IH; [reflexivity | |].
  - intros I. apply NI. now right.
  - intros ->. apply NI. now left.
Qed.

(** ** Cookies of a response *)

(** X4: what one [set-cookie] line stores.  The name is the text before
    the first [=], the value the text between the first [=] and the next
    [=] or [;] (a value that holds a [=] is cut there), both trimmed; the
    attributes after [;] are ignored.  A line with no [=] before its
    first [;], with an empty name or with an empty value leaves the jar
    as it is. *)
Theorem storeCookie_edges (j : jar) (k v tail : jsstring) :
  (tail = [] \/ exists t, tail = 59%N :: t \/ tail = 61%N :: t) ->
  ~ In 61%N k -> ~ In 59%N k -> ~ In 61%N v -> ~ In 59%N v ->
  (k <> [] -> v <> [] ->
   storeCookie j (k ++ 61%N :: v ++ tail) = jar_set (trim k) (trim v) j)
  /\ storeCookie j (k ++ 61%N :: tail) = j
  /\ storeCookie j (61%N :: v ++ tail) = j
  /\ storeCookie j k = j
  /\ storeCookie j (k ++ 59%N :: v ++ 61%N :: tail) = j.
Proof.
  intros T Ek Sk Ev Sv.
  assert (exists t1, before 59%N tail = t1
                     /\ (t1 = [] \/ exists x, t1 = 61%N :: x)) as [t1 [B1 T1]].
  { destruct T as [->|[t [->| ->]]].
    - exists []. split; [reflexivity | now left].
    - exists []. split; [|now left]. unfold before. now rewrite splitOn_sep.
    - eexists. split; [reflexivity|]. right. unfold before.
      rewrite splitOn_other by discriminate. rewrite hd_cons_head. eauto. }
  assert (forall w, ~ In 61%N w -> ~ In 59%N w ->
            exists r, splitOn 61%N (before 59%N (k ++ 61%N :: w ++ tail))
                      = k :: w :: r) as Pair.
  { intros w Ew Sw.
    rewrite (before_app 59%N k) by assumption.
    change (61%N :: w ++ tail) with ([61%N] ++ w ++ tail).
    rewrite (before_app 59%N [61%N]) by (intros [E|[]]; discriminate).
    rewrite (before_app 59%N w) by assumption. rewrite B1.
    change (k ++ [61%N] ++ w ++ t1) with (k ++ 61%N :: w ++ t1).
    rewrite splitOn_app_sep by assumption.
    destruct T1 as [->|[x ->]].
    - rewrite app_nil_r, splitOn_none by assumption. now exists [].
    - rewrite splitOn_app_sep by assumption. eauto. }
  unfold storeCookie. fold (before 59%N (k ++ 61%N :: v ++ tail)).
  fold (before 59%N (k ++ 61%N :: tail)).
  fold (before 59%N (61%N :: v ++ tail)). fold (before 59%N k).
  fold (before 59%N (k ++ 59%N :: v ++ 61%N :: tail)).
  split; [|split; [|split; [|split]]].
  - intros Nk Nv. destruct (Pair v Ev Sv) as [r ->].
    apply str_eqb_neq in Nk, Nv. now rewrite Nk, Nv.
  - destruct (Pair [] (fun I => I) (fun I => I)) as [r E].
    simpl app in E. rewrite E. simpl. now rewrite andb_false_r.
  - change (61%N :: v ++ tail) with ([] ++ 61%N :: v ++ tail).
    assert (exists r, splitOn 61%N (before 59%N ([] ++ 61%N :: v ++ tail))
                      = [] :: v :: r) as [r ->].
    { simpl app. change (61%N :: v ++ tail) with ([61%N] ++ v ++ tail).
      rewrite (before_app 59%N [61%N]) by (intros [E|[]]; discriminate).
      rewrite (before_app 59%N v) by assumption. rewrite B1.
      change ([61%N] ++ v ++ t1) with ([] ++ 61%N :: v ++ t1).
      rewrite splitOn_app_sep by (intros []).
      destruct T1 as [->|[x ->]].
      - rewrite app_nil_r, splitOn_none by assumption. now exists [].
      - rewrite splitOn_app_sep by assumption. eauto. }
    reflexivity.
  - rewrite <- (app_nil_r k) at 1. rewrite (before_app 59%N k) by assumption.
    unfold before at 1. simpl. rewrite app_nil_r, splitOn_none by assumption.
    reflexivity.
  - rewrite (before_app 59%N k) by assumption.
    unfold before at 1. rewrite splitOn_sep. simpl hd.
    rewrite app_nil_r, splitOn_none by assumption. reflexivity.
Qed.

(** The line [sid=YWJj==; Path=/]: the value is cut at its first [=]. *)
Lemma storeCookie_edges_witness :
  let k := lit "sid" in
  let v := lit "YWJj" in
  let tail := lit "==; Path=/" in
  (tail = [] \/ exists t, tail = 59%N :: t \/ tail = 61%N :: t)
  /\ ~ In 61%N k /\ ~ In 59%N k /\ ~ In 61%N v /\ ~ In 59%N v
  /\ k <> [] /\ v <> []
  /\ storeCookie [] (lit "sid=YWJj==; Path=/") = [(lit "sid", lit "YWJj")].
Proof.
  intros k v tail.
  assert (tail = [] \/ exists t, tail = 59%N :: t \/ tail = 61%N :: t) as T
      by (right; exists (lit "=; Path=/"); now right).
  assert (~ In 61%N k) as Ek by (simpl; intuition discriminate).
  assert (~ In 59%N k) as Sk by (simpl; intuition discriminate).
  assert (~ In 61%N v) as Ev by (simpl; intuition discriminate).
  assert (~ In 59%N v) as Sv by (simpl; intuition discriminate).
  assert (k <> []) as Nk by discriminate.
  assert (v <> []) as Nv by discriminate.
  split; [exact T|]. split; [exact Ek|]. split; [exact Sk|].
  split; [exact Ev|]. split; [exact Sv|]. split; [exact Nk|].
  split; [exact Nv|].
  exact (proj1 (storeCookie_edges [] k v tail T Ek Sk Ev Sv) Nk Nv).
Defined.

(** X5: the content type the downloaders compare: the parameters after
    the first [;] are ignored and the rest is trimmed; a response with
    no content type has the empty type, which is never accepted by the
    manifest downloader. *)
Theorem mimeOf_parameters (res : response) (t params : jsstring) :
  ~ In 59%N t ->
  (content_type res = Some (t ++ 59%N :: params) -> mimeOf res = trim t)
  /\ (content_type res = Some t -> mimeOf res = trim t)
  /\ (content_type res = None ->
      mimeOf res = [] /\ DownloadCAR.rejected res = true).
Proof.
  intros NI. unfold mimeOf, DownloadCAR.rejected. split; [|split].
  - intros ->. now rewrite splitOn_app_sep.
  - intros ->. now rewrite splitOn_none.
  - intros E. unfold mimeOf. rewrite E. split; reflexivity.
Qed.

Lemma mimeOf_parameters_witness :
  let res := Sample.page in
  ~ In 59%N (lit "text/html")
  /\ content_type res = Some (lit "text/html" ++ 59%N :: lit " charset=utf-8")
  /\ mimeOf res = trim (lit "text/html").
Proof.
  intros res.
  assert (~ In 59%N (lit "text/html")) as NI
      by (simpl; intuition discriminate).
  split; [exact NI|]. split; [reflexivity|].
  exact (proj1 (mimeOf_parameters res (lit "text/html") (lit " charset=utf-8")
                  NI) eq_refl).
Defined.

(** ** What a download keeps and writes *)

Section DownloadEffects.
Context `{Node}.
Variable net : network.

Lemma fetchCAR_keeps (P : state -> Prop) :
  (forall s u hs, P s ->
     P {| requests := S (requests s); cookieJar := cookieJar s;
          log := log s ++ [EvRequest u hs] |}) ->
  (forall s res, P s ->
     P {| requests := requests s;
          cookieJar := storeCookies res (cookieJar s); log := log s |}) ->
  forall n u s s' o,
    DownloadCAR.fetchWithRedirects net u n s = (s', o) -> P s -> P s'.
Proof.
  intros Sent Stored n u s s' o F Ps.
  pose proof (fetch_keeps net DownloadCAR.baseHeaders P Sent Stored n u s Ps)
    as K.
  unfold DownloadCAR.fetchWithRedirects in F. now rewrite F in K.
Qed.

Lemma fetchCAA_keeps (P : state -> Prop) :
  (forall s u hs, P s ->
     P {| requests := S (requests s); cookieJar := cookieJar s;
          log := log s ++ [EvRequest u hs] |}) ->
  (forall s res, P s ->
     P {| requests := requests s;
          cookieJar := storeCookies res (cookieJar s); log := log s |}) ->
  forall n u s s' o,
    DownloadCAA.fetchWithRedirects net u n s = (s', o) -> P s -> P s'.
Proof.
  intros Sent Stored n u s s' o F Ps.
  pose proof (fetch_keeps net DownloadCAA.baseHeaders P Sent Stored n u s Ps)
    as K.
  unfold DownloadCAA.fetchWithRedirects in F. now rewrite F in K.
Qed.

(** What holds before a download of the manifest downloader and is kept
    by its effects holds after it. *)
Lemma downloadPdf_keeps (P : state -> Prop) :
  (forall s ev, quiet ev -> P s -> P (logged ev s)) ->
  (forall s u hs, P s ->
     P {| requests := S (requests s); cookieJar := cookieJar s;
          log := log s ++ [EvRequest u hs] |}) ->
  (forall s res, P s ->
     P {| requests := requests s;
          cookieJar := storeCookies res (cookieJar s); log := log s |}) ->
  forall e s, P s -> P (fst (DownloadCAR.downloadPdf net e s)).
Proof.
  intros Quiet Sent Stored e s Ps. rewrite downloadPdf_run. cbv zeta.
  destruct (DownloadCAR.fetchWithRedirects net (url e) 8 _)
    as [s1 o1] eqn:F1.
  assert (P s1) as P1
      by (apply (fetchCAR_keeps P Sent Stored _ _ _ _ _ F1);
          now apply Quiet).
  assert (forall res t, P t -> P (fst (settle e res t))) as Settled.
  { intros res t Pt. unfold settle. destruct (DownloadCAR.rejected res);
      cbn [fst]; [assumption|]. apply Quiet; [exact I|]. now apply Quiet. }
  destruct o1 as [res1|er]; [|assumption].
  destruct (DownloadCAR.rejected res1); [|now apply Settled].
  destruct (DownloadCAR.fetchWithRedirects net (url e) 8
              (logged (EvSleep 400) s1)) as [s2 o2] eqn:F2.
  assert (P s2) as P2
      by (apply (fetchCAR_keeps P Sent Stored _ _ _ _ _ F2);
          now apply Quiet).
  destruct o2 as [res2|er]; [now apply Settled | assumption].
Qed.

Lemma each_cons (e : entry) (rest : list entry)
  (acc : list (entry * DownloadCAR.result)) (s : state) :
  DownloadCAR.each net (e :: rest) acc s =
  match DownloadCAR.downloadPdf net e s with
  | (s', Returned r) => DownloadCAR.each net rest (acc ++ [(e, r)]) s'
  | (s', Threw er) => (s', Threw er)
  end.
Proof. reflexivity. Qed.

Lemma each_keeps (P : state -> Prop) :
  (forall s ev, quiet ev -> P s -> P (logged ev s)) ->
  (forall s u hs, P s ->
     P {| requests := S (requests s); cookieJar := cookieJar s;
          log := log s ++ [EvRequest u hs] |}) ->
  (forall s res, P s ->
     P {| requests := requests s;
          cookieJar := storeCookies res (cookieJar s); log := log s |}) ->
  forall entries acc s, P s -> P (fst (DownloadCAR.each net entries acc s)).
Proof.
  intros Quiet Sent Stored.
  induction entries as [|e rest IH]; intros acc s Ps; [exact Ps|].
  rewrite each_cons.
  pose proof (downloadPdf_keeps P Quiet Sent Stored e s Ps) as K.
  destruct (DownloadCAR.downloadPdf net e s) as [s' [r|er]];
    [apply IH | ]; exact K.
Qed.

Lemma each_results (entries : list entry)
  (acc : list (entry * DownloadCAR.result)) (s : state) :
  match snd (DownloadCAR.each net entries acc s) with
  | Returned rs => map fst rs = map fst acc ++ entries
  | Threw _ => True
  end.
Proof.
  revert acc s; induction entries as [|e rest IH]; intros acc s.
  - simpl. now rewrite app_nil_r.
  - rewrite each_cons.
    destruct (DownloadCAR.downloadPdf net e s) as [s' [r|er]]; [|exact I].
    specialize (IH (acc ++ [(e, r)]) s').
    destruct (snd (DownloadCAR.each net rest (acc ++ [(e, r)]) s'));
      [|exact I].
    rewrite IH, map_app, <- app_assoc. reflexivity.
Qed.

Lemma fileEvents_app (l1 l2 : list event) :
  fileEvents (l1 ++ l2) = fileEvents l1 ++ fileEvents l2.
Proof. apply filter_app. Qed.

Lemma reports_app (l1 l2 : list event) :
  reports (l1 ++ l2) = reports l1 ++ reports l2.
Proof. apply flat_map_app. Qed.

(** X6: the manifest downloader touches the file of a document only
    when it accepts the response.  A download that returns a result
    with [ok] true has written a payload of the size it reports, 10240
    bytes or more, to the temporary path and then renamed it to the
    output path, and these are its only writes and renames; one that
    returns a result with [ok] false, and one that fails on the network
    (a failed request, too many redirects), has written and renamed
    nothing.  Nothing is said of a download that fails for another
    reason: the errors of the file system are not in the model. *)
Theorem downloadPdf_files (e : entry) (s : state) :
  let r := DownloadCAR.downloadPdf net e s in
  let out := path_resolve [projectRoot; DownloadCAR.relOut e] in
  let tmp := out ++ lit ".tmp" in
  match snd r with
  | Returned x =>
      DownloadCAR.outPath x = out
      /\ if DownloadCAR.ok x then
           (10240 <= N.of_nat (DownloadCAR.size x))%N
           /\ exists data,
                List.length data = DownloadCAR.size x
                /\ fileEvents (log (fst r))
                   = fileEvents (log s)
                     ++ [EvWriteFile tmp data; EvRename tmp out]
         else fileEvents (log (fst r)) = fileEvents (log s)
  | Threw NetworkError | Threw TooManyRedirects =>
      fileEvents (log (fst r)) = fileEvents (log s)
  | Threw _ => True
  end.
Proof.
  cbv zeta. rewrite downloadPdf_run. cbv zeta.
  set (P := fun t : state => fileEvents (log t) = fileEvents (log s)).
  assert (forall t u hs, P t ->
            P {| requests := S (requests t); cookieJar := cookieJar t;
                 log := log t ++ [EvRequest u hs] |}) as Sent.
  { intros t u hs Pt. unfold P in *. cbn [log].
    rewrite fileEvents_app, Pt. apply app_nil_r. }
  assert (forall t res, P t ->
            P {| requests := requests t;
                 cookieJar := storeCookies res (cookieJar t);
                 log := log t |}) as Stored by (intros t res Pt; exact Pt).
  assert (forall res t, P t ->
            match snd (settle e res t) with
            | Returned x =>
                DownloadCAR.outPath x
                = path_resolve [projectRoot; DownloadCAR.relOut e]
                /\ if DownloadCAR.ok x then
                     (10240 <= N.of_nat (DownloadCAR.size x))%N
                     /\ exists data,
                          List.length data = DownloadCAR.size x
                          /\ fileEvents (log (fst (settle e res t)))
                             = fileEvents (log s)
                               ++ [EvWriteFile
                                     (path_resolve
                                        [projectRoot; DownloadCAR.relOut e]
                                      ++ lit ".tmp") data;
                                   EvRename
                                     (path_resolve
                                        [projectRoot; DownloadCAR.relOut e]
                                      ++ lit ".tmp")
                                     (path_resolve
                                        [projectRoot; DownloadCAR.relOut e])]
                   else fileEvents (log (fst (settle e res t)))
                        = fileEvents (log s)
            | Threw NetworkError | Threw TooManyRedirects =>
                fileEvents (log (fst (settle e res t))) = fileEvents (log s)
            | Threw _ => True
            end) as Settled.
  { intros res t Pt. unfold settle.
    destruct (DownloadCAR.rejected res) eqn:R; cbn [fst snd].
    - split; [reflexivity | exact Pt].
    - split; [reflexivity|]. cbn [DownloadCAR.ok DownloadCAR.size].
      split; [apply rejected_false in R; apply R|].
      exists (body res). split; [reflexivity|].
      unfold logged. cbn [log]. rewrite !fileEvents_app, Pt.
      rewrite <- app_assoc. reflexivity. }
  destruct (DownloadCAR.fetchWithRedirects net (url e) 8 _)
    as [s1 o1] eqn:F1.
  assert (P s1) as P1.
  { apply (fetchCAR_keeps P Sent Stored _ _ _ _ _ F1). unfold P, logged.
    cbn [log]. rewrite fileEvents_app. apply app_nil_r. }
  destruct o1 as [res1|er]; [|destruct er; cbn [fst snd]; (exact P1 || exact I)].
  destruct (DownloadCAR.rejected res1); [|now apply Settled].
  destruct (DownloadCAR.fetchWithRedirects net (url e) 8
              (logged (EvSleep 400) s1)) as [s2 o2] eqn:F2.
  assert (P s2) as P2.
  { apply (fetchCAR_keeps P Sent Stored _ _ _ _ _ F2). unfold P, logged.
    cbn [log]. rewrite fileEvents_app, P1. apply app_nil_r. }
  destruct o2 as [res2|er];
    [now apply Settled | destruct er; cbn [fst snd]; (exact P2 || exact I)].
Qed.

(** X7: the single-document downloader writes its file only for a
    payload that starts with the PDF signature.  A download that
    returns has written this payload, of the size it reports, to the
    temporary path and then renamed it to the output path, and these
    are its only writes and renames; one that fails on the network (a
    failed request, too many redirects) or on a response without the
    signature has written and renamed nothing.  Nothing is said of a
    download that fails for another reason: the errors of the file
    system are not in the model. *)
Theorem downloadPdfCAA_files (u outPath : jsstring) (s : state) :
  let r := DownloadCAA.downloadPdf net u outPath s in
  let tmp := outPath ++ lit ".tmp" in
  match snd r with
  | Returned x =>
      DownloadCAA.outPath x = outPath
      /\ exists data,
           DownloadCAA.looksLikePdf data = true
           /\ DownloadCAA.bytes x = List.length data
           /\ fileEvents (log (fst r))
              = fileEvents (log s) ++ [EvWriteFile tmp data; EvRename tmp outPath]
  | Threw NetworkError | Threw TooManyRedirects | Threw UnexpectedResponse =>
      fileEvents (log (fst r)) = fileEvents (log s)
  | Threw _ => True
  end.
Proof.
  cbv zeta. rewrite downloadPdfCAA_run.
  set (P := fun t : state => fileEvents (log t) = fileEvents (log s)).
  assert (forall t u hs, P t ->
            P {| requests := S (requests t); cookieJar := cookieJar t;
                 log := log t ++ [EvRequest u hs] |}) as Sent.
  { intros t u0 hs Pt. unfold P in *. cbn [log].
    rewrite fileEvents_app, Pt. apply app_nil_r. }
  assert (forall t res, P t ->
            P {| requests := requests t;
                 cookieJar := storeCookies res (cookieJar t);
                 log := log t |}) as Stored by (intros t res Pt; exact Pt).
  assert (forall res t, P t ->
            match snd (settleCAA outPath res t) with
            | Returned x =>
                DownloadCAA.outPath x = outPath
                /\ exists data,
                     DownloadCAA.looksLikePdf data = true
                     /\ DownloadCAA.bytes x = List.length data
                     /\ fileEvents (log (fst (settleCAA outPath res t)))
                        = fileEvents (log s)
                          ++ [EvWriteFile (outPath ++ lit ".tmp") data;
                              EvRename (outPath ++ lit ".tmp") outPath]
            | Threw NetworkError | Threw TooManyRedirects
            | Threw UnexpectedResponse =>
                fileEvents (log (fst (settleCAA outPath res t)))
                = fileEvents (log s)
            | Threw _ => True
            end) as Settled.
  { intros res t Pt. unfold settleCAA.
    destruct (DownloadCAA.looksLikePdf (body res)) eqn:L; cbn [fst snd].
    - split; [reflexivity|]. exists (body res).
      split; [exact L|]. split; [reflexivity|].
      unfold logged. cbn [log]. rewrite !fileEvents_app, Pt.
      rewrite <- app_assoc. reflexivity.
    - exact Pt. }
  destruct (DownloadCAA.fetchWithRedirects net u 8 _) as [s1 o1] eqn:F1.
  assert (P s1) as P1.
  { apply (fetchCAA_keeps P Sent Stored _ _ _ _ _ F1).
    unfold P, emptied, logged. cbn [log]. rewrite fileEvents_app.
    apply app_nil_r. }
  destruct o1 as [res1|er]; [|destruct er; cbn [fst snd]; (exact P1 || exact I)].
  destruct (DownloadCAA.retried res1); [|now apply Settled].
  destruct (DownloadCAA.fetchWithRedirects net u 8
              (logged (EvSleep 400) s1)) as [s2 o2] eqn:F2.
  assert (P s2) as P2.
  { apply (fetchCAA_keeps P Sent Stored _ _ _ _ _ F2). unfold P, logged.
    cbn [log]. rewrite fileEvents_app, P1. apply app_nil_r. }
  destruct o2 as [res2|er];
    [now apply Settled | destruct er; cbn [fst snd]; (exact P2 || exact I)].
Qed.

Lemma carries_names (base : headers) (j0 j1 : jar) (l : list event) :
  incl (keys j0) (keys j1) ->
  Forall (carries base j1) l -> Forall (carries base j0) l.
Proof.
  intros I. apply Forall_impl. intros [u hs| | | | |]; simpl; trivial.
  intros [j [I' E]]. exists j. split; [|exact E].
  eapply incl_tran; eassumption.
Qed.

Lemma sharing_refl (base : headers) (s : state) : sharing base s s.
Proof.
  split; [apply incl_refl|]. exists [].
  split; [now rewrite app_nil_r | constructor].
Qed.

Lemma sharing_trans (base : headers) (s s1 s2 : state) :
  sharing base s s1 -> sharing base s1 s2 -> sharing base s s2.
Proof.
  intros [I1 [n1 [L1 F1]]] [I2 [n2 [L2 F2]]]. split.
  - eapply incl_tran; eassumption.
  - exists (n1 ++ n2). split; [now rewrite L2, L1, <- app_assoc|].
    apply Forall_app. split; [exact F1|].
    now apply carries_names with (cookieJar s1).
Qed.

Lemma sharing_quiet (base : headers) (s : state) (ev : event) :
  quiet ev -> sharing base s (logged ev s).
Proof.
  intros Q. split; [apply incl_refl|]. exists [ev].
  split; [reflexivity|]. repeat constructor.
  destruct ev; simpl in *; trivial; contradiction.
Qed.

Lemma fetchCAR_sharing (u : jsstring) (n : nat) (s s' : state)
  (o : outcome response) :
  DownloadCAR.fetchWithRedirects net u n s = (s', o) ->
  sharing DownloadCAR.baseHeaders s s'.
Proof.
  intros F.
  pose proof (fetch_carries net DownloadCAR.baseHeaders u n s) as K.
  cbv zeta in K. unfold DownloadCAR.fetchWithRedirects in F.
  now rewrite F in K.
Qed.

Lemma settle_sharing (e : entry) (res : response) (s : state) :
  sharing DownloadCAR.baseHeaders s (fst (settle e res s)).
Proof.
  unfold settle. destruct (DownloadCAR.rejected res); cbn [fst].
  - apply sharing_refl.
  - eapply sharing_trans; apply sharing_quiet; exact I.
Qed.

(** The requests of a download carry the jar as it stands. *)
Lemma downloadPdf_sharing (e : entry) (s : state) :
  sharing DownloadCAR.baseHeaders s (fst (DownloadCAR.downloadPdf net e s)).
Proof.
  rewrite downloadPdf_run. cbv zeta.
  destruct (DownloadCAR.fetchWithRedirects net (url e) 8 _)
    as [s1 o1] eqn:F1.
  assert (sharing DownloadCAR.baseHeaders s s1) as S1.
  { eapply sharing_trans; [|exact (fetchCAR_sharing _ _ _ _ _ F1)].
    apply sharing_quiet. exact I. }
  destruct o1 as [res1|er]; [|exact S1].
  destruct (DownloadCAR.rejected res1).
  - destruct (DownloadCAR.fetchWithRedirects net (url e) 8
                (logged (EvSleep 400) s1)) as [s2 o2] eqn:F2.
    assert (sharing DownloadCAR.baseHeaders s s2) as S2.
    { eapply sharing_trans; [exact S1|].
      eapply sharing_trans; [|exact (fetchCAR_sharing _ _ _ _ _ F2)].
      apply sharing_quiet. exact I. }
    destruct o2 as [res2|er]; [|exact S2].
    eapply sharing_trans; [exact S2 | apply settle_sharing].
  - eapply sharing_trans; [exact S1 | apply settle_sharing].
Qed.

Lemma each_sharing (entries : list entry)
  (acc : list (entry * DownloadCAR.result)) (s : state) :
  sharing DownloadCAR.baseHeaders s
    (fst (DownloadCAR.each net entries acc s)).
Proof.
  revert acc s; induction entries as [|e rest IH]; intros acc s;
    [apply sharing_refl|].
  rewrite each_cons. pose proof (downloadPdf_sharing e s) as D.
  destruct (DownloadCAR.downloadPdf net e s) as [s' [r|er]]; [|exact D].
  eapply sharing_trans; [exact D | apply IH].
Qed.

(** X8: the cookies are shared by the documents of a run of the manifest
    downloader.  Over any number of downloads no cookie is dropped and
    names that were distinct stay distinct; every request of the run
    has, in its [Cookie] header, the jar as it stands then, which holds
    the names of the jar at the start at least.  In particular the
    requests for the documents after the first carry the cookies that
    the jar holds when the first download ends, those set by its
    responses among them. *)
Theorem each_keeps_cookies (entries : list entry)
  (acc : list (entry * DownloadCAR.result)) (s : state) :
  let r := DownloadCAR.each net entries acc s in
  incl (keys (cookieJar s)) (keys (cookieJar (fst r)))
  /\ (NoDup (keys (cookieJar s)) -> NoDup (keys (cookieJar (fst r))))
  /\ (exists new,
        log (fst r) = log s ++ new
        /\ Forall (carries DownloadCAR.baseHeaders (cookieJar s)) new)
  /\ match entries with
     | [] => fst r = s
     | e :: rest =>
         let first := DownloadCAR.downloadPdf net e s in
         match snd first with
         | Returned _ =>
             sharing DownloadCAR.baseHeaders s (fst first)
             /\ sharing DownloadCAR.baseHeaders (fst first) (fst r)
         | Threw _ => fst r = fst first
         end
     end.
Proof.
  cbv zeta. destruct (each_sharing entries acc s) as [I C].
  split; [exact I|]. split; [|split; [exact C|]].
  - apply (each_keeps
             (fun s' => NoDup (keys (cookieJar s))
                        -> NoDup (keys (cookieJar s')))).
    + intros t ev _ P. exact P.
    + intros t u hs P. exact P.
    + intros t res N ND. cbn [cookieJar].
      now apply storeCookies_keys, N.
    + trivial.
  - destruct entries as [|e rest]; [reflexivity|].
    rewrite each_cons. pose proof (downloadPdf_sharing e s) as D.
    destruct (DownloadCAR.downloadPdf net e s) as [s' [x|er]];
      cbn [fst snd] in *; [|reflexivity].
    split; [exact D | apply each_sharing].
Qed.

(** X9: a run of the manifest downloader that returns has one result
    per entry, in the order of the manifest, its two counts add up to
    the number of entries, and it has written one report, at the
    path of the report; a run that fails has written no report. *)
Theorem download_main_summary (entries : list entry) (s : state) :
  let r := DownloadCAR.main net entries s in
  match snd r with
  | Returned sm =>
      map fst (DownloadCAR.results sm) = entries
      /\ DownloadCAR.okCount sm + DownloadCAR.failCount sm
         = List.length entries
      /\ reports (log (fst r))
         = reports (log s)
           ++ [path_resolve [projectRoot; lit "download"; lit "car";
                             lit "report.json"]]
  | Threw _ => reports (log (fst r)) = reports (log s)
  end.
Proof.
  cbv zeta. unfold DownloadCAR.main, DownloadCAR.warmSession. run.
  set (P := fun t : state => reports (log t) = reports (log s)).
  assert (forall t u hs, P t ->
            P {| requests := S (requests t); cookieJar := cookieJar t;
                 log := log t ++ [EvRequest u hs] |}) as Sent.
  { intros t u hs Pt. unfold P in *. cbn [log].
    rewrite reports_app, Pt. apply app_nil_r. }
  assert (forall t res, P t ->
            P {| requests := requests t;
                 cookieJar := storeCookies res (cookieJar t);
                 log := log t |}) as Stored by (intros t res Pt; exact Pt).
  assert (forall t ev, quiet ev -> P t -> P (logged ev t)) as Quiet.
  { intros t ev Q Pt. unfold P, logged in *. cbn [log].
    rewrite reports_app, Pt. destruct ev; try contradiction; apply app_nil_r. }
  destruct (DownloadCAR.fetchWithRedirects net DownloadCAR.REFERER 5
              (emptied s)) as [s0 o0] eqn:F0.
  cbn [fst].
  assert (P s0) as P0
      by (apply (fetchCAR_keeps P Sent Stored _ _ _ _ _ F0); reflexivity).
  pose proof (each_keeps P Quiet Sent Stored entries [] s0 P0) as Pe.
  pose proof (each_results entries [] s0) as Re.
  destruct (DownloadCAR.each net entries [] s0) as [s1 [rs|er]];
    cbn [fst snd] in *; [|exact Pe].
  split; [exact Re|]. split.
  - pose proof (filter_length_le (fun r => DownloadCAR.ok (snd r)) rs) as L.
    assert (List.length rs = List.length entries) as Len
        by (rewrite <- (length_map fst rs), Re; reflexivity).
    cbn [DownloadCAR.okCount DownloadCAR.failCount]. lia.
  - unfold logged. cbn [log]. rewrite !reports_app. unfold P in Pe.
    rewrite Pe. simpl. now rewrite app_nil_r.
Qed.

End DownloadEffects.

Lemma each_keeps_cookies_witness :
  let r := @DownloadCAR.each Sample.node SamplePdf.portal
             [Sample.e087; Sample.e012] [] SamplePdf.session in
  NoDup (keys (cookieJar SamplePdf.session))
  /\ NoDup (keys (cookieJar (fst r)))
  /\ keys (cookieJar SamplePdf.session) = [lit "sid"]
  /\ keys (cookieJar (fst r)) = [lit "sid"; lit "token"]
  /\ requested (log (fst r))
     = [ url Sample.e087; url Sample.e087; url Sample.e012; url Sample.e012 ]
  /\ cookiesSent (log (fst r))
     = [ lit "sid=abc"; lit "sid=abc; token=t1"; lit "sid=abc; token=t1";
         lit "sid=abc; token=t1" ].
Proof.
  intros r.
  assert (NoDup (keys (cookieJar SamplePdf.session))) as ND.
  { repeat constructor. intros []. }
  split; [exact ND|]. split.
  - exact (proj1 (proj2 (@each_keeps_cookies Sample.node SamplePdf.portal
                           [Sample.e087; Sample.e012] [] SamplePdf.session))
             ND).
  - repeat split; vm_compute; reflexivity.
Defined.

(** ** Spacing, part numbers and accounting of the combiner *)

Section Spacing.
Import Combine.

Lemma flush_length (k : nat) : List.length (flush k) <= k.
Proof.
  unfold flush. destruct (Nat.leb_spec 3 k); simpl; [lia|].
  rewrite repeat_length. lia.
Qed.

Lemma collapse_length (k : nat) (t : jsstring) :
  List.length (collapse k t) <= k + List.length t.
Proof.
  revert k; induction t as [|c t IH]; intros k.
  - simpl. pose proof (flush_length k). lia.
  - destruct (char_eqb c LF) eqn:E.
    + apply N.eqb_eq in E. subst c. rewrite collapse_LF.
      specialize (IH (S k)). simpl. lia.
    + rewrite (collapse_other _ _ _ E), length_app. simpl.
      pose proof (flush_length k). specialize (IH 0). lia.
Qed.

Lemma repeat_snoc (c : char) (k : nat) (t : jsstring) :
  repeat c (S k) ++ t = repeat c k ++ c :: t.
Proof.
  induction k as [|k IH]; [reflexivity|].
  change (repeat c (S (S k)) ++ t) with (c :: (repeat c (S k) ++ t)).
  now rewrite IH.
Qed.

Lemma collapse_fixed (k : nat) (t : jsstring) :
  k <= 2 -> newlines_bounded k t = true -> collapse k t = repeat LF k ++ t.
Proof.
  revert k; induction t as [|c t IH]; intros k K B.
  - simpl. unfold flush. destruct (Nat.leb_spec 3 k); [lia|].
    now rewrite app_nil_r.
  - simpl in B. destruct (char_eqb c LF) eqn:E.
    + apply N.eqb_eq in E. subst c. apply andb_true_iff in B as [B1 B2].
      apply Nat.leb_le in B1. rewrite collapse_LF, IH by (lia || assumption).
      apply repeat_snoc.
    + rewrite (collapse_other _ _ _ E), (IH 0) by (lia || assumption).
      unfold flush. destruct (Nat.leb_spec 3 k); [lia | reflexivity].
Qed.

Lemma no_newline_triple_bounded (k : nat) (t : jsstring) :
  k <= 2 -> no_newline_triple (repeat LF k ++ t) ->
  newlines_bounded k t = true.
Proof.
  revert k; induction t as [|c t IH]; intros k K NT; [reflexivity|].
  simpl. destruct (char_eqb c LF) eqn:E.
  - apply N.eqb_eq in E. subst c.
    assert (k <= 1) as K1.
    { destruct k as [|[|[|k]]]; try lia.
      exfalso. apply (NT [] t). reflexivity. }
    apply andb_true_iff. split; [apply Nat.leb_le; lia|].
    apply IH; [lia|]. now rewrite repeat_snoc.
  - apply (IH 0); [lia|]. intros pre post Eq.
    apply (NT (repeat LF k ++ c :: pre) post).
    simpl in Eq. rewrite Eq, <- app_assoc. reflexivity.
Qed.

(** X10: [normalizeSpacing] is idempotent, leaves a text with no three
    line feeds in a row as it is, and never makes a text longer. *)
Theorem normalizeSpacing_idempotent (t : jsstring) :
  normalizeSpacing (normalizeSpacing t) = normalizeSpacing t
  /\ (no_newline_triple t -> normalizeSpacing t = t)
  /\ List.length (normalizeSpacing t) <= List.length t.
Proof.
  unfold normalizeSpacing. split; [|split].
  - apply (collapse_fixed 0); [lia | apply collapse_bounded].
  - intros NT. apply (collapse_fixed 0); [lia|].
    apply (no_newline_triple_bounded 0); [lia | exact NT].
  - apply (collapse_length 0).
Qed.

Lemma normalizeSpacing_idempotent_witness :
  let t := lit "a" ++ [LF; LF] ++ lit "b" ++ [LF] in
  no_newline_triple t /\ normalizeSpacing t = t.
Proof.
  intros t.
  assert (no_newline_triple t) as NT
      by (apply (newlines_bounded_no_triple 0); reflexivity).
  split; [exact NT|].
  exact (proj1 (proj2 (normalizeSpacing_idempotent t)) NT).
Defined.

End Spacing.

Lemma chars_uint_uint_chars (u : Decimal.uint) :
  chars_uint (uint_chars u) = u.
Proof. induction u; simpl; now rewrite ?IHu. Qed.

Lemma uint_chars_digits (u : Decimal.uint) :
  forallb is_digit (uint_chars u) = true.
Proof. induction u; simpl; auto. Qed.

Lemma parsePart_zeros (k : nat) (s : jsstring) :
  parsePart (repeat 48%N k ++ s) = parsePart s.
Proof. induction k as [|k IH]; [reflexivity|]. exact IH. Qed.

Lemma parsePart_zeroPadPart (k : N) : parsePart (zeroPadPart k) = k.
Proof.
  unfold zeroPadPart, padStart, String_of_N.
  rewrite parsePart_zeros. unfold parsePart.
  rewrite chars_uint_uint_chars. apply DecimalN.Unsigned.of_to.
Qed.

Lemma zeroPadPart_inj (a b : N) : zeroPadPart a = zeroPadPart b -> a = b.
Proof.
  intros E.
  rewrite <- (parsePart_zeroPadPart a), <- (parsePart_zeroPadPart b).
  now rewrite E.
Qed.

Lemma NoDup_map_inj {A B : Type} (f : A -> B) (l : list A) :
  (forall a b, f a = f b -> a = b) -> NoDup l -> NoDup (map f l).
Proof.
  intros Inj. induction 1 as [|x r NI ND IH]; simpl; constructor; auto.
  intros I. apply in_map_iff in I as [y [E I]].
  apply Inj in E. now subst.
Qed.

(** X11: for part numbers that are safe integers, the zero-padded code
    reads back as the part number, so different parts have different
    codes (and different markers and default paths); the code has three
    characters or more, all digits. *)
Theorem zeroPadPart_roundtrip (n m : N) :
  safeInteger n -> safeInteger m ->
  parsePart (zeroPadPart n) = n
  /\ (n <> m -> zeroPadPart n <> zeroPadPart m)
  /\ 3 <= List.length (zeroPadPart n)
  /\ forallb is_digit (zeroPadPart n) = true.
Proof.
  intros _ _. split; [apply parsePart_zeroPadPart|]. split; [|split].
  - intros NE E. apply NE. now apply zeroPadPart_inj.
  - unfold zeroPadPart, padStart. rewrite length_app, repeat_length. lia.
  - unfold zeroPadPart, padStart, String_of_N. rewrite forallb_app.
    rewrite uint_chars_digits, andb_true_r.
    apply forallb_forall. intros x I. apply repeat_spec in I. now subst.
Qed.

Lemma zeroPadPart_roundtrip_witness :
  safeInteger 7 /\ safeInteger 1087
  /\ zeroPadPart 7 = lit "007" /\ zeroPadPart 1087 = lit "1087"
  /\ parsePart (lit "007") = 7%N
  /\ zeroPadPart 7 <> zeroPadPart 1087.
Proof.
  assert (safeInteger 7) as S7 by (vm_compute; discriminate).
  assert (safeInteger 1087) as S1087 by (vm_compute; discriminate).
  assert (7%N <> 1087%N) as NE by discriminate.
  destruct (zeroPadPart_roundtrip 7 1087 S7 S1087) as [RT [Inj _]].
  split; [exact S7|]. split; [exact S1087|].
  split; [reflexivity|]. split; [reflexivity|].
  split; [exact RT | exact (Inj NE)].
Defined.

Section Accounting.
Context `{Yaml} `{Node}.
Import Combine.

Lemma listed_or_warned (fs : filesystem) (es : list entry) :
  Forall (readable fs) es ->
  List.length (filter (missing fs) es)
  + List.length (flat_map (rendered fs) es) = List.length es.
Proof.
  induction 1 as [|e r R F IH]; [reflexivity|].
  change (flat_map (rendered fs) (e :: r))
    with (rendered fs e ++ flat_map (rendered fs) r).
  change (filter (missing fs) (e :: r))
    with (if missing fs e then e :: filter (missing fs) r
          else filter (missing fs) r).
  rewrite length_app. unfold readable in R. unfold missing at 1, rendered at 1.
  destruct (fs (mdAbs e)) as [[raw|]|]; simpl; try lia. congruence.
Qed.

(** X12: in a run of the combiner that returns, every entry of the
    manifest is either listed or warned about, never both and never
    dropped: warnings and documents add up to the entries, and the count
    that is logged is the number of documents. *)
Theorem combine_accounting (fs : filesystem) (entries : list entry)
  (r : corpus) :
  main fs entries = Returned r ->
  List.length (warned r) + List.length (documents r) = List.length entries
  /\ combinedCount r = List.length (documents r).
Proof.
  intros E. pose proof (main_spec fs entries) as S. rewrite E in S.
  destruct S as [F [W [D [C _]]]]. split; [|exact C].
  rewrite W, D, length_map.
  rewrite listed_or_warned.
  - apply Permutation_length, sort_perm.
  - apply (Permutation_Forall (Permutation_sym (sort_perm entries)) F).
Qed.

End Accounting.

Lemma combine_accounting_witness :
  exists r,
    @Combine.main Sample.yaml Sample.node Sample.disk Sample.manifest
    = Returned r
    /\ List.length (Combine.warned r) + List.length (Combine.documents r) = 3
    /\ Combine.combinedCount r = List.length (Combine.documents r).
Proof.
  destruct (@Combine.main Sample.yaml Sample.node Sample.disk Sample.manifest)
    as [r|err] eqn:E; [|discriminate (eq_sym E)].
  exists r. split; [reflexivity|].
  exact (@combine_accounting Sample.yaml Sample.node _ _ _ E).
Defined.

(** ** More on the normaliser *)

Lemma nonblank_kept (k : nat) (ls : list jsstring) :
  filter nonblankb (compactLines k ls) = map trimEnd (filter nonblankb ls).
Proof.
  revert k; induction ls as [|l r IH]; intros k; [reflexivity|].
  rewrite compactLines_cons.
  change (filter nonblankb (l :: r))
    with (if nonblankb l then l :: filter nonblankb r
          else filter nonblankb r).
  unfold nonblankb at 2. destruct (trimEnd l) as [|x t] eqn:E.
  - simpl negb. cbv iota. destruct (S k <=? 2); [|apply IH].
    change (filter nonblankb ([] :: compactLines (S k) r))
      with (filter nonblankb (compactLines (S k) r)). apply IH.
  - simpl negb. cbv iota.
    change (filter nonblankb ((x :: t) :: compactLines 0 r))
      with (if nonblankb (x :: t)
            then (x :: t) :: filter nonblankb (compactLines 0 r)
            else filter nonblankb (compactLines 0 r)).
    assert (nonblankb (x :: t) = true) as ->.
    { unfold nonblankb. rewrite <- E, trimEnd_idem, E. reflexivity. }
    simpl map. now rewrite IH, E.
Qed.

(** X13: the normaliser loses no text: the non-blank lines of its output
    are the non-blank lines of its input, in their order, each without
    its trailing white space. *)
Theorem normalize_keeps_text (t : jsstring) :
  filter nonblankb (splitLines (normalizeTextToMarkdown t))
  = map trimEnd (filter nonblankb (splitLines t)).
Proof. rewrite normalize_lines. apply nonblank_kept. Qed.

Lemma join_length (ls : list jsstring) :
  ls <> [] -> S (List.length (join [LF] ls)) = weight ls.
Proof.
  induction ls as [|l r IH]; [congruence|]. intros _.
  destruct r as [|l2 r]; [simpl; lia|].
  change (join [LF] (l :: l2 :: r)) with (l ++ LF :: join [LF] (l2 :: r)).
  rewrite length_app.
  change (List.length (LF :: join [LF] (l2 :: r)))
    with (S (List.length (join [LF] (l2 :: r)))).
  change (weight (l :: l2 :: r)) with (S (List.length l) + weight (l2 :: r)).
  specialize (IH ltac:(discriminate)). lia.
Qed.

Lemma compactLines_weight (k : nat) (ls : list jsstring) :
  weight (compactLines k ls) <= weight ls.
Proof.
  revert k; induction ls as [|l r IH]; intros k; [simpl; lia|].
  rewrite compactLines_cons. pose proof (trimEnd_length l) as L.
  destruct (trimEnd l) as [|x t].
  - destruct (S k <=? 2); simpl; specialize (IH (S k)); lia.
  - simpl in *. specialize (IH 0). lia.
Qed.

Lemma splitLines_weight (t : jsstring) :
  weight (splitLines t) <= S (List.length t).
Proof.
  induction t as [|c r IH]; [simpl; lia|].
  rewrite splitLines_cons. destruct (char_eqb c LF); [simpl; lia|].
  destruct (_ && _); [simpl; lia|].
  pose proof (splitLines_nonempty r) as NE.
  destruct (splitLines r) as [|l ls]; [congruence|]. simpl in *. lia.
Qed.

Lemma noCRLF_line (l rest : jsstring) :
  clean l -> noCRLF rest = true -> noCRLF (l ++ LF :: rest) = true.
Proof.
  induction l as [|c r IH]; intros [N T] R.
  - simpl. now rewrite R.
  - simpl in N. apply andb_true_iff in N as [N1 N2].
    change ((c :: r) ++ LF :: rest) with (c :: (r ++ LF :: rest)).
    change (noCRLF (c :: (r ++ LF :: rest)))
      with (negb (char_eqb c CR
                  && match r ++ LF :: rest with
                     | c2 :: _ => char_eqb c2 LF
                     | [] => false
                     end)
            && noCRLF (r ++ LF :: rest)).
    rewrite IH; [|split; [assumption | now apply trimEnd_tail with c]
                 |assumption].
    rewrite andb_true_r. apply negb_true_iff.
    destruct r as [|c2 r'].
    + simpl. rewrite andb_true_r.
      assert (is_space c = false) as Sp
          by (apply (trimEnd_fixed_last [c] [] c T eq_refl)).
      destruct (char_eqb c CR) eqn:E; [|reflexivity].
      apply N.eqb_eq in E. subst c. discriminate.
    + simpl in N2. apply andb_true_iff in N2 as [N2 _].
      apply negb_true_iff in N2. simpl. rewrite N2. apply andb_false_r.
Qed.

Lemma noCRLF_single (l : jsstring) : noLF l = true -> noCRLF l = true.
Proof.
  induction l as [|c r IH]; [reflexivity|]. intros N.
  simpl in N. apply andb_true_iff in N as [_ N2].
  simpl. rewrite (IH N2), andb_true_r. apply negb_true_iff.
  destruct r as [|c2 r']; [apply andb_false_r|].
  simpl in N2. apply andb_true_iff in N2 as [N2 _].
  apply negb_true_iff in N2. rewrite N2. apply andb_false_r.
Qed.

Lemma noCRLF_join (ls : list jsstring) :
  Forall clean ls -> noCRLF (join [LF] ls) = true.
Proof.
  induction 1 as [|l r C F IH]; [reflexivity|].
  destruct r as [|l2 r]; [simpl; apply noCRLF_single, C|].
  change (join [LF] (l :: l2 :: r)) with (l ++ LF :: join [LF] (l2 :: r)).
  now apply noCRLF_line.
Qed.

(** X14: the normaliser never makes a text longer, and its output has
    plain line feeds as line ends: no line feed comes after a carriage
    return. *)
Theorem normalize_shrinks (t : jsstring) :
  List.length (normalizeTextToMarkdown t) <= List.length t
  /\ noCRLF (normalizeTextToMarkdown t) = true.
Proof.
  unfold normalizeTextToMarkdown. split.
  - pose proof (join_length (compactLines 0 (splitLines t))
                  (compactLines_nonempty _ (splitLines_nonempty t))) as J.
    pose proof (compactLines_weight 0 (splitLines t)).
    pose proof (splitLines_weight t). lia.
  - apply noCRLF_join, compactLines_clean, splitLines_noLF.
Qed.

(** ** The converter *)

Section MapKeys.
Import Convert.
Context {V : Type}.

Lemma mapSet_fresh (k : jsstring) (v : V) (m : list (jsstring * V)) :
  ~ In k (map fst m) -> mapSet k v m = m ++ [(k, v)].
Proof.
  induction m as [|[k' v'] r IH]; intros NI; [reflexivity|].
  simpl. destruct (str_eqb k k') eqn:E.
  - apply str_eqb_eq in E. subst k'. exfalso. apply NI. now left.
  - rewrite IH; [reflexivity|]. intros I. apply NI. now right.
Qed.

Lemma mapSet_keys (k : jsstring) (v : V) (m : list (jsstring * V)) :
  map fst (mapSet k v m) = map fst m
  \/ map fst (mapSet k v m) = map fst m ++ [k] /\ ~ In k (map fst m).
Proof.
  induction m as [|[k' v'] r IH]; [right; split; [reflexivity | intros []]|].
  simpl. destruct (str_eqb k k') eqn:E.
  - apply str_eqb_eq in E. subst k'. now left.
  - destruct IH as [IH|[IH NI]]; [left | right]; simpl; rewrite IH;
      [reflexivity|]. split; [reflexivity|].
    intros [->|I]; [|contradiction].
    assert (str_eqb k k = true) as R by now apply str_eqb_eq.
    congruence.
Qed.

Lemma mapSet_in (k : jsstring) (v : V) (m : list (jsstring * V))
  (p : jsstring) :
  In p (map fst (mapSet k v m)) <-> p = k \/ In p (map fst m).
Proof.
  induction m as [|[k' v'] r IH]; simpl.
  - intuition congruence.
  - destruct (str_eqb k k') eqn:E; simpl.
    + apply str_eqb_eq in E. subst k'. intuition congruence.
    + rewrite IH. intuition congruence.
Qed.

Lemma mapOf_from (pairs m : list (jsstring * V)) :
  let m' := fold_left (fun m kv => mapSet (fst kv) (snd kv) m) pairs m in
  (NoDup (map fst m) -> NoDup (map fst m'))
  /\ (forall p, In p (map fst m') <-> In p (map fst m) \/ In p (map fst pairs))
  /\ List.length m' <= List.length m + List.length pairs
  /\ (NoDup (map fst (m ++ pairs)) -> m' = m ++ pairs).
Proof.
  revert m; induction pairs as [|[k v] r IH]; intros m; cbv zeta.
  - simpl. rewrite app_nil_r. repeat split; auto; try lia.
    + now intros [I|[]].
  - simpl fold_left. specialize (IH (mapSet k v m)). cbv zeta in IH.
    destruct IH as [ND [IN [LE EQ]]]. split; [|split; [|split]].
    + intros N. apply ND.
      destruct (mapSet_keys k v m) as [E|[E NI]]; rewrite E; [assumption|].
      apply NoDup_app; [assumption | repeat constructor; intros [] |].
      intros x I [<-|[]]. contradiction.
    + intros p. rewrite IN, mapSet_in. simpl. intuition congruence.
    + assert (List.length (mapSet k v m) <= S (List.length m)) as L.
      { rewrite <- !(length_map fst).
        destruct (mapSet_keys k v m) as [E|[E _]]; rewrite E;
          [|rewrite length_app; simpl]; lia. }
      simpl. lia.
    + intros N.
      assert (~ In k (map fst m)) as NI.
      { rewrite map_app in N. simpl in N. apply NoDup_remove_2 in N.
        intros I. apply N, in_or_app. now left. }
      rewrite (mapSet_fresh k v m NI) in *.
      rewrite EQ; rewrite <- app_assoc; [reflexivity | exact N].
Qed.

End MapKeys.

Section ConvertMain.
Context `{Pdfjs} `{Node}.
Import Convert.

Lemma step_part (fs : jsstring -> option binnode) (date p : jsstring)
  (e : entry) : resultPart (step fs date p e) = p.
Proof.
  unfold step. destruct (fs _); [|reflexivity].
  destruct (convertOne _ _ _ _); reflexivity.
Qed.

Lemma step_ok (fs : jsstring -> option binnode) (date : jsstring)
  (e : entry) : ok (step fs date (zeroPadPart (part e)) e) = loads fs e.
Proof.
  unfold step, loads, convertOne. destruct (fs _) as [[data|]|]; try reflexivity.
  destruct (PDF_pages data); reflexivity.
Qed.

Lemma each_parts (fs : jsstring -> option binnode) (clock : nat -> jsstring)
  (byPart : list (jsstring * entry)) (i : nat) (rs : list result) :
  map resultPart (each fs clock i byPart rs)
  = map resultPart rs ++ map fst byPart.
Proof.
  revert i rs; induction byPart as [|[p e] r IH]; intros i rs.
  - simpl. now rewrite app_nil_r.
  - simpl each. rewrite IH, map_app. simpl map at 2.
    rewrite step_part, <- app_assoc. reflexivity.
Qed.

Lemma each_ok (fs : jsstring -> option binnode) (clock : nat -> jsstring)
  (es : list entry) (i : nat) (rs : list result) :
  List.length
    (filter ok (each fs clock i
                  (map (fun e => (zeroPadPart (part e), e)) es) rs))
  = List.length (filter ok rs) + List.length (filter (loads fs) es).
Proof.
  revert i rs; induction es as [|e r IH]; intros i rs.
  - simpl. lia.
  - simpl map. simpl each. rewrite IH, filter_app, length_app.
    change (filter ok [step fs (clock i) (zeroPadPart (part e)) e])
      with (if ok (step fs (clock i) (zeroPadPart (part e)) e)
            then [step fs (clock i) (zeroPadPart (part e)) e] else []).
    rewrite step_ok.
    change (filter (loads fs) (e :: r))
      with (if loads fs e then e :: filter (loads fs) r
            else filter (loads fs) r).
    destruct (loads fs e); simpl; lia.
Qed.

(** X15: the converter gives one result for each part code of the
    manifest and no other: the codes of the results are distinct, they
    are the codes of the entries, and the counts of the summary add up
    to the number of results, which is at most the number of entries. *)
Theorem convert_main_parts (fs : jsstring -> option binnode)
  (clock : nat -> jsstring) (entries : list entry) :
  let run := main fs clock entries in
  NoDup (map resultPart (results run))
  /\ (forall p, In p (map resultPart (results run))
                <-> In p (map (fun e => zeroPadPart (part e)) entries))
  /\ okCount run + failCount run = List.length (results run)
  /\ List.length (results run) <= List.length entries.
Proof.
  cbv zeta. unfold main. cbn [results okCount failCount].
  rewrite each_parts. simpl app.
  pose proof (mapOf_from (map (fun e => (zeroPadPart (part e), e)) entries) [])
    as M. cbv zeta in M. fold (mapOf (map (fun e => (zeroPadPart (part e), e))
                                         entries)) in M.
  destruct M as [ND [IN [LE _]]].
  rewrite map_map in IN. simpl in IN.
  split; [apply ND; constructor|]. split; [|split].
  - intros p. rewrite IN. simpl. tauto.
  - pose proof (filter_length_le ok
                  (each fs clock 0
                     (mapOf (map (fun e => (zeroPadPart (part e), e)) entries))
                     [])). lia.
  - rewrite <- (length_map resultPart), each_parts. simpl app.
    rewrite length_map. rewrite length_map in LE. simpl in LE. exact LE.
Qed.

Lemma step_cases (fs : jsstring -> option binnode) (date : jsstring)
  (e : entry) :
  let code := zeroPadPart (part e) in
  let pdfPath := path_resolve [projectRoot; relPdf code e] in
  let r := step fs date code e in
  resultPart r = code
  /\ (fs pdfPath = None -> r = Missing code pdfPath)
  /\ (fs pdfPath <> None -> loads fs e = false -> r = Failed code)
  /\ (ok r = true -> loads fs e = true).
Proof.
  cbv zeta. unfold step, loads, convertOne.
  destruct (fs _) as [[data|]|]; cbn [resultPart ok];
    [destruct (PDF_pages data)| |]; cbn [resultPart ok];
    repeat split; congruence.
Qed.

Lemma each_steps (fs : jsstring -> option binnode) (clock : nat -> jsstring)
  (es : list entry) (i : nat) (rs : list result) :
  exists rs',
    each fs clock i (map (fun e => (zeroPadPart (part e), e)) es) rs
    = rs ++ rs'
    /\ Forall2 (fun e r => exists date,
                  r = step fs date (zeroPadPart (part e)) e) es rs'.
Proof.
  revert i rs; induction es as [|e r IH]; intros i rs.
  - exists []. split; [simpl; now rewrite app_nil_r | constructor].
  - simpl map. simpl each.
    destruct (IH (S i) (rs ++ [step fs (clock i) (zeroPadPart (part e)) e]))
      as [rs' [E F]].
    exists (step fs (clock i) (zeroPadPart (part e)) e :: rs'). split.
    + rewrite E, <- app_assoc. reflexivity.
    + constructor; [now exists (clock i) | exact F].
Qed.

(** X16: when the part numbers of the manifest are distinct, the
    converter gives one result for each entry, in the order of the
    manifest.  The result of an entry whose PDF does not exist is the
    one of a missing PDF; the result of an entry whose PDF exists and
    does not load is a failure; and a result that is a success belongs
    to an entry whose PDF is there and loads, so the number of
    successes is at most the number of such entries.  (A failure to
    write the markdown is not in the model: it turns a success into a
    failure, which these statements allow.) *)
Theorem convert_main_distinct (fs : jsstring -> option binnode)
  (clock : nat -> jsstring) (entries : list entry) :
  NoDup (map part entries) ->
  let run := main fs clock entries in
  map resultPart (results run) = map (fun e => zeroPadPart (part e)) entries
  /\ Forall2
       (fun e r =>
          let code := zeroPadPart (part e) in
          let pdfPath := path_resolve [projectRoot; relPdf code e] in
          (fs pdfPath = None -> r = Missing code pdfPath)
          /\ (fs pdfPath <> None -> loads fs e = false -> r = Failed code)
          /\ (ok r = true -> loads fs e = true))
       entries (results run)
  /\ okCount run <= List.length (filter (loads fs) entries)
  /\ okCount run + failCount run = List.length entries.
Proof.
  intros ND. cbv zeta. unfold main. cbn [results okCount failCount].
  assert (mapOf (map (fun e => (zeroPadPart (part e), e)) entries)
          = map (fun e => (zeroPadPart (part e), e)) entries) as ->.
  { pose proof (mapOf_from (map (fun e => (zeroPadPart (part e), e)) entries)
                  []) as M. cbv zeta in M.
    destruct M as [_ [_ [_ EQ]]]. apply EQ. simpl app.
    rewrite map_map. simpl.
    rewrite <- (map_map part zeroPadPart).
    apply NoDup_map_inj; [exact zeroPadPart_inj | exact ND]. }
  assert (List.length
            (each fs clock 0
               (map (fun e => (zeroPadPart (part e), e)) entries) [])
          = List.length entries) as L.
  { rewrite <- (length_map resultPart), each_parts. simpl app.
    now rewrite !length_map. }
  split; [|split; [|split]].
  - rewrite each_parts. simpl app. now rewrite map_map.
  - destruct (each_steps fs clock entries 0 []) as [rs' [-> F]].
    simpl app. eapply Forall2_impl; [|exact F].
    intros e r [date ->]. cbv zeta.
    pose proof (step_cases fs date e) as C. cbv zeta in C.
    destruct C as [_ C]. exact C.
  - rewrite each_ok. simpl. lia.
  - rewrite L.
    pose proof (filter_length_le ok
                  (each fs clock 0
                     (map (fun e => (zeroPadPart (part e), e)) entries) [])).
    lia.
Qed.

End ConvertMain.

Lemma convert_main_distinct_witness :
  let run := @Convert.main SamplePdf.pdfjs Sample.node SamplePdf.pdfs
               SamplePdf.clock Sample.manifest in
  NoDup (map part Sample.manifest)
  /\ map resultPart (Convert.results run)
     = [lit "087"; lit "012"; lit "100"]
  /\ map Convert.ok (Convert.results run) = [false; true; false]
  /\ Convert.okCount run <= 1
  /\ Convert.okCount run + Convert.failCount run = 3.
Proof.
  intros run.
  assert (NoDup (map part Sample.manifest)) as ND.
  { repeat constructor; simpl; intros I;
      repeat (destruct I as [I|I]; [discriminate I|]); exact I. }
  pose proof (@convert_main_distinct SamplePdf.pdfjs Sample.node SamplePdf.pdfs
                SamplePdf.clock Sample.manifest ND) as [P [_ [O S]]].
  fold run in P, O, S.
  split; [exact ND|]. split; [exact P|].
  split; [vm_compute; reflexivity|].
  split; [exact O | exact S].
Defined.

(** ** From the converter to the combiner *)

Lemma plain_app (a b : jsstring) :
  plain (a ++ b) = plain a && plain b.
Proof. apply forallb_app. Qed.

Lemma plain_cons (c : char) (r : jsstring) :
  plain (c :: r) = true ->
  char_eqb c LF = false /\ char_eqb c CR = false /\ plain r = true.
Proof.
  intros P. simpl in P. apply andb_true_iff in P as [P1 P2].
  apply andb_true_iff in P1 as [P1 P3].
  now rewrite negb_true_iff in P1, P3.
Qed.

Lemma digits_plain (s : jsstring) :
  forallb is_digit s = true -> plain s = true.
Proof.
  intros D. apply forallb_forall. intros c I.
  apply (proj1 (forallb_forall _ _) D) in I. unfold is_digit in I.
  apply andb_true_iff in I as [L U].
  apply N.leb_le in L. apply N.leb_le in U.
  apply andb_true_iff. split; apply negb_true_iff, N.eqb_neq;
    unfold LF, CR; lia.
Qed.

Lemma zeroPadPart_plain (n : N) : plain (zeroPadPart n) = true.
Proof.
  apply digits_plain.
  unfold zeroPadPart, padStart, String_of_N. rewrite forallb_app.
  rewrite uint_chars_digits, andb_true_r.
  apply forallb_forall. intros x I. apply repeat_spec in I. now subst.
Qed.

Lemma splitLines_app_plain (l s : jsstring) :
  plain l = true -> splitLines (l ++ LF :: s) = l :: splitLines s.
Proof.
  induction l as [|c r IH]; intros P; [reflexivity|].
  apply plain_cons in P as [N1 [N2 P]].
  change ((c :: r) ++ LF :: s) with (c :: (r ++ LF :: s)).
  now rewrite splitLines_cons, N1, N2, (IH P).
Qed.

Lemma noCRLF_plain_line (l rest : jsstring) :
  plain l = true -> noCRLF rest = true -> noCRLF (l ++ LF :: rest) = true.
Proof.
  induction l as [|c r IH]; intros P R.
  - simpl. now rewrite R.
  - apply plain_cons in P as [N1 [N2 P]].
    change ((c :: r) ++ LF :: rest) with (c :: (r ++ LF :: rest)).
    change (noCRLF (c :: (r ++ LF :: rest)))
      with (negb (char_eqb c CR
                  && match r ++ LF :: rest with
                     | c2 :: _ => char_eqb c2 LF
                     | [] => false
                     end)
            && noCRLF (r ++ LF :: rest)).
    now rewrite N2, (IH P R).
Qed.

Lemma join_snoc_empty (ls : list jsstring) :
  ls <> [] -> join [LF] (ls ++ [[]]) = join [LF] ls ++ [LF].
Proof.
  induction ls as [|l r IH]; [congruence|]. intros _.
  destruct r as [|l2 r]; [reflexivity|].
  change (join [LF] ((l :: l2 :: r) ++ [[]]))
    with (l ++ LF :: join [LF] ((l2 :: r) ++ [[]])).
  rewrite IH by discriminate.
  change (join [LF] (l :: l2 :: r)) with (l ++ LF :: join [LF] (l2 :: r)).
  now rewrite <- app_assoc.
Qed.

Lemma normalized_line_noCRLF (t : jsstring) :
  noCRLF (normalizeTextToMarkdown t ++ [LF]) = true.
Proof.
  unfold normalizeTextToMarkdown.
  rewrite <- join_snoc_empty
    by apply compactLines_nonempty, splitLines_nonempty.
  apply noCRLF_join, Forall_app. split.
  - apply compactLines_clean, splitLines_noLF.
  - repeat constructor.
Qed.

Lemma is_delimiter_head (c : char) (r : jsstring) :
  is_space c = false -> c <> 45%N -> Combine.is_delimiter (c :: r) = false.
Proof.
  intros Sp Ne. unfold Combine.is_delimiter, trim.
  change (trimStart (c :: r)) with (if is_space c then trimStart r else c :: r).
  rewrite Sp.
  assert (exists t, trimEnd (c :: r) = c :: t) as [t ->].
  { simpl. destruct (trimEnd r) as [|x u]; [rewrite Sp|]; eauto. }
  simpl. apply N.eqb_neq in Ne. unfold char_eqb. now rewrite Ne.
Qed.

Section RoundTrip.
Context `{Yaml}.
Import Combine.

(** A front matter of four fields before a heading and a body. *)
Lemma extract_artifact (title url pages date heading body : jsstring) :
  plain title = true -> plain url = true -> plain pages = true ->
  plain date = true -> plain heading = true ->
  noCRLF (body ++ [LF]) = true ->
  let blk := [ lit "title: " ++ title; lit "source_url: " ++ url;
               lit "pages: " ++ pages; lit "generated_at: " ++ date ] in
  extractFrontMatterAndBody
    (Convert.artifact
       (join [LF] ([lit "---"] ++ blk ++ [lit "---"; []])) heading body)
  = (metadata (join [LF] blk),
     lit "# " ++ heading ++ [LF; LF] ++ body ++ [LF]).
Proof.
  intros Pt Pu Pp Pd Ph B blk.
  set (rest := lit "# " ++ heading ++ [LF; LF] ++ body ++ [LF]).
  assert (noCRLF rest = true) as R.
  { unfold rest. rewrite app_assoc.
    apply noCRLF_plain_line; [now rewrite plain_app, Ph|].
    exact B. }
  assert (Convert.artifact
            (join [LF] ([lit "---"] ++ blk ++ [lit "---"; []])) heading body
          = lit "---" ++ LF :: (lit "title: " ++ title)
            ++ LF :: (lit "source_url: " ++ url)
            ++ LF :: (lit "pages: " ++ pages)
            ++ LF :: (lit "generated_at: " ++ date)
            ++ LF :: lit "---" ++ LF :: rest) as ->.
  { unfold Convert.artifact, blk. fold rest.
    cbn [app join].
    repeat first [rewrite <- app_assoc | rewrite <- app_comm_cons].
    reflexivity. }
  rewrite <- (join_splitLines rest R) at 2.
  apply (extract_closed _ (lit "---") (lit "---") blk (splitLines rest)).
  - rewrite (splitLines_app_plain (lit "---")) by reflexivity.
    rewrite (splitLines_app_plain (lit "title: " ++ title))
      by now rewrite plain_app, Pt.
    rewrite (splitLines_app_plain (lit "source_url: " ++ url))
      by now rewrite plain_app, Pu.
    rewrite (splitLines_app_plain (lit "pages: " ++ pages))
      by now rewrite plain_app, Pp.
    rewrite (splitLines_app_plain (lit "generated_at: " ++ date))
      by now rewrite plain_app, Pd.
    rewrite (splitLines_app_plain (lit "---")) by reflexivity.
    reflexivity.
  - reflexivity.
  - repeat constructor; apply is_delimiter_head; (reflexivity || discriminate).
  - reflexivity.
Qed.

End RoundTrip.

Section Artifact.
Context `{Yaml} `{Pdfjs}.

(** X17: the artifact that the converter writes for a part is read back
    by the combiner: the front matter is found with its four fields,
    the number of pages among them, and the body is the heading and the
    normalised text, as long as the name, the URL and the date have no
    line break in them. *)
Theorem converted_artifact_read (data : list byte) (e : entry)
  (outFile date : jsstring) (pdfPages : list (list jsval)) :
  PDF_pages data = Some pdfPages ->
  plain (name e) = true -> plain (url e) = true -> plain date = true ->
  exists r,
    Convert.convertOne (BinFile data) e outFile date = Some r
    /\ Convert.pages r = List.length pdfPages
    /\ Combine.extractFrontMatterAndBody (Convert.written r)
       = (metadata
            (join [LF]
               [ lit "title: CAR Part " ++ zeroPadPart (part e)
                   ++ lit " - " ++ name e;
                 lit "source_url: " ++ url e;
                 lit "pages: " ++ String_of_N (N.of_nat (List.length pdfPages));
                 lit "generated_at: " ++ date ]),
          lit "# " ++ name e ++ [LF; LF]
            ++ normalizeTextToMarkdown (Convert.pagesText pdfPages [])
            ++ [LF]).
Proof.
  intros L Pn Pu Pd. unfold Convert.convertOne. rewrite L.
  eexists. split; [reflexivity|]. split; [reflexivity|].
  cbn [Convert.written]. unfold Convert.buildFrontMatter.
  apply (extract_artifact
           (lit "CAR Part " ++ zeroPadPart (part e) ++ lit " - " ++ name e)
           (url e) (String_of_N (N.of_nat (List.length pdfPages))) date
           (name e)); try assumption.
  - rewrite !plain_app, Pn, zeroPadPart_plain. reflexivity.
  - apply digits_plain, uint_chars_digits.
  - apply normalized_line_noCRLF.
Qed.

(** X18: the same holds of the artifact that the converter of the Act
    writes, whose title stands in the front matter and in the
    heading. *)
Theorem convertPdfToMarkdown_read (data : list byte)
  (outPath title url date : jsstring) (pdfPages : list (list jsval)) :
  PDF_pages data = Some pdfPages ->
  plain title = true -> plain url = true -> plain date = true ->
  exists r,
    ConvertCAA.convertPdfToMarkdown (BinFile data) outPath title url date
    = Some r
    /\ ConvertCAA.pages r = List.length pdfPages
    /\ Combine.extractFrontMatterAndBody (ConvertCAA.written r)
       = (metadata
            (join [LF]
               [ lit "title: " ++ title;
                 lit "source_url: " ++ url;
                 lit "pages: " ++ String_of_N (N.of_nat (List.length pdfPages));
                 lit "generated_at: " ++ date ]),
          lit "# " ++ title ++ [LF; LF]
            ++ normalizeTextToMarkdown (Convert.pagesText pdfPages [])
            ++ [LF]).
Proof.
  intros L Pt Pu Pd. unfold ConvertCAA.convertPdfToMarkdown. rewrite L.
  eexists. split; [reflexivity|]. split; [reflexivity|].
  cbn [ConvertCAA.written]. unfold ConvertCAA.buildFrontMatter.
  apply (extract_artifact title url
           (String_of_N (N.of_nat (List.length pdfPages))) date title);
    try assumption.
  - apply digits_plain, uint_chars_digits.
  - apply normalized_line_noCRLF.
Qed.

End Artifact.

Lemma converted_artifact_read_witness :
  exists r,
    @Convert.convertOne SamplePdf.pdfjs (BinFile (body Sample.tiny))
      Sample.e012 (lit "/repo/scripts/md/car/Part_012.md")
      (SamplePdf.clock 0) = Some r
    /\ Convert.pages r = 3
    /\ snd (@Combine.extractFrontMatterAndBody Sample.yaml (Convert.written r))
       = lit "# " ++ name Sample.e012 ++ [LF; LF]
           ++ normalizeTextToMarkdown
                (Convert.pagesText SamplePdf.threePages [])
           ++ [LF].
Proof.
  assert (@PDF_pages SamplePdf.pdfjs (body Sample.tiny)
          = Some SamplePdf.threePages) as L by reflexivity.
  assert (plain (name Sample.e012) = true) as Pn by reflexivity.
  assert (plain (url Sample.e012) = true) as Pu by reflexivity.
  assert (plain (SamplePdf.clock 0) = true) as Pd by reflexivity.
  destruct (@converted_artifact_read Sample.yaml SamplePdf.pdfjs
              (body Sample.tiny) Sample.e012
              (lit "/repo/scripts/md/car/Part_012.md") (SamplePdf.clock 0)
              SamplePdf.threePages L Pn Pu Pd) as [r [C [P E]]].
  exists r. split; [exact C|]. split; [exact P|].
  rewrite E. reflexivity.
Defined.

Lemma convertPdfToMarkdown_read_witness :
  exists r,
    @ConvertCAA.convertPdfToMarkdown SamplePdf.pdfjs
      (BinFile (body Sample.tiny)) (lit "/repo/scripts/md/caa/Act.md")
      (lit "Civil Aviation Act 2023")
      (lit "https://www.legislation.govt.nz/act.pdf")
      (SamplePdf.clock 0) = Some r
    /\ ConvertCAA.pages r = 3
    /\ snd (@Combine.extractFrontMatterAndBody Sample.yaml
              (ConvertCAA.written r))
       = lit "# Civil Aviation Act 2023" ++ [LF; LF]
           ++ normalizeTextToMarkdown
                (Convert.pagesText SamplePdf.threePages [])
           ++ [LF].
Proof.
  assert (@PDF_pages SamplePdf.pdfjs (body Sample.tiny)
          = Some SamplePdf.threePages) as L by reflexivity.
  assert (plain (lit "Civil Aviation Act 2023") = true) as Pt by reflexivity.
  assert (plain (lit "https://www.legislation.govt.nz/act.pdf") = true)
    as Pu by reflexivity.
  assert (plain (SamplePdf.clock 0) = true) as Pd by reflexivity.
  destruct (@convertPdfToMarkdown_read Sample.yaml SamplePdf.pdfjs
              (body Sample.tiny) (lit "/repo/scripts/md/caa/Act.md")
              (lit "Civil Aviation Act 2023")
              (lit "https://www.legislation.govt.nz/act.pdf")
              (SamplePdf.clock 0)
              SamplePdf.threePages L Pt Pu Pd) as [r [C [P E]]].
  exists r. split; [exact C|]. split; [exact P|].
  rewrite E. reflexivity.
Defined.

(** ** The text of the pages *)

Section Pages.
Import Convert.

Lemma pagesText_concat (pdfPages : list (list jsval)) (text : jsstring) :
  pagesText pdfPages text = text ++ concat (map pageText pdfPages).
Proof.
  revert text; induction pdfPages as [|p r IH]; intros text; simpl.
  - now rewrite app_nil_r.
  - now rewrite IH, app_assoc.
Qed.

Lemma splitLines_pages (pdfPages : list (list jsval)) :
  Forall (fun p => plain (pageLine p) = true) pdfPages ->
  splitLines (concat (map pageText pdfPages))
  = flat_map (fun p => [pageLine p; []]) pdfPages ++ [[]].
Proof.
  induction 1 as [|p r P F IH]; [reflexivity|].
  change (concat (map pageText (p :: r)))
    with ((pageLine p ++ [LF; LF]) ++ concat (map pageText r)).
  rewrite <- app_assoc.
  change ([LF; LF] ++ concat (map pageText r))
    with (LF :: LF :: concat (map pageText r)).
  rewrite (splitLines_app_plain _ _ P), splitLines_cons.
  change (char_eqb LF LF) with true. cbv iota. now rewrite IH.
Qed.

Lemma nonblank_pages (pdfPages : list (list jsval)) :
  filter nonblankb (flat_map (fun p => [pageLine p; []]) pdfPages ++ [[]])
  = filter nonblankb (map pageLine pdfPages).
Proof.
  induction pdfPages as [|p r IH]; [reflexivity|].
  change (flat_map (fun p => [pageLine p; []]) (p :: r) ++ [[]])
    with (pageLine p
          :: [] :: (flat_map (fun p => [pageLine p; []]) r ++ [[]])).
  change (map pageLine (p :: r)) with (pageLine p :: map pageLine r).
  change (filter nonblankb
            (pageLine p
             :: [] :: (flat_map (fun p => [pageLine p; []]) r ++ [[]])))
    with (if nonblankb (pageLine p)
          then pageLine p
               :: filter nonblankb
                    (flat_map (fun p => [pageLine p; []]) r ++ [[]])
          else filter nonblankb
                 (flat_map (fun p => [pageLine p; []]) r ++ [[]])).
  change (filter nonblankb (pageLine p :: map pageLine r))
    with (if nonblankb (pageLine p)
          then pageLine p :: filter nonblankb (map pageLine r)
          else filter nonblankb (map pageLine r)).
  now rewrite IH.
Qed.

(** X19: the text of a document has its pages in their order: when no
    text item holds a line break, the non-blank lines of the normalised
    text are the texts of the pages that are not blank, each the items
    of its page joined by single spaces, without white space at its
    end; an item that is no string counts as the empty text. *)
Theorem pages_in_order (pdfPages : list (list jsval)) :
  Forall (fun p => plain (pageLine p) = true) pdfPages ->
  filter nonblankb
    (splitLines (normalizeTextToMarkdown (pagesText pdfPages [])))
  = map trimEnd (filter nonblankb (map pageLine pdfPages)).
Proof.
  intros P. rewrite normalize_lines, nonblank_kept, pagesText_concat.
  simpl app. now rewrite (splitLines_pages _ P), nonblank_pages.
Qed.

End Pages.

Lemma pages_in_order_witness :
  Forall (fun p => plain (pageLine p) = true) SamplePdf.threePages
  /\ filter nonblankb
       (splitLines
          (normalizeTextToMarkdown
             (Convert.pagesText SamplePdf.threePages [])))
     = [lit "Rule 1"; lit "Rule  2"; lit "Rule 3"].
Proof.
  assert (Forall (fun p => plain (pageLine p) = true) SamplePdf.threePages)
    as P by (repeat constructor).
  split; [exact P|].
  rewrite (pages_in_order SamplePdf.threePages P). reflexivity.
Defined.

(** ** Paths of the manifest *)

Lemma endsWithPdf_md (s : jsstring) :
  Convert.endsWithPdf (s ++ lit ".md") = false.
Proof.
  unfold Convert.endsWithPdf. rewrite rev_app_distr.
  change (rev (lit ".md")) with [100%N; 109%N; 46%N]. simpl app.
  destruct (rev s); [reflexivity|]. apply andb_false_r.
Qed.

Lemma endsWithPdf_length (s : jsstring) :
  Convert.endsWithPdf s = true -> 4 <= List.length s.
Proof.
  unfold Convert.endsWithPdf. rewrite <- (length_rev s).
  destruct (rev s) as [|a [|b [|c [|d r]]]]; try discriminate.
  simpl. lia.
Qed.

Lemma mdExtension_nonBlank (s : jsstring) :
  Convert.nonBlank (Some (Convert.mdExtension s)) = None ->
  Convert.mdExtension s = s.
Proof.
  unfold Convert.mdExtension. destruct (Convert.endsWithPdf s); [|reflexivity].
  intros B. exfalso. revert B. unfold Convert.nonBlank.
  assert (forall t : jsstring, trim (t ++ lit ".md") = trimStart t ++ lit ".md"
                               \/ trim (t ++ lit ".md") = lit ".md") as T.
  { intros t. unfold trim. induction t as [|c r IH].
    - now right.
    - change (trimStart ((c :: r) ++ lit ".md"))
        with (if is_space c then trimStart (r ++ lit ".md")
              else (c :: r) ++ lit ".md").
      change (trimStart (c :: r))
        with (if is_space c then trimStart r else c :: r).
      destruct (is_space c); [exact IH|]. left.
      change (lit ".md") with ([46%N; 109%N] ++ [100%N]).
      rewrite !app_assoc, trimEnd_app_last. reflexivity. }
  set (t := firstn (List.length s - 4) s).
  assert (str_eqb (t ++ lit ".md") [] = false) as ->
      by (destruct t; reflexivity).
  assert (str_eqb (trim (t ++ lit ".md")) [] = false) as ->.
  { destruct (T t) as [-> | ->]; [destruct (trimStart t)|]; reflexivity. }
  discriminate.
Qed.

Lemma mdExtension_idem (s : jsstring) :
  Convert.endsWithPdf (Convert.mdExtension s) = false
  /\ Convert.mdExtension (Convert.mdExtension s) = Convert.mdExtension s.
Proof.
  assert (Convert.endsWithPdf (Convert.mdExtension s) = false) as E.
  { unfold Convert.mdExtension.
    destruct (Convert.endsWithPdf s) eqn:P; [apply endsWithPdf_md | exact P]. }
  split; [exact E|]. unfold Convert.mdExtension at 1. now rewrite E.
Qed.

(** X20: a markdown path never keeps the extension of a PDF: after
    [mdExtension] the path does not end in [.pdf] in any letter case; a
    path that ends so has its last four characters replaced by [.md],
    any other path is kept; applying it again changes nothing. *)
Theorem mdExtension_pdf (relMd : jsstring) :
  Convert.endsWithPdf (Convert.mdExtension relMd) = false
  /\ Convert.mdExtension (Convert.mdExtension relMd)
     = Convert.mdExtension relMd
  /\ (Convert.endsWithPdf relMd = false -> Convert.mdExtension relMd = relMd)
  /\ (Convert.endsWithPdf relMd = true ->
      exists stem ext,
        relMd = stem ++ ext /\ List.length ext = 4
        /\ Convert.mdExtension relMd = stem ++ lit ".md").
Proof.
  destruct (mdExtension_idem relMd) as [E I].
  split; [exact E|]. split; [exact I|]. split.
  - intros P. unfold Convert.mdExtension. now rewrite P.
  - intros P. pose proof (endsWithPdf_length _ P) as L.
    exists (firstn (List.length relMd - 4) relMd),
           (skipn (List.length relMd - 4) relMd).
    split; [symmetry; apply firstn_skipn|]. split.
    + rewrite length_skipn. lia.
    + unfold Convert.mdExtension. now rewrite P.
Qed.

Lemma mdExtension_pdf_witness :
  Convert.endsWithPdf (lit "md/car/Part_012.PDF") = true
  /\ exists stem ext,
       lit "md/car/Part_012.PDF" = stem ++ ext /\ List.length ext = 4
       /\ Convert.mdExtension (lit "md/car/Part_012.PDF") = stem ++ lit ".md".
Proof.
  assert (Convert.endsWithPdf (lit "md/car/Part_012.PDF") = true) as P
      by reflexivity.
  split; [exact P|].
  exact (proj2 (proj2 (proj2 (mdExtension_pdf (lit "md/car/Part_012.PDF")))) P).
Defined.

Section Layout.
Context `{Node}.

Lemma nonBlank_same (o : option jsstring) (p : jsstring) :
  Convert.nonBlank o = Some p -> Convert.nonBlank (Some p) = Some p.
Proof.
  destruct o as [q|]; [|discriminate]. unfold Convert.nonBlank.
  destruct (negb (str_eqb q []) && negb (str_eqb (trim q) [])) eqn:E;
    [|discriminate].
  intros Q. injection Q as <-. now rewrite E.
Qed.

Lemma nonBlank_or (x d : jsstring) :
  match Convert.nonBlank (Some x) with Some p => p | None => d end = x
  \/ Convert.nonBlank (Some x) = None.
Proof.
  unfold Convert.nonBlank.
  destruct (negb (str_eqb x []) && negb (str_eqb (trim x) [])); auto.
Qed.

(** X21: the three scripts agree on where the PDF of an entry is: the
    downloader puts it at the path at which the converter looks for it,
    and the update of the manifest writes that path into the entry. *)
Theorem pdf_path_agreement (e : entry) :
  DownloadCAR.relOut e = Convert.relPdf (zeroPadPart (part e)) e
  /\ pdf (UpdateYaml.update e) = Some (DownloadCAR.relOut e).
Proof.
  unfold DownloadCAR.relOut, Convert.relPdf, UpdateYaml.update,
    DownloadCAR.computeDefaultPdfPath, Convert.nonBlank. cbn [pdf].
  destruct (pdf e) as [p|]; [|split; reflexivity].
  destruct (negb (str_eqb p []) && negb (str_eqb (trim p) []));
    split; reflexivity.
Qed.

(** X22: updating the manifest moves nothing: the converter reads and
    writes an updated entry at the paths of the entry as it was, the
    markdown path of an updated entry does not end in [.pdf], and
    updating again changes nothing. *)
Theorem update_keeps_paths (item : entry) :
  let code := zeroPadPart (part item) in
  let item' := UpdateYaml.update item in
  Convert.relPdf code item' = Convert.relPdf code item
  /\ Convert.relMd code item' = Convert.relMd code item
  /\ (exists m, md item' = Some m /\ Convert.endsWithPdf m = false)
  /\ UpdateYaml.update item' = item'.
Proof.
  cbv zeta.
  assert (forall (o : option jsstring) (d : jsstring),
            let x := match Convert.nonBlank o with Some p => p | None => d end in
            match Convert.nonBlank (Some x) with Some p => p | None => d end
            = x) as Pdf.
  { intros o d. cbv zeta. destruct (Convert.nonBlank o) as [p|] eqn:E.
    - now rewrite (nonBlank_same _ _ E).
    - destruct (nonBlank_or d d) as [-> | ->]; reflexivity. }
  assert (forall (o : option jsstring) (d : jsstring),
            let x := Convert.mdExtension
                       match Convert.nonBlank o with
                       | Some p => p | None => d end in
            Convert.mdExtension
              match Convert.nonBlank (Some x) with
              | Some p => p | None => d end
            = x) as Md.
  { intros o d. cbv zeta.
    set (y := match Convert.nonBlank o with Some p => p | None => d end).
    destruct (Convert.nonBlank (Some (Convert.mdExtension y))) as [p|] eqn:E.
    - pose proof (nonBlank_or (Convert.mdExtension y) d) as [Q|Q];
        [|congruence]. rewrite E in Q. subst p.
      apply (proj2 (mdExtension_idem y)).
    - pose proof (mdExtension_nonBlank _ E) as Same. rewrite Same in E.
      rewrite Same. unfold y in *.
      destruct (Convert.nonBlank o) as [p|] eqn:O; [|exact Same].
      rewrite (nonBlank_same _ _ O) in E. discriminate. }
  assert (Convert.relPdf (zeroPadPart (part item)) (UpdateYaml.update item)
          = Convert.relPdf (zeroPadPart (part item)) item) as RP
      by (unfold Convert.relPdf, UpdateYaml.update; cbn [pdf]; apply Pdf).
  assert (Convert.relMd (zeroPadPart (part item)) (UpdateYaml.update item)
          = Convert.relMd (zeroPadPart (part item)) item) as RM
      by (unfold Convert.relMd, UpdateYaml.update; cbn [md]; apply Md).
  split; [exact RP|]. split; [exact RM|]. split.
  - eexists. split; [reflexivity|].
    apply (proj1 (mdExtension_idem _)).
  - unfold UpdateYaml.update at 1.
    fold (Convert.relPdf (zeroPadPart (part (UpdateYaml.update item)))
            (UpdateYaml.update item)).
    fold (Convert.relMd (zeroPadPart (part (UpdateYaml.update item)))
            (UpdateYaml.update item)).
    change (part (UpdateYaml.update item)) with (part item).
    rewrite RP, RM. reflexivity.
Qed.

End Layout.

(** ** The text of the corpus *)

Lemma noLF_app (a b : jsstring) : noLF (a ++ b) = noLF a && noLF b.
Proof. apply forallb_app. Qed.

Lemma plain_noLF (s : jsstring) : plain s = true -> noLF s = true.
Proof.
  intros P. apply forallb_forall. intros c I.
  apply (proj1 (forallb_forall _ _) P) in I.
  now apply andb_true_iff in I as [I _].
Qed.

Lemma zeroPadPart_noLF (n : N) : noLF (zeroPadPart n) = true.
Proof. apply plain_noLF, zeroPadPart_plain. Qed.

Section CorpusText.
Context `{Yaml} `{Node}.
Import Combine.

Lemma collapse_noLF (p t : jsstring) :
  noLF p = true -> collapse 0 (p ++ t) = p ++ collapse 0 t.
Proof.
  induction p as [|c r IH]; intros N; [reflexivity|].
  simpl in N. apply andb_true_iff in N as [N1 N2].
  apply negb_true_iff in N1.
  rewrite <- app_comm_cons, (collapse_other _ _ _ N1), (IH N2).
  reflexivity.
Qed.

Lemma flush_last (k : nat) : exists y, flush (S k) = y ++ [LF].
Proof.
  unfold flush. destruct (3 <=? S k); [now exists [LF]|].
  exists (repeat LF k). change [LF] with (repeat LF 1).
  rewrite <- repeat_app. f_equal. lia.
Qed.

Lemma collapse_before (k : nat) (x t : jsstring) (z : char) :
  char_eqb z LF = false ->
  exists y, collapse k (x ++ LF :: z :: t) = y ++ LF :: z :: collapse 0 t.
Proof.
  intros Z. revert k; induction x as [|c x IH]; intros k.
  - rewrite app_nil_l, collapse_LF, (collapse_other _ _ _ Z).
    destruct (flush_last k) as [y ->]. exists y.
    now rewrite <- app_assoc.
  - rewrite <- app_comm_cons. destruct (char_eqb c LF) eqn:E.
    + apply N.eqb_eq in E. subst c. rewrite collapse_LF. apply IH.
    + rewrite (collapse_other _ _ _ E). destruct (IH 0) as [y ->].
      exists (flush k ++ c :: y). now rewrite <- app_assoc.
Qed.

Lemma block_shape (e : entry) (raw : jsstring) :
  exists meta body,
    extractFrontMatterAndBody raw = (meta, body)
    /\ block e raw
       = beginMarker e
         ++ (name e ++ lit " -->" ++ [LF] ++ lit "```yaml" ++ [LF]
             ++ YAML_stringify (JObj (metaBlock e meta))
             ++ lit "```" ++ [LF] ++ trimEnd body)
         ++ endMarker e.
Proof.
  unfold block, beginMarker, endMarker.
  destruct (extractFrontMatterAndBody raw) as [meta body].
  exists meta, body. split; [reflexivity|].
  repeat rewrite <- app_assoc. reflexivity.
Qed.

(** A document of the corpus goes from its BEGIN marker to its END
    marker. *)
Lemma block_markers (e : entry) (raw : jsstring) :
  exists m,
    normalizeSpacing (block e raw) = beginMarker e ++ m ++ endMarker e.
Proof.
  destruct (block_shape e raw) as [meta [body [_ ->]]].
  set (x := name e ++ _).
  unfold normalizeSpacing. rewrite collapse_noLF.
  - unfold endMarker.
    change ([LF] ++ lit "<!-- END Part_" ++ zeroPadPart (part e) ++ lit " -->")
      with (LF :: 60%N :: lit "!-- END Part_" ++ zeroPadPart (part e)
                             ++ lit " -->").
    destruct (collapse_before 0 x
                (lit "!-- END Part_" ++ zeroPadPart (part e) ++ lit " -->")
                60%N eq_refl) as [y ->].
    exists y. f_equal. f_equal.
    rewrite <- (app_nil_r (lit "!-- END Part_" ++ zeroPadPart (part e)
                           ++ lit " -->")) at 1.
    rewrite collapse_noLF; [now rewrite app_nil_r|].
    now rewrite !noLF_app, zeroPadPart_noLF.
  - unfold beginMarker. now rewrite !noLF_app, zeroPadPart_noLF.
Qed.

Lemma inCorpus_blocks (fs : filesystem) (es : list entry) :
  flat_map (inCorpus fs) es
  = map (fun b => [LF; LF] ++ normalizeSpacing b) (flat_map (blocks fs) es).
Proof.
  induction es as [|e r IH]; [reflexivity|]. simpl.
  now rewrite map_app, IH.
Qed.

Lemma inCorpus_present (fs : filesystem) (es : list entry) :
  flat_map (inCorpus fs) (filter (present fs) es) = flat_map (inCorpus fs) es.
Proof.
  induction es as [|e r IH]; [reflexivity|]. simpl.
  unfold present at 1, inCorpus at 2, blocks.
  destruct (fs (mdAbs e)) as [[raw|]|] eqn:E; simpl; rewrite IH;
    [|reflexivity|reflexivity].
  unfold inCorpus, blocks. now rewrite E.
Qed.

(** The text that is written, document by document. *)
Lemma combined_documents (fs : filesystem) (entries : list entry)
  (r : corpus) :
  main fs entries = Returned r ->
  combined r = corpusText (flat_map (inCorpus fs) (listed fs entries)).
Proof.
  intros E. pose proof (main_spec fs entries) as S. rewrite E in S.
  destruct S as [_ [_ [D [_ T]]]].
  unfold listed. rewrite inCorpus_present, inCorpus_blocks.
  rewrite T, D, rendered_blocks. unfold normalizeSpacing at 1, corpusText.
  pose proof (blocks_bracketed fs (sort entries)) as Fb.
  destruct (flat_map (blocks fs) (sort entries)) as [|b bs]; [reflexivity|].
  rewrite (collapse_join 0 b bs Fb). simpl.
  rewrite <- !app_assoc. reflexivity.
Qed.

Lemma listed_present (fs : filesystem) (entries : list entry) (e : entry) :
  In e (listed fs entries) <-> In e entries /\ present fs e = true.
Proof.
  unfold listed. rewrite filter_In. split; intros [I P]; (split; [|exact P]).
  - apply (Permutation_in _ (sort_perm entries) I).
  - apply (Permutation_in _ (Permutation_sym (sort_perm entries)) I).
Qed.

Lemma inCorpus_marked (fs : filesystem) (es : list entry) :
  Forall (fun e => present fs e = true) es ->
  Forall2 (fun e d => exists m, d = [LF; LF] ++ beginMarker e ++ m
                                    ++ endMarker e)
    es (flat_map (inCorpus fs) es).
Proof.
  induction 1 as [|e r P F IH]; [constructor|]. simpl.
  unfold present in P. unfold inCorpus at 1, blocks.
  destruct (fs (mdAbs e)) as [[raw|]|]; try discriminate.
  simpl. constructor; [|exact IH].
  destruct (block_markers e raw) as [m ->]. now exists m.
Qed.

(** C6: the text of the corpus is made of the documents of the entries
    that have an artifact, by ascending part number, whatever the order
    of the manifest: the text written is these documents one after the
    other, each from its BEGIN marker to its END marker with the code
    of its part, and the entries they belong to are sorted by part
    number; two manifests with the same entries (of distinct part
    numbers) give the same run. *)
Theorem corpus_order (fs : filesystem) (entries : list entry) :
  (forall r, main fs entries = Returned r ->
     combined r = corpusText (flat_map (inCorpus fs) (listed fs entries))
     /\ Forall2 (fun e d => exists m, d = [LF; LF] ++ beginMarker e ++ m
                                        ++ endMarker e)
          (listed fs entries) (flat_map (inCorpus fs) (listed fs entries))
     /\ documents r = flat_map (rendered fs) (listed fs entries)
     /\ StronglySorted by_part (listed fs entries)
     /\ (forall e, In e (listed fs entries)
                   <-> In e entries /\ present fs e = true))
  /\ (forall entries',
        NoDup (map part entries) -> Permutation entries entries' ->
        main fs entries' = main fs entries).
Proof.
  split.
  - intros r E. split; [now apply combined_documents|]. split; [|split; [|split]].
    + apply inCorpus_marked, Forall_forall. intros e I.
      now apply listed_present in I.
    + pose proof (main_spec fs entries) as S. rewrite E in S.
      destruct S as [_ [_ [D _]]]. unfold listed.
      now rewrite rendered_present.
    + apply StronglySorted_filter, sort_sorted.
    + apply listed_present.
  - intros entries' ND P. unfold main.
    now rewrite (sort_permutation entries entries' ND P).
Qed.

Lemma rendered_length (fs : filesystem) (es : list entry) :
  List.length (flat_map (rendered fs) es)
  = List.length (filter (present fs) es).
Proof.
  induction es as [|e l IH]; [reflexivity|]. simpl.
  rewrite length_app, IH. unfold rendered, present.
  destruct (fs (mdAbs e)) as [[raw|]|]; reflexivity.
Qed.

(** C8: an entry whose artifact does not exist gets a warning and no
    document, and the run still returns: the text written is the corpus
    of the entries that have an artifact, in which the entry does not
    stand, the same text as for the manifest without the entries that
    miss their artifact.  The run can only fail on an artifact that
    exists and cannot be read. *)
Theorem missing_artifact_skipped (fs : filesystem) (entries : list entry) :
  (forall err, main fs entries = Threw err ->
     exists e, In e entries /\ fs (mdAbs e) = Some Unreadable)
  /\ (Forall (readable fs) entries ->
      exists r,
        main fs entries = Returned r
        /\ warned r = map missMessage (filter (missing fs) (sort entries))
        /\ combined r = corpusText (flat_map (inCorpus fs) (listed fs entries))
        /\ combinedCount r = List.length (listed fs entries)
        /\ (forall e, In e entries -> fs (mdAbs e) = None ->
              In (missMessage e) (warned r)
              /\ ~ In e (listed fs entries)
              /\ inCorpus fs e = [])
        /\ main fs (filter (fun e => negb (missing fs e)) entries)
           = Returned {| warned := []; documents := documents r;
                         combinedCount := combinedCount r;
                         combined := combined r |}).
Proof.
  split.
  - intros err E. pose proof (main_spec fs entries) as S.
    now rewrite E in S.
  - intros F. destruct (main_returns fs entries F) as [r E].
    exists r. split; [assumption|].
    pose proof (main_spec fs entries) as S. rewrite E in S.
    destruct S as [_ [W [D [C T]]]].
    split; [assumption|]. split; [now apply combined_documents|].
    split; [|split].
    + rewrite C, D. apply rendered_length.
    + intros e I M. split; [|split].
      * rewrite W. apply in_map, filter_In. split.
        -- apply (Permutation_in _ (Permutation_sym (sort_perm entries)) I).
        -- unfold missing. now rewrite M.
      * intros L. apply listed_present in L as [_ P].
        unfold present in P. rewrite M in P. discriminate.
      * unfold inCorpus, blocks. now rewrite M.
    + set (kept := filter (fun e => negb (missing fs e)) entries).
      assert (Forall (readable fs) kept) as Fk
          by (apply incl_Forall with entries;
              [apply incl_filter | assumption]).
      destruct (main_returns fs kept Fk) as [r' E'].
      pose proof (main_spec fs kept) as S'. rewrite E' in S'.
      destruct S' as [_ [W' [D' [C' T']]]].
      unfold kept in W', D'.
      rewrite <- filter_sort, missing_kept in W'.
      rewrite <- filter_sort, rendered_kept, <- D in D'.
      rewrite E'. destruct r' as [w' d' c' t']. simpl in *.
      subst w' d' c' t'. now rewrite <- C, <- T.
Qed.




End CorpusText.

(** The manifest in the order 087, 012, 100 with all artifacts on disk:
    the text written has the documents of Parts 012, 087, 100 in this
    order, and so has the one for the manifest read backwards. *)
Lemma corpus_order_witness :
  let main := @Combine.main Sample.yaml Sample.node Sample.shelf in
  let listed := @listed Sample.node Sample.shelf Sample.manifest in
  map (fun e => zeroPadPart (part e)) listed
  = [lit "012"; lit "087"; lit "100"]
  /\ NoDup (map part Sample.manifest)
  /\ Permutation Sample.manifest (rev Sample.manifest)
  /\ main (rev Sample.manifest) = main Sample.manifest
  /\ exists r,
       main Sample.manifest = Returned r
       /\ Combine.combined r
          = corpusText
              (flat_map (@inCorpus Sample.yaml Sample.node Sample.shelf)
                 listed)
       /\ beginLines (Combine.combined r)
          = [ lit "<!-- BEGIN Part_012: Accidents -->";
              lit "<!-- BEGIN Part_087: Air Traffic -->";
              lit "<!-- BEGIN Part_100: Safety Management -->" ]
       /\ StronglySorted by_part listed.
Proof.
  intros main listed.
  destruct (@corpus_order Sample.yaml Sample.node Sample.shelf Sample.manifest)
    as [Order Invariant].
  assert (NoDup (map part Sample.manifest)) as ND.
  { repeat constructor; simpl; intuition discriminate. }
  assert (Permutation Sample.manifest (rev Sample.manifest)) as P
      by apply Permutation_rev.
  split; [reflexivity|]. split; [exact ND|]. split; [exact P|].
  split; [exact (Invariant _ ND P)|].
  destruct (main Sample.manifest) as [r|err] eqn:E;
    [|discriminate (eq_sym E)].
  destruct (Order r E) as [T [_ [_ [S _]]]].
  exists r. split; [reflexivity|]. split; [exact T|]. split; [|exact S].
  rewrite T. vm_compute. reflexivity.
Defined.

(** Part 087 has no artifact: one warning, and the text written is the
    corpus of Parts 012 and 100, the same as for the manifest without
    Part 087.  With an artifact of Part 087 that cannot be read, the
    run fails. *)
Lemma missing_artifact_skipped_witness :
  let main := @Combine.main Sample.yaml Sample.node in
  Forall (@readable Sample.node Sample.disk) Sample.manifest
  /\ (exists r,
        main Sample.disk Sample.manifest = Returned r
        /\ Combine.warned r
           = [lit "[MISS] skipping Part 087 (not found: /repo/scripts/md/car/Part_087.md)"]
        /\ beginLines (Combine.combined r)
           = [ lit "<!-- BEGIN Part_012: Accidents -->";
               lit "<!-- BEGIN Part_100: Safety Management -->" ]
        /\ Combine.combinedCount r = 2
        /\ main Sample.disk [Sample.e012; Sample.e100]
           = Returned {| Combine.warned := [];
                         Combine.documents := Combine.documents r;
                         Combine.combinedCount := Combine.combinedCount r;
                         Combine.combined := Combine.combined r |})
  /\ main Sample.locked Sample.manifest = Threw ReadError
  /\ (exists e, In e Sample.manifest
                /\ Sample.locked (@Combine.mdAbs Sample.node e)
                   = Some Unreadable).
Proof.
  intros main.
  assert (Forall (@readable Sample.node Sample.disk) Sample.manifest) as F.
  { repeat constructor; intros U; vm_compute in U; discriminate. }
  split; [exact F|]. split; [|split; [reflexivity|]].
  - destruct (@missing_artifact_skipped Sample.yaml Sample.node
                Sample.disk Sample.manifest) as [_ Skip].
    destruct (Skip F) as [r [E [W [T [C [_ K]]]]]].
    exists r. split; [exact E|]. split; [exact W|].
    split; [rewrite T; vm_compute; reflexivity|].
    split; [exact C | exact K].
  - destruct (@missing_artifact_skipped Sample.yaml Sample.node
                Sample.locked Sample.manifest) as [Fatal _].
    exact (Fatal ReadError eq_refl).
Defined.

